(** * Time-series alignment and econometric estimation engine

    A shallow embedding of the alignment, feasibility-gate and regression code
    of the carbon-leakage dashboard:

    - [dataValidation] utilities ([detectOverlappingPeriod],
      [aggregateToAnnual], [prepareDataset], [determineFeasibleLagLength],
      [checkCBAMFeasibility], [calculateCBAMDescriptive]);
    - [econometricAnalysis.js] ([simpleOLS], [multipleOLS],
      [solveLinearSystem], [estimateCBAMInteractionModel], ...);
    - the merge step of the preprocessing script and of the in-browser parser
      ([mergeDatasets], [calculateDerivedIndicators]).

    JavaScript numbers are IEEE-754 binary64 values: they are modelled by the
    kernel's primitive floats, so every arithmetic step below rounds exactly
    as the program does.  Counts (array lengths, sample sizes, lag orders) are
    integers of [Z].  A field that holds [null] or a number is an
    [option float]. *)

From Stdlib Require Import ZArith Floats Lia.
From Stdlib Require Import Strings.String Strings.Ascii.
From Stdlib Require Import Numbers.DecimalString.
From Stdlib Require Import Sorting.Sorted Sorting.Permutation.
From stdpp Require Import base option list.

Local Open Scope string_scope.
Local Open Scope Z_scope.

(** A decimal literal denotes the nearest binary64 value, in the program as
    here. *)
#[local] Set Warnings "-inexact-float".

(** ** JavaScript values *)

(** A number inside a template literal.  Only integer counts are ever
    interpolated by the modelled code. *)
Definition Number_toString (z : Z) : string :=
  NilZero.string_of_int (Z.to_int z).

(** [isNaN(v)] and the truthiness of a number ([0], [-0] and [NaN] are falsy). *)
Definition isNaN (v : float) : bool := PrimFloat.is_nan v.

Definition truthy (v : float) : bool :=
  negb (PrimFloat.eqb v 0%float) && negb (isNaN v).

(** A value that is [null] or a number: [v !== null], [v || null], and the
    truthiness test [if (v)]. *)
Definition notNull (v : option float) : bool :=
  match v with Some _ => true | None => false end.

Definition truthyOpt (v : option float) : bool :=
  match v with Some x => truthy x | None => false end.

Definition orNull (v : option float) : option float :=
  if truthyOpt v then v else None.

(** [v !== null && !isNaN(v)] *)
Definition validNumber (v : option float) : bool :=
  match v with Some x => negb (isNaN x) | None => false end.

(** The length of an array, as a number. *)
Definition len {A} (l : list A) : Z := Z.of_nat (length l).

(** An integer count used in floating-point arithmetic.  Counts stay far below
    2^53, where the conversion is exact. *)
Definition toNumber (z : Z) : float :=
  match z with
  | Z0 => 0%float
  | Zpos _ => PrimFloat.of_uint63 (Uint63.of_Z z)
  | Zneg p => PrimFloat.opp (PrimFloat.of_uint63 (Uint63.of_Z (Zpos p)))
  end.

(** ** The lag-length gate ([determineFeasibleLagLength]) *)

Record LagVerdict := mkLagVerdict {
  lv_feasible : bool;
  lv_maxLag : Z;
  lv_reason : string
}.

(** The loop
    [for (let k = 1; k <= 12; k++) { if (n >= 10 + (k + 1) + 1) maxLag = k; else break; }]
    as a function of the loop variables; [fuel] bounds the number of
    iterations and thirteen is enough for the loop to leave by its own test. *)
Fixpoint lagLoop (fuel : nat) (n k maxLag : Z) : Z :=
  match fuel with
  | O => maxLag
  | S fuel' =>
      if k <=? 12 then
        let requiredN := 10 + (k + 1) + 1 in
        if n >=? requiredN then lagLoop fuel' n (k + 1) k else maxLag
      else maxLag
  end.

Definition determineFeasibleLagLength (n : Z) (frequency : string) (minParams : Z)
  : LagVerdict :=
  let minN := 20 in
  let minNForLags := 10 + minParams in
  if n <? minN then
    mkLagVerdict false 0 "Insufficient observations for regression analysis"
  else if String.eqb frequency "annual" then
    let maxLag := if n >=? minNForLags + 1 then 1 else 0 in
    mkLagVerdict (maxLag >? 0) maxLag
      (if maxLag =? 0
       then "Insufficient annual observations for lagged models"
       else "Annual data: maximum lag length K=1")
  else if n <? minNForLags + 3 then
    mkLagVerdict false 0 "Insufficient observations for lagged models"
  else
    let maxLag := lagLoop 13 n 1 0 in
    let maxLag :=
      if n <? 50 then Z.min maxLag 3
      else if n <? 100 then Z.min maxLag 6
      else maxLag in
    mkLagVerdict (maxLag >? 0) maxLag
      (if maxLag =? 0
       then "Insufficient observations for lagged models"
       else "Monthly data: maximum feasible lag length K=" ++ Number_toString maxLag).

(** The default value of the third parameter. *)
Definition defaultMinParams : Z := 3.

(** A lag order [k] is affordable with [n] observations when
    [n >= 10 + (k + 1) + 1]; the gate looks for the largest such [k]. *)
Definition lagAffordable (n k : Z) : Prop := n >= 10 + (k + 1) + 1.

Definition largestAffordableLag (n k : Z) : Prop :=
  lagAffordable n k /\ forall k', lagAffordable n k' -> k' <= k.

(** The two small-sample caps: at most 3 below fifty observations, at most 6
    below a hundred. *)
Definition smallSampleCap (n k : Z) : Z :=
  if n <? 50 then Z.min k 3 else if n <? 100 then Z.min k 6 else k.

(** ** Arrays *)

(** [arr.reduce((sum, v) => sum + v, 0)] *)
Definition sum (l : list float) : float :=
  fold_left (fun acc v => PrimFloat.add acc v) l 0%float.

(** [arr.slice(start, end)] for [0 <= start]. *)
Definition slice {A} (l : list A) (start stop : Z) : list A :=
  take (Z.to_nat (stop - start)) (drop (Z.to_nat start) l).

(** [Array.prototype.sort(compare)]: the sort is stable, and [a] is kept before
    [b] when [compare(a, b) <= 0].  A stable insertion sort. *)
Fixpoint insertBy {A} (le : A -> A -> bool) (x : A) (l : list A) : list A :=
  match l with
  | [] => [x]
  | y :: l' => if le x y then x :: y :: l' else y :: insertBy le x l'
  end.

Definition sortBy {A} (le : A -> A -> bool) (l : list A) : list A :=
  foldr (insertBy le) [] l.

Definition sortWith {A} (compare : A -> A -> Z) (l : list A) : list A :=
  sortBy (fun a b => compare a b <=? 0) l.

(** [Array.prototype.sort()] on strings: ascending by character codes. *)
Definition sortStrings (l : list string) : list string := sortBy String.leb l.

(** A [Set] of strings iterates in insertion order. *)
Definition Set_has (s : list string) (k : string) : bool :=
  existsb (String.eqb k) s.

Definition Set_add (s : list string) (k : string) : list string :=
  if Set_has s k then s else s ++ [k].

(** ** Dates *)

(** A [Date] is observed by the code through its time value (the operand of
    [a.date - b.date]) and through [getFullYear()].  [new Date(d)] copies [d]. *)
Record JsDate := mkDate {
  getTime : Z;
  getFullYear : Z
}.

(** Days from 1970-01-01 to the first of January of a year. *)
Definition daysToYear (y : Z) : Z :=
  365 * (y - 1970) + ((y - 1) / 4 - 492) - ((y - 1) / 100 - 19) + ((y - 1) / 400 - 4).

(** [new Date(year, 0, 1)]; a year from 0 to 99 stands for 1900 + year.  The
    host's time zone shifts every such time value by the same offset and is
    left out. *)
Definition Date_ofYear (year : Z) : JsDate :=
  let yr := if (0 <=? year) && (year <=? 99) then 1900 + year else year in
  mkDate (daysToYear yr * 86400000) yr.

(** ** The source series and the merged panel *)

Record ImportTotal := mkImportTotal {
  it_date : JsDate;
  it_yearMonth : string;
  totalQuantity_tons : float;
  totalValue_eur : float;
  countries : list string;
  unit_value : float
}.

Record ImportByCountry := mkImportByCountry {
  bc_date : JsDate;
  bc_yearMonth : string;
  partnerCountry : string;
  quantity_tons : float;
  value_eur : float
}.

Record ImportsAggregated := mkImportsAggregated {
  total : list ImportTotal;
  byCountry : list ImportByCountry
}.

Record EtsEntry := mkEtsEntry {
  ets_date : JsDate;
  price : float;
  ets_year : Z;
  ets_month : Z;
  ets_yearMonth : string
}.

Record IndustryEntry := mkIndustryEntry {
  ind_date : JsDate;
  index : float;
  ind_year : Z;
  ind_month : Z;
  ind_yearMonth : string
}.

(** A record of the merged panel, as [mergeDatasets] builds it. *)
Record MergedRow := mkMergedRow {
  m_date : JsDate;
  m_yearMonth : string;
  m_importQuantity_tons : option float;
  m_importValue_eur : option float;
  m_importUnitValue : option float;
  m_etsPrice : option float;
  m_industryIndex : option float
}.

(** A record of the panel with its derived indicators, monthly or annual.
    [cbamDummy], [year] and [frequency] are [None] on a record that does not
    carry the field; the growth rates and moving averages are [None] on
    annual records, which do not carry them either. *)
Record Row := mkRow {
  date : JsDate;
  yearMonth : string;
  importQuantity_tons : option float;
  importValue_eur : option float;
  importUnitValue : option float;
  etsPrice : option float;
  industryIndex : option float;
  importGrowth : option float;
  importGrowthYoY : option float;
  valueGrowth : option float;
  etsGrowth : option float;
  etsMA3 : option float;
  etsMA12 : option float;
  importMA3 : option float;
  importMA12 : option float;
  logImport : option float;
  logETS : option float;
  logIndustry : option float;
  cbamDummy : option float;
  year : option Z;
  frequency : option string
}.

(** ** [mergeDatasets] *)

(** [importEntry?.date || etsEntry?.date || industryEntry?.date] *)
Definition firstDate (importEntry : option ImportTotal) (etsEntry : option EtsEntry)
    (industryEntry : option IndustryEntry) : option JsDate :=
  match importEntry, etsEntry, industryEntry with
  | Some i, _, _ => Some (it_date i)
  | None, Some e, _ => Some (ets_date e)
  | None, None, Some i => Some (ind_date i)
  | None, None, None => None
  end.

Definition allPeriods (importsAggregated : ImportsAggregated)
    (etsData : list EtsEntry) (industryData : list IndustryEntry) : list string :=
  let s := fold_left (fun s i => Set_add s (it_yearMonth i)) (total importsAggregated) [] in
  let s := fold_left (fun s e => Set_add s (ets_yearMonth e)) etsData s in
  fold_left (fun s i => Set_add s (ind_yearMonth i)) industryData s.

(** The body of the [forEach] over the sorted periods: [None] is its early
    [return], which pushes nothing. *)
Definition mergePeriod (importsAggregated : ImportsAggregated)
    (etsData : list EtsEntry) (industryData : list IndustryEntry)
    (period : string) : option MergedRow :=
  let importEntry :=
    find (fun i => String.eqb (it_yearMonth i) period) (total importsAggregated) in
  let etsEntry := find (fun e => String.eqb (ets_yearMonth e) period) etsData in
  let industryEntry := find (fun i => String.eqb (ind_yearMonth i) period) industryData in
  match firstDate importEntry etsEntry industryEntry with
  | None => None
  | Some date =>
      Some {| m_date := date;
              m_yearMonth := period;
              m_importQuantity_tons := orNull (totalQuantity_tons <$> importEntry);
              m_importValue_eur := orNull (totalValue_eur <$> importEntry);
              m_importUnitValue := orNull (unit_value <$> importEntry);
              m_etsPrice := orNull (price <$> etsEntry);
              m_industryIndex := orNull (index <$> industryEntry) |}
  end.

Definition mergeDatasets (importsAggregated : ImportsAggregated)
    (etsData : list EtsEntry) (industryData : list IndustryEntry) : list MergedRow :=
  let merged :=
    omap (mergePeriod importsAggregated etsData industryData)
         (sortStrings (allPeriods importsAggregated etsData industryData)) in
  sortWith (fun a b => getTime (m_date a) - getTime (m_date b)) merged.

(** ** The host's [Math] object *)

(** [Math.log], [Math.exp] and [Math.pow] are approximations that the language
    leaves to the host; they are taken as they come.  [Math.sqrt] and
    [Math.abs] are the IEEE operations of the primitive floats. *)
Record MathObject := mkMath {
  Math_log : float -> float;
  Math_exp : float -> float;
  Math_pow : float -> float -> float
}.

(** [arr[i]] for an index that is a number: [None] is [undefined]. *)
Definition at_ {A} (l : list A) (i : Z) : option A :=
  if i <? 0 then None else l !! Z.to_nat i.

Section DerivedIndicators.

Variable Math : MathObject.

(** [prev && prev.f && entry.f ? ((entry.f - prev.f) / prev.f) * 100 : null] *)
Definition growthRate (field : MergedRow -> option float)
    (prev : option MergedRow) (entry : MergedRow) : option float :=
  match prev with
  | Some p =>
      match field p, field entry with
      | Some pv, Some ev =>
          if truthy pv && truthy ev
          then Some (((ev - pv) / pv) * 100)%float
          else None
      | _, _ => None
      end
  | None => None
  end.

(** The moving average of the records of a window whose field is not null. *)
Definition windowMean (field : MergedRow -> option float)
    (window : list MergedRow) : option float :=
  let present := List.filter (fun d => notNull (field d)) window in
  if len present >? 0
  then Some (fold_left (fun acc d => acc + default nan (field d)) present 0
             / toNumber (len present))%float
  else None.

(** [v && v > 0 ? Math.log(v) : null] *)
Definition logTransform (v : option float) : option float :=
  match v with
  | Some x => if truthy x && (0 <? x)%float then Some (Math_log Math x) else None
  | None => None
  end.

(** The body of [mergedData.map((entry, index) => ...)].  The preprocessing
    script adds [cbamDummy]; the in-browser copy of the function is the same
    code without that field ([withDummy = false]). *)
Definition deriveRow (withDummy : bool) (mergedData : list MergedRow)
    (idx : nat) (entry : MergedRow) : Row :=
  let index := Z.of_nat idx in
  let prev := if index >? 0 then at_ mergedData (index - 1) else None in
  let prev12 := if index >=? 12 then at_ mergedData (index - 12) else None in
  let window3 := slice mergedData (Z.max 0 (index - 2)) (index + 1) in
  let window12 := slice mergedData (Z.max 0 (index - 11)) (index + 1) in
  let year := getFullYear (m_date entry) in
  {| date := m_date entry;
     yearMonth := m_yearMonth entry;
     importQuantity_tons := m_importQuantity_tons entry;
     importValue_eur := m_importValue_eur entry;
     importUnitValue := m_importUnitValue entry;
     etsPrice := m_etsPrice entry;
     industryIndex := m_industryIndex entry;
     importGrowth := growthRate m_importQuantity_tons prev entry;
     importGrowthYoY := growthRate m_importQuantity_tons prev12 entry;
     valueGrowth := growthRate m_importValue_eur prev entry;
     etsGrowth := growthRate m_etsPrice prev entry;
     etsMA3 := windowMean m_etsPrice window3;
     etsMA12 := windowMean m_etsPrice window12;
     importMA3 := windowMean m_importQuantity_tons window3;
     importMA12 := windowMean m_importQuantity_tons window12;
     logImport := logTransform (m_importQuantity_tons entry);
     logETS := logTransform (m_etsPrice entry);
     logIndustry := logTransform (m_industryIndex entry);
     cbamDummy :=
       if withDummy
       then Some (if (year >=? 2023) && (year <=? 2025) then 1%float else 0%float)
       else None;
     year := None;
     frequency := None |}.

Definition calculateDerivedIndicators (withDummy : bool)
    (mergedData : list MergedRow) : list Row :=
  imap (deriveRow withDummy mergedData) mergedData.

(** ** [detectOverlappingPeriod] *)

Record Overlap := mkOverlap {
  ov_start : Z;
  ov_end : Z;
  ov_count : Z;
  ov_periods : list Row
}.

(** The six required variables are all present. *)
Definition allRequiredPresent (d : Row) : bool :=
  notNull (importQuantity_tons d) && notNull (etsPrice d) &&
  notNull (industryIndex d) && notNull (logImport d) &&
  notNull (logETS d) && notNull (logIndustry d).

(** [Math.min(...dates)] and [Math.max(...dates)] on a non-empty array of
    dates, read as time values. *)
Definition minTime (times : list Z) : Z :=
  match times with [] => 0 | t :: ts => fold_left Z.min ts t end.

Definition maxTime (times : list Z) : Z :=
  match times with [] => 0 | t :: ts => fold_left Z.max ts t end.

Definition detectOverlappingPeriod (mergedData : list Row) : option Overlap :=
  if len mergedData =? 0 then None
  else
    let validPeriods := List.filter allRequiredPresent mergedData in
    if len validPeriods =? 0 then None
    else
      let dates := map (fun d => getTime (date d)) validPeriods in
      Some {| ov_start := minTime dates;
              ov_end := maxTime dates;
              ov_count := len validPeriods;
              ov_periods := validPeriods |}.

(** ** [aggregateToAnnual] *)

(** The object kept per year in [annualMap]. *)
Record Annual := mkAnnual {
  a_year : Z;
  a_date : JsDate;
  a_importQuantity_tons : list float;
  a_importValue_eur : list float;
  a_etsPrice : list float;
  a_industryIndex : list float;
  a_cbamDummy : float
}.

(** [arr.push(v)] when [v !== null]. *)
Definition pushPresent (arr : list float) (v : option float) : list float :=
  match v with Some x => arr ++ [x] | None => arr end.

Definition pushEntry (entry : Row) (annual : Annual) : Annual :=
  {| a_year := a_year annual;
     a_date := a_date annual;
     a_importQuantity_tons :=
       pushPresent (a_importQuantity_tons annual) (importQuantity_tons entry);
     a_importValue_eur := pushPresent (a_importValue_eur annual) (importValue_eur entry);
     a_etsPrice := pushPresent (a_etsPrice annual) (etsPrice entry);
     a_industryIndex := pushPresent (a_industryIndex annual) (industryIndex entry);
     a_cbamDummy := a_cbamDummy annual |}.

(** [annualMap] is a [Map] from years to these objects; it iterates in
    insertion order, and the object of a year is updated in place. *)
Fixpoint Map_has {V} (m : list (Z * V)) (k : Z) : bool :=
  match m with
  | [] => false
  | (k', _) :: m' => (k' =? k) || Map_has m' k
  end.

Fixpoint Map_update {V} (m : list (Z * V)) (k : Z) (f : V -> V) : list (Z * V) :=
  match m with
  | [] => []
  | (k', v) :: m' => if k' =? k then (k', f v) :: m' else (k', v) :: Map_update m' k f
  end.

(** The body of [mergedData.forEach(entry => ...)]. *)
Definition annualStep (annualMap : list (Z * Annual)) (entry : Row) : list (Z * Annual) :=
  let year := getFullYear (date entry) in
  let annualMap :=
    if Map_has annualMap year then annualMap
    else (annualMap ++
      [(year, {| a_year := year;
                 a_date := Date_ofYear year;
                 a_importQuantity_tons := [];
                 a_importValue_eur := [];
                 a_etsPrice := [];
                 a_industryIndex := [];
                 a_cbamDummy := default 0%float (cbamDummy entry) |})])%list in
  Map_update annualMap year (pushEntry entry).

(** [arr.length > 0 ? arr.reduce(...) / arr.length : null] *)
Definition average (arr : list float) : option float :=
  if len arr >? 0 then Some (sum arr / toNumber (len arr))%float else None.

(** [v > 0 ? Math.log(v) : null], where [null > 0] is false. *)
Definition logIfPositive (v : option float) : option float :=
  match v with
  | Some x => if (0 <? x)%float then Some (Math_log Math x) else None
  | None => None
  end.

Definition annualRow (annual : Annual) : Row :=
  let totalImports := sum (a_importQuantity_tons annual) in
  let totalValue := sum (a_importValue_eur annual) in
  let avgETS := average (a_etsPrice annual) in
  let avgIndustry := average (a_industryIndex annual) in
  {| date := a_date annual;
     yearMonth := Number_toString (a_year annual) ++ "-01";
     importQuantity_tons := if (0 <? totalImports)%float then Some totalImports else None;
     importValue_eur := if (0 <? totalValue)%float then Some totalValue else None;
     importUnitValue :=
       if (0 <? totalImports)%float then Some (totalValue / totalImports)%float else None;
     etsPrice := avgETS;
     industryIndex := avgIndustry;
     importGrowth := None;
     importGrowthYoY := None;
     valueGrowth := None;
     etsGrowth := None;
     etsMA3 := None;
     etsMA12 := None;
     importMA3 := None;
     importMA12 := None;
     logImport := logIfPositive (Some totalImports);
     logETS := logIfPositive avgETS;
     logIndustry := logIfPositive avgIndustry;
     cbamDummy := Some (a_cbamDummy annual);
     year := Some (a_year annual);
     frequency := Some "annual" |}.

Definition aggregateToAnnual (mergedData : list Row) : list Row :=
  if len mergedData =? 0 then []
  else
    let annualMap := fold_left annualStep mergedData [] in
    sortWith (fun a b => getTime (date a) - getTime (date b))
             (map (fun kv => annualRow (snd kv)) annualMap).

(** ** [prepareDataset] *)

Record Prepared := mkPrepared {
  p_data : list Row;
  p_frequency : string;
  p_overlap : option Overlap;
  p_message : string
}.

Definition prepareDataset (mergedData : list Row) : Prepared :=
  match detectOverlappingPeriod mergedData with
  | None =>
      mkPrepared [] "none" None
        "No overlapping observations found across all required variables."
  | Some overlap =>
      if ov_count overlap =? 0 then
        mkPrepared [] "none" None
          "No overlapping observations found across all required variables."
      else if ov_count overlap <? 20 then
        let annualData := aggregateToAnnual (ov_periods overlap) in
        let annualOverlap := detectOverlappingPeriod annualData in
        mkPrepared annualData "annual" annualOverlap
          ("Monthly data insufficient (" ++ Number_toString (ov_count overlap)
           ++ " observations). Aggregated to annual frequency ("
           ++ Number_toString (len annualData) ++ " observations).")
      else
        mkPrepared (ov_periods overlap) "monthly" (Some overlap)
          ("Using monthly frequency with " ++ Number_toString (ov_count overlap)
           ++ " overlapping observations.")
  end.

End DerivedIndicators.

(** ** The intervention gate ([checkCBAMFeasibility]) and the descriptive
       comparison ([calculateCBAMDescriptive]) *)

Definition isPreCBAM (d : Row) : bool := getFullYear (date d) <? 2023.

Definition isPostCBAM (d : Row) : bool :=
  (getFullYear (date d) >=? 2023) && (getFullYear (date d) <=? 2025).

Record CBAMVerdict := mkCBAMVerdict {
  cv_feasible : bool;
  cv_reason : string;
  cv_preCBAM : Z;
  cv_postCBAM : Z
}.

Definition checkCBAMFeasibility (data : list Row) : CBAMVerdict :=
  if len data =? 0 then mkCBAMVerdict false "No data available" 0 0
  else
    let preCBAM := len (List.filter isPreCBAM data) in
    let postCBAM := len (List.filter isPostCBAM data) in
    let feasible := (preCBAM >=? 10) && (postCBAM >=? 5) in
    mkCBAMVerdict feasible
      (if feasible
       then "Sufficient observations: " ++ Number_toString preCBAM ++ " pre-CBAM, "
            ++ Number_toString postCBAM ++ " post-CBAM"
       else "Insufficient post-CBAM observations (" ++ Number_toString postCBAM
            ++ " < 5 required). Pre-CBAM: " ++ Number_toString preCBAM)
      preCBAM postCBAM.

(** [arr.sort((a, b) => a - b)]: a comparison that is [NaN] counts as zero.
    With a [NaN] among the values the comparison is not consistent and the
    language leaves the resulting order to the host; of such arrays only what
    does not depend on the order is stated. *)
Definition sortNumbers (arr : list float) : list float :=
  sortBy (fun a b => negb (0 <? a - b)%float) arr.

Record PeriodStats := mkPeriodStats {
  ps_n : Z;
  avgImports : float;
  avgPrice : float;
  medianImports : option float;
  medianPrice : option float
}.

Definition calcStats (period : list Row) : PeriodStats :=
  let imports := omap importQuantity_tons period in
  let prices := omap etsPrice period in
  {| ps_n := len period;
     avgImports := (sum imports / toNumber (len imports))%float;
     avgPrice := (sum prices / toNumber (len prices))%float;
     medianImports := at_ (sortNumbers imports) (len imports / 2);
     medianPrice := at_ (sortNumbers prices) (len prices / 2) |}.

Record CBAMDescriptive := mkCBAMDescriptive {
  d_preCBAM : PeriodStats;
  d_postCBAM : PeriodStats;
  importChange : float;
  priceChange : float
}.

(** [d.importQuantity_tons !== null && d.etsPrice !== null] *)
Definition hasImportsAndPrice (d : Row) : bool :=
  notNull (importQuantity_tons d) && notNull (etsPrice d).

Definition calculateCBAMDescriptive (data : list Row) : option CBAMDescriptive :=
  if len data =? 0 then None
  else
    let preCBAM := List.filter (fun d => isPreCBAM d && hasImportsAndPrice d) data in
    let postCBAM := List.filter (fun d => isPostCBAM d && hasImportsAndPrice d) data in
    if (len preCBAM =? 0) || (len postCBAM =? 0) then None
    else
      let preStats := calcStats preCBAM in
      let postStats := calcStats postCBAM in
      Some {| d_preCBAM := preStats;
              d_postCBAM := postStats;
              importChange :=
                (((avgImports postStats - avgImports preStats) / avgImports preStats) * 100)%float;
              priceChange :=
                (((avgPrice postStats - avgPrice preStats) / avgPrice preStats) * 100)%float |}.

(** ** The linear algebra kernel *)

Definition Matrix := list (list float).

(** [m[r][c]] read as a number: an element that is not there reads as
    [undefined], which is [NaN] in arithmetic. *)
Definition cell (m : Matrix) (r c : nat) : float :=
  default nan (m !! r ≫= (fun row => row !! c)).

Definition elem (v : list float) (i : nat) : float := default nan (v !! i).

(** [m[r][c] = v] on an element that exists. *)
Definition setCell (m : Matrix) (r c : nat) (v : float) : Matrix :=
  alter (fun row => <[c := v]> row) r m.

(** [[m[i], m[j]] = [m[j], m[i]]] *)
Definition swapRows (m : Matrix) (i j : nat) : Matrix :=
  match m !! i, m !! j with
  | Some ri, Some rj => <[j := ri]> (<[i := rj]> m)
  | _, _ => m
  end.

(** [matrix[0].map((_, colIndex) => matrix.map(row => row[colIndex]))]; the
    callers pass a matrix with at least one row. *)
Definition transpose (matrix : Matrix) : Matrix :=
  imap (fun colIndex _ => map (fun row => elem row colIndex) matrix)
       (default [] (matrix !! 0%nat)).

Definition matrixMultiply (a b : Matrix) : Matrix :=
  map (fun i =>
         map (fun j =>
                fold_left (fun acc k => (acc + cell a i k * cell b k j)%float)
                          (seq 0 (length (default [] (a !! 0%nat)))) 0%float)
             (seq 0 (length (default [] (b !! 0%nat)))))
      (seq 0 (length a)).

Definition matrixVectorMultiply (matrix : Matrix) (vector : list float) : list float :=
  map (fun row =>
         fold_left (fun acc iv => (acc + snd iv * elem vector (fst iv))%float)
                   (imap (fun i val => (i, val)) row) 0%float)
      matrix.

(** The search for the pivot row of column [i]. *)
Definition findPivot (augmented : Matrix) (n i : nat) : nat :=
  fold_left
    (fun maxRow k =>
       if (abs (cell augmented maxRow i) <? abs (cell augmented k i))%float
       then k else maxRow)
    (seq (S i) (n - S i)) i.

(** [augmented[k][j] -= factor * augmented[i][j]] for [j] from [i] to [n]. *)
Definition eliminateRow (augmented : Matrix) (n i k : nat) : Matrix :=
  let factor := (cell augmented k i / cell augmented i i)%float in
  fold_left
    (fun aug j => setCell aug k j (cell aug k j - factor * cell aug i j)%float)
    (seq i (S n - i)) augmented.

Definition forwardStep (augmented : Matrix) (n i : nat) : Matrix :=
  let maxRow := findPivot augmented n i in
  let augmented := swapRows augmented i maxRow in
  fold_left (fun aug k => eliminateRow aug n i k) (seq (S i) (n - S i)) augmented.

Definition backSubstitution (augmented : Matrix) (n : nat) : list float :=
  fold_left
    (fun x i =>
       let xi := cell augmented i n in
       let xi := fold_left (fun xi j => (xi - cell augmented i j * elem x j)%float)
                           (seq (S i) (n - S i)) xi in
       <[i := (xi / cell augmented i i)%float]> x)
    (rev (seq 0 n)) (replicate n nan).

(** Gaussian elimination with partial pivoting, then back substitution.  No
    step looks at the size of a pivot: the function returns an array of [n]
    numbers on every input. *)
Definition solveLinearSystem (A : Matrix) (b : list float) : list float :=
  let n := length A in
  let augmented := imap (fun i row => (row ++ [elem b i])%list) A in
  let augmented := fold_left (fun aug i => forwardStep aug n i) (seq 0 n) augmented in
  backSubstitution augmented n.

(** [Math.sqrt(mse * Math.abs(XtX[i][i]))] for each diagonal element. *)
Definition calculateStandardErrors (XtX : Matrix) (mse : float) : list float :=
  map (fun i => sqrt (mse * abs (cell XtX i i))%float) (seq 0 (length XtX)).

(** The truthiness of an array: every object is truthy. *)
Definition Array_truthy {A} (arr : list A) : bool := true.

(** ** Statistical primitives and estimators *)

Record SimpleOLSResult := mkSimpleOLS {
  s_intercept : float;
  s_slope : float;
  s_rSquared : float;
  s_standardError : float;
  s_seSlope : float;
  s_tStat : float;
  s_pValue : float;
  s_n : Z
}.

Record MultipleOLSResult := mkMultipleOLS {
  coefficients : list float;
  rSquared : float;
  standardErrors : list float;
  tStats : list float;
  pValues : list float;
  r_n : Z
}.

(** The fields of a fitted interaction model; a coefficient read past the end
    of its array would be [undefined], here [None]. *)
Record InteractionEstimate := mkInteractionEstimate {
  ie_frequency : string;
  ie_intercept : option float;
  ie_carbonPriceCoeff : option float;
  ie_carbonPriceSE : option float;
  ie_carbonPriceTStat : option float;
  ie_carbonPricePValue : option float;
  ie_cbamInteractionCoeff : option float;
  ie_cbamInteractionSE : option float;
  ie_cbamInteractionTStat : option float;
  ie_cbamInteractionPValue : option float;
  ie_activityCoeff : option float;
  ie_activitySE : option float;
  ie_activityTStat : option float;
  ie_activityPValue : option float;
  ie_rSquared : float;
  ie_n : Z;
  ie_preCBAM : Z;
  ie_postCBAM : Z
}.

Inductive InteractionResult :=
| InteractionInfeasible (reason : string) (n : option Z) (preCBAM postCBAM : Z)
| InteractionFitted (estimate : InteractionEstimate).

Definition ir_feasible (r : InteractionResult) : bool :=
  match r with InteractionInfeasible _ _ _ _ => false | InteractionFitted _ => true end.

Definition ir_reason (r : InteractionResult) : option string :=
  match r with
  | InteractionInfeasible reason _ _ _ => Some reason
  | InteractionFitted _ => None
  end.

Record BaselineEstimate := mkBaselineEstimate {
  be_frequency : string;
  be_intercept : option float;
  be_carbonPriceCoeff : option float;
  be_carbonPriceSE : option float;
  be_carbonPriceTStat : option float;
  be_carbonPricePValue : option float;
  be_activityCoeff : option float;
  be_activitySE : option float;
  be_activityTStat : option float;
  be_activityPValue : option float;
  be_cbamCoeff : option float;
  be_cbamSE : option float;
  be_cbamTStat : option float;
  be_cbamPValue : option float;
  be_rSquared : float;
  be_n : Z
}.

Inductive BaselineResult :=
| BaselineInfeasible (reason : string) (n : Z)
| BaselineFitted (estimate : BaselineEstimate).

Definition br_feasible (r : BaselineResult) : bool :=
  match r with BaselineInfeasible _ _ => false | BaselineFitted _ => true end.

(** The arrays that [alignDataWithCBAM] returns. *)
Record Aligned := mkAligned {
  al_y : list float;
  al_x1 : list float;
  al_x2 : list float;
  al_x3 : list float
}.

Definition alignDataWithCBAM (data : list Row) (includeInteraction : bool) : Aligned :=
  fold_left
    (fun acc d =>
       let cbam := default 0%float (cbamDummy d) in
       match logImport d, etsPrice d, logIndustry d with
       | Some li, Some ets, Some lind =>
           if negb (isNaN li) && negb (isNaN ets) && (0 <? ets)%float && negb (isNaN lind)
           then
             if includeInteraction
             then mkAligned (al_y acc ++ [li]) (al_x1 acc ++ [ets])
                            (al_x2 acc ++ [(ets * cbam)%float]) (al_x3 acc ++ [lind])
             else mkAligned (al_y acc ++ [li]) (al_x1 acc ++ [ets])
                            (al_x2 acc ++ [lind]) (al_x3 acc ++ [cbam])
           else acc
       | _, _, _ => acc
       end)
    data (mkAligned [] [] [] []).

Section Statistics.

Variable Math : MathObject.

Definition erf (x : float) : float :=
  let a1 := 0.254829592%float in
  let a2 := (-0.284496736)%float in
  let a3 := 1.421413741%float in
  let a4 := (-1.453152027)%float in
  let a5 := 1.061405429%float in
  let p := 0.3275911%float in
  let sign := if (x <? 0)%float then (-1)%float else 1%float in
  let x := abs x in
  let t := (1.0 / (1.0 + p * x))%float in
  let y := (1.0 - (((((a5 * t + a4) * t) + a3) * t + a2) * t + a1) * t
                   * Math_exp Math (- x * x))%float in
  (sign * y)%float.

Definition normalCDF (z : float) : float :=
  (0.5 * (1 + erf (z / sqrt 2)))%float.

Definition approximatePValue (tStat : float) (df : Z) : float :=
  if df >? 30 then
    let z := abs tStat in
    (2 * (1 - normalCDF z))%float
  else
    let absT := abs tStat in
    if (absT <? 0.5)%float then 0.6%float
    else if (absT <? 1.0)%float then 0.3%float
    else if (absT <? 1.5)%float then 0.15%float
    else if (absT <? 2.0)%float then 0.05%float
    else if (absT <? 2.5)%float then 0.02%float
    else if (absT <? 3.0)%float then 0.01%float
    else 0.001%float.

(** The pairs [{ y: y[i], x: x[i] }] that [simpleOLS] keeps: both values are
    neither [null] nor [NaN], for [i] below the shorter length. *)
Definition validPairs (y x : list (option float)) : list (float * float) :=
  omap (fun yx =>
          match yx with
          | (Some yi, Some xi) =>
              if negb (isNaN yi) && negb (isNaN xi) then Some (yi, xi) else None
          | _ => None
          end)
       (zip y x).

Definition simpleOLS (y x : list (option float)) : option SimpleOLSResult :=
  let validPairs := validPairs y x in
  if len validPairs <? 2 then None
  else
    let nValid := len validPairs in
    let nV := toNumber nValid in
    let sumX := fold_left (fun acc p => acc + snd p)%float validPairs 0%float in
    let sumY := fold_left (fun acc p => acc + fst p)%float validPairs 0%float in
    let sumXY := fold_left (fun acc p => acc + snd p * fst p)%float validPairs 0%float in
    let sumXX := fold_left (fun acc p => acc + snd p * snd p)%float validPairs 0%float in
    let sumYY := fold_left (fun acc p => acc + fst p * fst p)%float validPairs 0%float in
    let meanX := (sumX / nV)%float in
    let meanY := (sumY / nV)%float in
    let slope := ((sumXY - nV * meanX * meanY) / (sumXX - nV * meanX * meanX))%float in
    let intercept := (meanY - slope * meanX)%float in
    let yPred := map (fun p => intercept + slope * snd p)%float validPairs in
    let ssRes :=
      fold_left (fun acc py => acc + Math_pow Math (fst (fst py) - snd py) 2)%float
                (zip validPairs yPred) 0%float in
    let ssTot :=
      fold_left (fun acc p => acc + Math_pow Math (fst p - meanY) 2)%float
                validPairs 0%float in
    let rSquared := if (0 <? ssTot)%float then (1 - ssRes / ssTot)%float else 0%float in
    let standardError := sqrt (ssRes / toNumber (nValid - 2))%float in
    let seSlope :=
      (standardError
       / sqrt (fold_left (fun acc p => acc + Math_pow Math (snd p - meanX) 2)
                         validPairs 0))%float in
    let tStat := if (0 <? seSlope)%float then (slope / seSlope)%float else 0%float in
    let pValue := approximatePValue tStat (nValid - 2) in
    Some {| s_intercept := intercept;
            s_slope := slope;
            s_rSquared := rSquared;
            s_standardError := standardError;
            s_seSlope := seSlope;
            s_tStat := tStat;
            s_pValue := pValue;
            s_n := nValid |}.

(** The indices [i] that [multipleOLS] keeps: [y[i]] and every [x[j][i]] are
    neither [null] nor [NaN] (an [x[j][i]] past the end of [x[j]] is
    [undefined], which [isNaN] rejects). *)
Definition validIndices (y : list (option float)) (x : list (list (option float)))
  : list nat :=
  List.filter
    (fun i =>
       validNumber (mjoin (y !! i)) &&
       forallb (fun xj => validNumber (mjoin (xj !! i))) x)
    (seq 0 (length y)).

Definition multipleOLS (y : list (option float)) (x : list (list (option float)))
  : option MultipleOLSResult :=
  let n := len y in
  let k := len x in
  if n <? k + 1 then None
  else
    let validIndices := validIndices y x in
    if len validIndices <? k + 1 then None
    else
      let Y := map (fun i => default nan (mjoin (y !! i))) validIndices in
      let X := map (fun i => 1%float :: map (fun xj => default nan (mjoin (xj !! i))) x)
                   validIndices in
      let Xt := transpose X in
      let XtX := matrixMultiply Xt X in
      let XtY := matrixVectorMultiply Xt Y in
      let coefficients := solveLinearSystem XtX XtY in
      if negb (Array_truthy coefficients) then None
      else
        let yPred :=
          map (fun row =>
                 fold_left (fun acc j => acc + elem coefficients (j + 1) * elem row (j + 1))%float
                           (seq 0 (length x)) (elem coefficients 0))
              X in
        let meanY := (sum Y / toNumber (len Y))%float in
        let ssRes :=
          fold_left (fun acc yy => acc + Math_pow Math (fst yy - snd yy) 2)%float
                    (zip Y yPred) 0%float in
        let ssTot :=
          fold_left (fun acc yi => acc + Math_pow Math (yi - meanY) 2)%float Y 0%float in
        let rSquared := if (0 <? ssTot)%float then (1 - ssRes / ssTot)%float else 0%float in
        let mse := (ssRes / toNumber (len validIndices - k - 1))%float in
        let standardErrors := calculateStandardErrors XtX mse in
        let tStats :=
          imap (fun i coef =>
                  if (0 <? elem standardErrors i)%float
                  then (coef / elem standardErrors i)%float else 0%float)
               coefficients in
        let pValues :=
          map (fun t => approximatePValue t (len validIndices - k - 1)) tStats in
        Some {| coefficients := coefficients;
                rSquared := rSquared;
                standardErrors := standardErrors;
                tStats := tStats;
                pValues := pValues;
                r_n := len validIndices |}.

Definition estimateBaselineModel (mergedData : list Row) (frequency : string)
  : BaselineResult :=
  let aligned := alignDataWithCBAM mergedData false in
  if len (al_y aligned) <? 20 then
    BaselineInfeasible
      ("Insufficient observations (N=" ++ Number_toString (len (al_y aligned))
       ++ " < 20 required for OLS)")
      (len (al_y aligned))
  else
    match multipleOLS (Some <$> al_y aligned)
            [Some <$> al_x1 aligned; Some <$> al_x2 aligned; Some <$> al_x3 aligned] with
    | None => BaselineInfeasible "Regression estimation failed" (len (al_y aligned))
    | Some result =>
        BaselineFitted
          {| be_frequency := frequency;
             be_intercept := coefficients result !! 0%nat;
             be_carbonPriceCoeff := coefficients result !! 1%nat;
             be_carbonPriceSE := standardErrors result !! 1%nat;
             be_carbonPriceTStat := tStats result !! 1%nat;
             be_carbonPricePValue := pValues result !! 1%nat;
             be_activityCoeff := coefficients result !! 2%nat;
             be_activitySE := standardErrors result !! 2%nat;
             be_activityTStat := tStats result !! 2%nat;
             be_activityPValue := pValues result !! 2%nat;
             be_cbamCoeff := coefficients result !! 3%nat;
             be_cbamSE := standardErrors result !! 3%nat;
             be_cbamTStat := tStats result !! 3%nat;
             be_cbamPValue := pValues result !! 3%nat;
             be_rSquared := rSquared result;
             be_n := r_n result |}
    end.

Definition estimateCBAMInteractionModel (mergedData : list Row) (frequency : string)
  : InteractionResult :=
  let preCBAM := len (List.filter isPreCBAM mergedData) in
  let postCBAM := len (List.filter isPostCBAM mergedData) in
  if (preCBAM <? 10) || (postCBAM <? 5) then
    InteractionInfeasible
      ("Insufficient CBAM period coverage: " ++ Number_toString preCBAM
       ++ " pre-CBAM observations (≥10 required), " ++ Number_toString postCBAM
       ++ " post-CBAM observations (≥5 required)")
      None preCBAM postCBAM
  else
    let aligned := alignDataWithCBAM mergedData true in
    if len (al_y aligned) <? 20 then
      InteractionInfeasible
        ("Insufficient observations (N=" ++ Number_toString (len (al_y aligned))
         ++ " < 20 required for OLS)")
        (Some (len (al_y aligned))) preCBAM postCBAM
    else
      match multipleOLS (Some <$> al_y aligned)
              [Some <$> al_x1 aligned; Some <$> al_x2 aligned; Some <$> al_x3 aligned] with
      | None =>
          InteractionInfeasible "Regression estimation failed"
            (Some (len (al_y aligned))) preCBAM postCBAM
      | Some result =>
          InteractionFitted
            {| ie_frequency := frequency;
               ie_intercept := coefficients result !! 0%nat;
               ie_carbonPriceCoeff := coefficients result !! 1%nat;
               ie_carbonPriceSE := standardErrors result !! 1%nat;
               ie_carbonPriceTStat := tStats result !! 1%nat;
               ie_carbonPricePValue := pValues result !! 1%nat;
               ie_cbamInteractionCoeff := coefficients result !! 2%nat;
               ie_cbamInteractionSE := standardErrors result !! 2%nat;
               ie_cbamInteractionTStat := tStats result !! 2%nat;
               ie_cbamInteractionPValue := pValues result !! 2%nat;
               ie_activityCoeff := coefficients result !! 3%nat;
               ie_activitySE := standardErrors result !! 3%nat;
               ie_activityTStat := tStats result !! 3%nat;
               ie_activityPValue := pValues result !! 3%nat;
               ie_rSquared := rSquared result;
               ie_n := r_n result;
               ie_preCBAM := preCBAM;
               ie_postCBAM := postCBAM |}
      end.

End Statistics.

(** ** Vocabulary of the statements *)

(** The five variables that the merge aligns. *)
Inductive PanelVariable :=
| ImportQuantity | ImportValue | ImportUnitValue | EtsPrice | IndustryIndex.

(** The period keys of the series that carries a variable. *)
Definition periodsOf (v : PanelVariable) (importsAggregated : ImportsAggregated)
    (etsData : list EtsEntry) (industryData : list IndustryEntry) : list string :=
  match v with
  | ImportQuantity | ImportValue | ImportUnitValue =>
      it_yearMonth <$> total importsAggregated
  | EtsPrice => ets_yearMonth <$> etsData
  | IndustryIndex => ind_yearMonth <$> industryData
  end.

(** What the series reports for a period: the value of its first record with
    that period key, [None] when it has no such record. *)
Definition reported (v : PanelVariable) (importsAggregated : ImportsAggregated)
    (etsData : list EtsEntry) (industryData : list IndustryEntry)
    (period : string) : option float :=
  let importEntry :=
    find (fun i => String.eqb (it_yearMonth i) period) (total importsAggregated) in
  match v with
  | ImportQuantity => totalQuantity_tons <$> importEntry
  | ImportValue => totalValue_eur <$> importEntry
  | ImportUnitValue => unit_value <$> importEntry
  | EtsPrice => price <$> find (fun e => String.eqb (ets_yearMonth e) period) etsData
  | IndustryIndex =>
      index <$> find (fun i => String.eqb (ind_yearMonth i) period) industryData
  end.

(** What a record of the panel holds for the variable. *)
Definition recorded (v : PanelVariable) (r : MergedRow) : option float :=
  match v with
  | ImportQuantity => m_importQuantity_tons r
  | ImportValue => m_importValue_eur r
  | ImportUnitValue => m_importUnitValue r
  | EtsPrice => m_etsPrice r
  | IndustryIndex => m_industryIndex r
  end.

(** Every record of the three series, as its period key and its date. *)
Definition periodDates (importsAggregated : ImportsAggregated)
    (etsData : list EtsEntry) (industryData : list IndustryEntry)
  : list (string * JsDate) :=
  ((fun i => (it_yearMonth i, it_date i)) <$> total importsAggregated)
  ++ ((fun e => (ets_yearMonth e, ets_date e)) <$> etsData)
  ++ ((fun i => (ind_yearMonth i, ind_date i)) <$> industryData).




(** The growth rule as the specification words it: [(v(t) - v(t-k)) / v(t-k) * 100],
    and [null] if either side is missing or the denominator is 0. *)
Definition growthFormula (previous current : option float) : option float :=
  match previous, current with
  | Some p, Some c =>
      if PrimFloat.eqb p 0 then None else Some (((c - p) / p) * 100)%float
  | _, _ => None
  end.

(** [v(t)]: the value of a variable in the record of index [t] of a panel,
    missing when the record or the value is. *)
Definition valueAt (field : MergedRow -> option float) (panel : list MergedRow)
    (t : Z) : option float :=
  at_ panel t ≫= field.

(** The three variables with a month-over-month growth rate. *)
Inductive GrowthVariable := GrowthOfImports | GrowthOfValue | GrowthOfEts.

Definition levelOf (g : GrowthVariable) : MergedRow -> option float :=
  match g with
  | GrowthOfImports => m_importQuantity_tons
  | GrowthOfValue => m_importValue_eur
  | GrowthOfEts => m_etsPrice
  end.

Definition growthOf (g : GrowthVariable) : Row -> option float :=
  match g with
  | GrowthOfImports => importGrowth
  | GrowthOfValue => valueGrowth
  | GrowthOfEts => etsGrowth
  end.

(** The records of a panel that fall in a calendar year, in their order. *)
Definition yearOf (d : Row) : Z := getFullYear (date d).

Definition rowsOfYear (y : Z) (data : list Row) : list Row :=
  List.filter (fun d => yearOf d =? y) data.

(** [total > 0 ? total : null] *)
Definition positiveOrNull (x : float) : option float :=
  if (0 <? x)%float then Some x else None.

(** The object that [annualMap] is expected to hold for a year once the
    records of [data] have been visited. *)
Definition annualOf (data : list Row) (y : Z) : Annual :=
  let months := rowsOfYear y data in
  {| a_year := y;
     a_date := Date_ofYear y;
     a_importQuantity_tons := omap importQuantity_tons months;
     a_importValue_eur := omap importValue_eur months;
     a_etsPrice := omap etsPrice months;
     a_industryIndex := omap industryIndex months;
     a_cbamDummy := default 0%float (head months ≫= cbamDummy) |}.

(** What [annualMap] holds after the records of [l] have been visited: one
    entry per calendar year of [l], each the aggregate of that year's records. *)
Definition annualMapInvariant (annualMap : list (Z * Annual)) (l : list Row) : Prop :=
  NoDup annualMap.*1
  /\ (forall y, y ∈ annualMap.*1 <-> y ∈ yearOf <$> l)
  /\ (forall y a, (y, a) ∈ annualMap -> a = annualOf l y).

(** The records of one side of the intervention that the descriptive
    comparison uses: those that carry an import quantity and a carbon price. *)
Definition sideOf (side : Row -> bool) (data : list Row) : list Row :=
  List.filter (fun d => side d && hasImportsAndPrice d) data.

(** The mean of a variable over records: the sum of the values that the
    records carry, in their order, divided by the number of the records. *)
Definition meanOver (field : Row -> option float) (records : list Row) : float :=
  (sum (omap field records) / toNumber (len records))%float.

(** The percent change from one mean to another. *)
Definition percentChange (before after : float) : float :=
  (((after - before) / before) * 100)%float.

(** The two operands of the slope division of [simpleOLS],
    [sumXY - n * meanX * meanY] and [sumXX - n * meanX * meanX], as the code
    computes them from the valid pairs. *)
Definition slopeNumerator (pairs : list (float * float)) : float :=
  let nV := toNumber (len pairs) in
  let sumX := fold_left (fun acc p => acc + snd p)%float pairs 0%float in
  let sumY := fold_left (fun acc p => acc + fst p)%float pairs 0%float in
  let sumXY := fold_left (fun acc p => acc + snd p * fst p)%float pairs 0%float in
  (sumXY - nV * (sumX / nV) * (sumY / nV))%float.

Definition slopeDenominator (pairs : list (float * float)) : float :=
  let nV := toNumber (len pairs) in
  let sumX := fold_left (fun acc p => acc + snd p)%float pairs 0%float in
  let sumXX := fold_left (fun acc p => acc + snd p * snd p)%float pairs 0%float in
  (sumXX - nV * (sumX / nV) * (sumX / nV))%float.

(** * Further functions of the code *)

(** The test that [alignDataWithCBAM] makes on a record before it keeps it:
    [logImport], [etsPrice] and [logIndustry] are numbers and the carbon price
    is greater than zero. *)
Definition alignable (d : Row) : bool :=
  match logImport d, etsPrice d, logIndustry d with
  | Some li, Some ets, Some lind =>
      negb (isNaN li) && negb (isNaN ets) && (0 <? ets)%float && negb (isNaN lind)
  | _, _, _ => false
  end.

(** ** [alignDataWithLags] and [estimateLaggedModel] *)

(** The arrays that [alignDataWithLags] returns: [carbonPrices[k]] holds the
    carbon price [k] records earlier. *)
Record LagAligned := mkLagAligned {
  la_y : list float;
  la_carbonPrices : list (list float);
  la_activity : list float
}.

(** [data[i - k]?.etsPrice], read for [k <= maxLags <= i]. *)
Definition lagPrice (data : list Row) (i k : nat) : option float :=
  data !! (i - k)%nat ≫= etsPrice.

(** The inner loop that sets [allLagsAvailable]: a price that is [null],
    [NaN] or not greater than zero stops it. *)
Definition allLagsAvailable (data : list Row) (maxLags i : nat) : bool :=
  forallb
    (fun k =>
       match lagPrice data i k with
       | Some etsPrice => negb (isNaN etsPrice || (etsPrice <=? 0)%float)
       | None => false
       end)
    (seq 0 (S maxLags)).

(** The lag orders are natural numbers, as at every call. *)
Definition alignDataWithLags (data : list Row) (maxLags : nat) : LagAligned :=
  fold_left
    (fun acc i =>
       match data !! i with
       | Some d =>
           match logImport d, logIndustry d with
           | Some li, Some lind =>
               if isNaN li || isNaN lind then acc
               else if negb (allLagsAvailable data maxLags i) then acc
               else
                 mkLagAligned
                   (la_y acc ++ [li])
                   (imap (fun k prices => (prices ++ [default nan (lagPrice data i k)])%list)
                         (la_carbonPrices acc))
                   (la_activity acc ++ [lind])
           | _, _ => acc
           end
       | None => acc
       end)
    (seq maxLags (length data - maxLags))
    (mkLagAligned [] (replicate (S maxLags) []) []).

(** The records that [alignDataWithLags] keeps: [logImport] and [logIndustry]
    are numbers and every lagged price is available. *)
Definition lagComplete (data : list Row) (maxLags i : nat) : bool :=
  match data !! i with
  | Some d =>
      validNumber (logImport d) && validNumber (logIndustry d)
      && allLagsAvailable data maxLags i
  | None => false
  end.

Record LagCoefficient := mkLagCoefficient {
  lc_lag : nat;
  lc_coefficient : option float;
  lc_se : option float;
  lc_tStat : option float;
  lc_pValue : option float
}.

Record LaggedEstimate := mkLaggedEstimate {
  le_model : string;
  le_frequency : string;
  le_maxLags : nat;
  le_intercept : option float;
  le_lagCoefficients : list LagCoefficient;
  le_activityCoeff : option float;
  le_activitySE : option float;
  le_activityTStat : option float;
  le_activityPValue : option float;
  le_rSquared : float;
  le_n : Z
}.

Inductive LaggedResult :=
| LaggedInfeasible (reason : string) (n : Z) (requestedMaxLags : nat)
| LaggedFitted (estimate : LaggedEstimate).

Definition lr_feasible (r : LaggedResult) : bool :=
  match r with LaggedInfeasible _ _ _ => false | LaggedFitted _ => true end.

(** [d.logImport !== null && d.etsPrice !== null && d.logIndustry !== null] *)
Definition hasLaggedInputs (d : Row) : bool :=
  notNull (logImport d) && notNull (etsPrice d) && notNull (logIndustry d).

(** [keys] of [alignData]: a key is the projection of the field it names. *)
Definition Keys : Type :=
  (Row -> option float) * (Row -> option float) * (Row -> option float).

Record AlignedPair := mkAlignedPair {
  ap_y : list float;
  ap_x1 : list float;
  ap_x2 : list float
}.

Definition alignData (data : list Row) (keys : Keys) (lag : nat) : AlignedPair :=
  let '(key0, key1, key2) := keys in
  fold_left
    (fun acc i =>
       let yVal := data !! i ≫= key0 in
       let x1Val := data !! (i - lag)%nat ≫= key1 in
       let x2Val := data !! (i - lag)%nat ≫= key2 in
       match yVal, x1Val, x2Val with
       | Some yVal, Some x1Val, Some x2Val =>
           if negb (isNaN yVal) && negb (isNaN x1Val) && negb (isNaN x2Val)
           then mkAlignedPair (ap_y acc ++ [yVal]) (ap_x1 acc ++ [x1Val])
                              (ap_x2 acc ++ [x2Val])
           else acc
       | _, _, _ => acc
       end)
    (seq lag (length data - lag))
    (mkAlignedPair [] [] []).

Record ElasticityEstimate := mkElasticityEstimate {
  ee_lag : nat;
  elasticity : option float;
  ee_se : option float;
  ee_tStat : option float;
  ee_pValue : option float;
  ee_rSquared : float;
  industryCoeff : option float;
  ee_intercept : option float;
  ee_n : Z
}.

Record SummaryStats := mkSummaryStats {
  variable : string;
  ss_mean : float;
  ss_median : option float;
  ss_stdDev : float;
  ss_min : option float;
  ss_max : option float;
  ss_n : Z
}.

Section FurtherEstimators.

Variable Math : MathObject.

Definition estimateLaggedModel (mergedData : list Row) (requestedMaxLags : nat)
    (frequency : string) : option LaggedResult :=
  let n := len (List.filter hasLaggedInputs mergedData) in
  let effectiveMaxLags :=
    if String.eqb frequency "annual" then Nat.min requestedMaxLags 1
    else requestedMaxLags in
  let minRequired := 10 + Z.of_nat effectiveMaxLags + 2 in
  if n <? minRequired then
    Some (LaggedInfeasible
            ("Insufficient observations (N=" ++ Number_toString n ++ " < "
             ++ Number_toString minRequired ++ " required for K="
             ++ Number_toString (Z.of_nat effectiveMaxLags) ++ " lagged model)")
            n effectiveMaxLags)
  else
    let aligned := alignDataWithLags mergedData effectiveMaxLags in
    if len (la_y aligned) <? minRequired then
      Some (LaggedInfeasible
              ("Insufficient aligned observations (N="
               ++ Number_toString (len (la_y aligned)) ++ " < "
               ++ Number_toString minRequired ++ ")")
              (len (la_y aligned)) effectiveMaxLags)
    else
      let X :=
        map (fun i =>
               ((1%float
                 :: map (fun k => cell (la_carbonPrices aligned) k i)
                        (seq 0 (S effectiveMaxLags)))
                ++ [elem (la_activity aligned) i])%list)
            (seq 0 (length (la_y aligned))) in
      let Y := la_y aligned in
      let Xt := transpose X in
      let XtX := matrixMultiply Xt X in
      let XtY := matrixVectorMultiply Xt Y in
      let coefficients := solveLinearSystem XtX XtY in
      if negb (Array_truthy coefficients) then None
      else
        let yPred :=
          map (fun row =>
                 fold_left (fun acc j => acc + elem coefficients j * elem row j)%float
                           (seq 1 (length coefficients - 1)) (elem coefficients 0))
              X in
        let meanY := (sum Y / toNumber (len Y))%float in
        let ssRes :=
          fold_left (fun acc yy => acc + Math_pow Math (fst yy - snd yy) 2)%float
                    (zip Y yPred) 0%float in
        let ssTot :=
          fold_left (fun acc yi => acc + Math_pow Math (yi - meanY) 2)%float Y 0%float in
        let rSquared := if (0 <? ssTot)%float then (1 - ssRes / ssTot)%float else 0%float in
        let mse := (ssRes / toNumber (len Y - len coefficients))%float in
        let standardErrors := calculateStandardErrors XtX mse in
        let tStats :=
          imap (fun i coef =>
                  if (0 <? elem standardErrors i)%float
                  then (coef / elem standardErrors i)%float else 0%float)
               coefficients in
        let pValues :=
          map (fun t => approximatePValue Math t (len Y - len coefficients)) tStats in
        let lagCoeffs :=
          map (fun k =>
                 {| lc_lag := k;
                    lc_coefficient := coefficients !! (k + 1)%nat;
                    lc_se := standardErrors !! (k + 1)%nat;
                    lc_tStat := tStats !! (k + 1)%nat;
                    lc_pValue := pValues !! (k + 1)%nat |})
              (seq 0 (S effectiveMaxLags)) in
        Some (LaggedFitted
                {| le_model := "Lagged (K=" ++ Number_toString (Z.of_nat effectiveMaxLags)
                               ++ ")";
                   le_frequency := frequency;
                   le_maxLags := effectiveMaxLags;
                   le_intercept := coefficients !! 0%nat;
                   le_lagCoefficients := lagCoeffs;
                   le_activityCoeff := coefficients !! (effectiveMaxLags + 2)%nat;
                   le_activitySE := standardErrors !! (effectiveMaxLags + 2)%nat;
                   le_activityTStat := tStats !! (effectiveMaxLags + 2)%nat;
                   le_activityPValue := pValues !! (effectiveMaxLags + 2)%nat;
                   le_rSquared := rSquared;
                   le_n := len Y |}).

(** The estimate pushed for one lag: nothing when at most ten records align
    or [multipleOLS] answers [null]. *)
Definition elasticityAt (mergedData : list Row) (lag : nat) : list ElasticityEstimate :=
  let aligned := alignData mergedData (logImport, logETS, logIndustry) lag in
  if 10 <? len (ap_y aligned) then
    match multipleOLS Math (Some <$> ap_y aligned)
            [Some <$> ap_x1 aligned; Some <$> ap_x2 aligned] with
    | Some r =>
        [ {| ee_lag := lag;
             elasticity := coefficients r !! 1%nat;
             ee_se := standardErrors r !! 1%nat;
             ee_tStat := tStats r !! 1%nat;
             ee_pValue := pValues r !! 1%nat;
             ee_rSquared := rSquared r;
             industryCoeff := coefficients r !! 2%nat;
             ee_intercept := coefficients r !! 0%nat;
             ee_n := r_n r |} ]
    | None => []
    end
  else [].

Definition estimateElasticity (mergedData : list Row) (useLags : bool) (maxLags : nat)
  : list ElasticityEstimate :=
  let results := elasticityAt mergedData 0 in
  if useLags
  then fold_left (fun results lag => (results ++ elasticityAt mergedData lag)%list)
                 (seq 1 maxLags) results
  else results.

(** The field that [calculateSummaryStats] reads for a variable name; any
    other name gives [null]. *)
Definition summaryVariable (variableName : string) (d : Row) : option float :=
  if String.eqb variableName "importQuantity_tons" then importQuantity_tons d
  else if String.eqb variableName "logImport" then logImport d
  else if String.eqb variableName "etsPrice" then etsPrice d
  else if String.eqb variableName "industryIndex" then industryIndex d
  else if String.eqb variableName "logIndustry" then logIndustry d
  else if String.eqb variableName "cbamDummy" then cbamDummy d
  else None.

Definition calculateSummaryStats (data : list Row) (variableName : string)
  : option SummaryStats :=
  let values :=
    omap (fun d => match summaryVariable variableName d with
                   | Some v => if negb (isNaN v) then Some v else None
                   | None => None
                   end)
         data in
  if len values =? 0 then None
  else
    let sorted := sortNumbers values in
    let mean := (sum values / toNumber (len values))%float in
    let median :=
      if len sorted mod 2 =? 0
      then match at_ sorted (len sorted / 2 - 1), at_ sorted (len sorted / 2) with
           | Some a, Some b => Some ((a + b) / 2)%float
           | _, _ => None
           end
      else at_ sorted (len sorted / 2) in
    let variance :=
      (fold_left (fun acc v => acc + Math_pow Math (v - mean) 2)%float values 0%float
       / toNumber (len values))%float in
    Some {| variable := variableName;
            ss_mean := mean;
            ss_median := median;
            ss_stdDev := sqrt variance;
            ss_min := at_ sorted 0;
            ss_max := at_ sorted (len sorted - 1);
            ss_n := len values |}.

End FurtherEstimators.

(** ** [aggregateImports] and [getTopCountries] *)

(** A [Map] with string keys: it iterates in insertion order, and the object
    of a key is updated in place. *)
Fixpoint StringMap_has {V} (m : list (string * V)) (k : string) : bool :=
  match m with
  | [] => false
  | (k', _) :: m' => String.eqb k' k || StringMap_has m' k
  end.

Fixpoint StringMap_update {V} (m : list (string * V)) (k : string) (f : V -> V)
  : list (string * V) :=
  match m with
  | [] => []
  | (k', v) :: m' =>
      if String.eqb k' k then (k', f v) :: m' else (k', v) :: StringMap_update m' k f
  end.

(** [s.padStart(2, '0')] *)
Definition padStart2 (s : string) : string :=
  match String.length s with
  | O => "00"
  | S O => "0" ++ s
  | _ => s
  end.

(** The object that [totalByPeriod] holds for a period; [countries] is a
    [Set]. *)
Record PeriodTotal := mkPeriodTotal {
  pt_date : JsDate;
  pt_yearMonth : string;
  pt_totalQuantity_tons : float;
  pt_totalValue_eur : float;
  pt_countries : list string
}.

Record CountryTotal := mkCountryTotal {
  ct_country : string;
  ct_totalQuantity_tons : float;
  ct_totalValue_eur : float
}.

Record TopCountry := mkTopCountry {
  country : string;
  tc_totalQuantity_tons : float;
  tc_totalValue_eur : float;
  avgUnitValue : float
}.

(** [arr.slice(0, end)]: a negative [end] counts from the end of the array. *)
Definition sliceTo {A} (l : list A) (stop : Z) : list A :=
  take (Z.to_nat (if stop <? 0 then len l + stop else stop)) l.

(** An entry of [importsData] is read through the five fields that an element
    of [byCountry] has. *)
Section ImportAggregation.

(** [date.getMonth()], the calendar month of a date in the host's time zone. *)
Variable getMonth : JsDate -> Z.

(** [entry.yearMonth || `${date.getFullYear()}-${String(date.getMonth() + 1).padStart(2, '0')}`] *)
Definition periodKey (entry : ImportByCountry) : string :=
  if String.eqb (bc_yearMonth entry) "" then
    Number_toString (getFullYear (bc_date entry)) ++ "-"
    ++ padStart2 (Number_toString (getMonth (bc_date entry) + 1))
  else bc_yearMonth entry.

(** The body of [importsData.forEach(entry => ...)]. *)
Definition aggregateStep
    (maps : list (string * PeriodTotal) * list (string * ImportByCountry))
    (entry : ImportByCountry)
  : list (string * PeriodTotal) * list (string * ImportByCountry) :=
  let totalByPeriod := fst maps in
  let byCountry := snd maps in
  let key := periodKey entry in
  let totalByPeriod :=
    if StringMap_has totalByPeriod key then totalByPeriod
    else (totalByPeriod
          ++ [(key, {| pt_date := bc_date entry;
                       pt_yearMonth := key;
                       pt_totalQuantity_tons := 0%float;
                       pt_totalValue_eur := 0%float;
                       pt_countries := [] |})])%list in
  let totalByPeriod :=
    StringMap_update totalByPeriod key
      (fun total =>
         {| pt_date := pt_date total;
            pt_yearMonth := pt_yearMonth total;
            pt_totalQuantity_tons :=
              (pt_totalQuantity_tons total + quantity_tons entry)%float;
            pt_totalValue_eur := (pt_totalValue_eur total + value_eur entry)%float;
            pt_countries := Set_add (pt_countries total) (partnerCountry entry) |}) in
  let countryKey := key ++ "_" ++ partnerCountry entry in
  let byCountry :=
    if StringMap_has byCountry countryKey then byCountry
    else (byCountry
          ++ [(countryKey, {| bc_date := bc_date entry;
                              bc_yearMonth := key;
                              partnerCountry := partnerCountry entry;
                              quantity_tons := 0%float;
                              value_eur := 0%float |})])%list in
  let byCountry :=
    StringMap_update byCountry countryKey
      (fun country =>
         {| bc_date := bc_date country;
            bc_yearMonth := bc_yearMonth country;
            partnerCountry := partnerCountry country;
            quantity_tons := (quantity_tons country + quantity_tons entry)%float;
            value_eur := (value_eur country + value_eur entry)%float |}) in
  (totalByPeriod, byCountry).

Definition aggregateImports (importsData : list ImportByCountry) : ImportsAggregated :=
  let maps := fold_left aggregateStep importsData ([], []) in
  {| total :=
       map (fun kv =>
              let t := snd kv in
              {| it_date := pt_date t;
                 it_yearMonth := pt_yearMonth t;
                 totalQuantity_tons := pt_totalQuantity_tons t;
                 totalValue_eur := pt_totalValue_eur t;
                 countries := pt_countries t;
                 unit_value :=
                   if (0 <? pt_totalQuantity_tons t)%float
                   then (pt_totalValue_eur t / pt_totalQuantity_tons t)%float
                   else 0%float |})
           (fst maps);
     byCountry := map snd (snd maps) |}.

End ImportAggregation.

Definition topCountriesStep (countryTotals : list (string * CountryTotal))
    (entry : ImportByCountry) : list (string * CountryTotal) :=
  let countryTotals :=
    if StringMap_has countryTotals (partnerCountry entry) then countryTotals
    else (countryTotals
          ++ [(partnerCountry entry,
               {| ct_country := partnerCountry entry;
                  ct_totalQuantity_tons := 0%float;
                  ct_totalValue_eur := 0%float |})])%list in
  StringMap_update countryTotals (partnerCountry entry)
    (fun country =>
       {| ct_country := ct_country country;
          ct_totalQuantity_tons := (ct_totalQuantity_tons country + quantity_tons entry)%float;
          ct_totalValue_eur := (ct_totalValue_eur country + value_eur entry)%float |}).

Definition getTopCountries (importsData : list ImportByCountry) (limit : Z)
  : list TopCountry :=
  let countryTotals := fold_left topCountriesStep importsData [] in
  map (fun c =>
         {| country := ct_country c;
            tc_totalQuantity_tons := ct_totalQuantity_tons c;
            tc_totalValue_eur := ct_totalValue_eur c;
            avgUnitValue :=
              if (0 <? ct_totalQuantity_tons c)%float
              then (ct_totalValue_eur c / ct_totalQuantity_tons c)%float
              else 0%float |})
      (sliceTo
         (sortBy (fun a b =>
                    negb (0 <? ct_totalQuantity_tons b - ct_totalQuantity_tons a)%float)
                 (map snd countryTotals))
         limit).

(** The keys of the entries of [l], each once, in the order of their first
    appearance; and the entries of [l] with a given key, in their order. *)
Definition distinctBy {E} (key : E -> string) (l : list E) : list string :=
  fold_left (fun s e => Set_add s (key e)) l [].

Definition groupOf {E} (key : E -> string) (k : string) (l : list E) : list E :=
  List.filter (fun e => String.eqb (key e) k) l.

(** The composite key of [byCountry]. *)
Definition countryKey (getMonth : JsDate -> Z) (entry : ImportByCountry) : string :=
  periodKey getMonth entry ++ "_" ++ partnerCountry entry.

(** The composite key under which a record of [byCountry] is held. *)
Definition recordKey (b : ImportByCountry) : string :=
  bc_yearMonth b ++ "_" ++ partnerCountry b.

(** ** [calculateCorrelation] and [rollingCorrelation] *)

(** [arr.slice(start, end)]: a negative index counts from the end of the
    array, and both indices are clamped to it. *)
Definition Array_slice {A} (l : list A) (start stop : Z) : list A :=
  let n := len l in
  let from := if start <? 0 then Z.max (n + start) 0 else Z.min start n in
  let to := if stop <? 0 then Z.max (n + stop) 0 else Z.min stop n in
  take (Z.to_nat (to - from)) (drop (Z.to_nat from) l).

(** [arr.filter(v => v !== null && !isNaN(v))] *)
Definition validValues (l : list (option float)) : list float :=
  omap (fun v => match v with
                 | Some a => if negb (isNaN a) then Some a else None
                 | None => None
                 end) l.

Definition calculateCorrelation (x y : list float) : float :=
  let n := len x in
  let meanX := (sum x / toNumber n)%float in
  let meanY := (sum y / toNumber n)%float in
  let sums :=
    fold_left
      (fun acc i =>
         let dx := (elem x i - meanX)%float in
         let dy := (elem y i - meanY)%float in
         (fst (fst acc) + dx * dy, snd (fst acc) + dx * dx, snd acc + dy * dy)%float)
      (seq 0 (length x)) (0%float, 0%float, 0%float) in
  let numerator := fst (fst sums) in
  let sumSqX := snd (fst sums) in
  let sumSqY := snd sums in
  let denominator := sqrt (sumSqX * sumSqY) in
  if (0 <? denominator)%float then (numerator / denominator)%float else 0%float.

Record RollingCorrelation := mkRollingCorrelation {
  rc_index : Z;
  correlation : float
}.

(** The values [window - 1, ..., x.length - 1] of the loop variable. *)
Definition rollingIndices (n window : Z) : list Z :=
  map (fun j => window - 1 + Z.of_nat j) (seq 0 (Z.to_nat (n - (window - 1)))).

Definition rollingCorrelation (x y : list (option float)) (window : Z)
  : list RollingCorrelation :=
  omap
    (fun i =>
       let xWindow := validValues (Array_slice x (i - window + 1) (i + 1)) in
       let yWindow := validValues (Array_slice y (i - window + 1) (i + 1)) in
       if (len xWindow =? window) && (len yWindow =? window)
       then Some {| rc_index := i; correlation := calculateCorrelation xWindow yWindow |}
       else None)
    (rollingIndices (len x) window).

(** Every value of the window that ends at [i] is a number. *)
Definition windowValid (l : list (option float)) (i window : Z) : Prop :=
  forall j, i - window < j <= i -> exists v, at_ l j = Some (Some v) /\ isNaN v = false.

(** * Properties *)

Local Open Scope list_scope.

(** ** The lag-length gate *)

Section LagGate.

Lemma lagLoop_closed_form (n : Z) :
  lagLoop 13 n 1 0 = Z.max 0 (Z.min 12 (n - 12)).
Proof.
  cbn [lagLoop]. cbv zeta.
  repeat match goal with
  | |- context [?a <=? ?b] => destruct (Z.leb_spec a b); try lia
  | |- context [?a >=? ?b] => rewrite (Z.geb_leb a b)
  end.
Qed.

Lemma largestAffordableLag_unique (n k : Z) :
  largestAffordableLag n k <-> k = n - 12.
Proof.
  unfold largestAffordableLag, lagAffordable. split.
  - intros [Hk Hmax]. specialize (Hmax (n - 12)). lia.
  - intros ->. split; [lia | intros; lia].
Qed.

(** The maximum lag of the monthly branch, in closed form. *)
Lemma monthly_maxLag (n : Z) (frequency : string) :
  20 <= n -> String.eqb frequency "annual" = false ->
  lv_maxLag (determineFeasibleLagLength n frequency defaultMinParams)
  = Z.min 12 (smallSampleCap n (n - 12)).
Proof.
  intros Hn Hfreq.
  unfold determineFeasibleLagLength, defaultMinParams, smallSampleCap.
  rewrite Hfreq, lagLoop_closed_form. cbv zeta.
  repeat match goal with
  | |- context [?a <? ?b] => destruct (Z.ltb_spec a b); try lia
  end; cbn [lv_maxLag]; lia.
Qed.

Lemma annual_maxLag (n : Z) :
  lv_maxLag (determineFeasibleLagLength n "annual" defaultMinParams)
  = if 20 <=? n then 1 else 0.
Proof.
  unfold determineFeasibleLagLength, defaultMinParams. cbn [String.eqb Ascii.eqb Bool.eqb].
  cbv zeta. rewrite Z.geb_leb.
  destruct (Z.ltb_spec n 20), (Z.leb_spec 20 n), (Z.leb_spec (10 + 3 + 1) n);
    cbn [lv_maxLag]; lia.
Qed.

(** C2: at monthly frequency the gate is feasible exactly from twenty
    observations on; in particular it refuses 19 observations and accepts 20. *)
Theorem C2_minimum_sample_boundary (n : Z) :
  lv_feasible (determineFeasibleLagLength n "monthly" defaultMinParams) = (20 <=? n)
  /\ lv_feasible (determineFeasibleLagLength 19 "monthly" defaultMinParams) = false
  /\ lv_feasible (determineFeasibleLagLength 20 "monthly" defaultMinParams) = true.
Proof.
  split; [| split; reflexivity].
  destruct (Z.leb_spec 20 n) as [Hn | Hn].
  - pose proof (monthly_maxLag n "monthly" Hn eq_refl) as Hlag.
    revert Hlag.
    unfold determineFeasibleLagLength, defaultMinParams, smallSampleCap.
    cbn [String.eqb Ascii.eqb Bool.eqb]. cbv zeta.
    repeat match goal with
    | |- context [?a <? ?b] => destruct (Z.ltb_spec a b); try lia
    end; cbn [lv_maxLag lv_feasible]; intros ->; rewrite Z.gtb_ltb; apply Z.ltb_lt; lia.
  - unfold determineFeasibleLagLength.
    destruct (Z.ltb_spec n 20); [reflexivity | lia].
Qed.

(** C3, as stated, fails: with 200 monthly observations the largest affordable
    lag is 188 and neither small-sample cap applies, yet the gate answers 12. *)
Lemma C3_no_other_cap_fails :
  largestAffordableLag 200 188
  /\ smallSampleCap 200 188 = 188
  /\ lv_maxLag (determineFeasibleLagLength 200 "monthly" defaultMinParams) = 12.
Proof.
  split; [| split; reflexivity].
  apply largestAffordableLag_unique. reflexivity.
Qed.

(** C3, amended: from twenty monthly observations on, the maximum lag is the
    largest affordable lag under the two small-sample caps and under the bound
    twelve of the search; at annual frequency it is at most 1; and when not
    even one lag is affordable it is zero, at any frequency. *)
Theorem C3_lag_length_gate (n : Z) :
  (forall k, 20 <= n -> largestAffordableLag n k ->
     lv_maxLag (determineFeasibleLagLength n "monthly" defaultMinParams)
     = Z.min 12 (smallSampleCap n k))
  /\ lv_maxLag (determineFeasibleLagLength n "annual" defaultMinParams) <= 1
  /\ (forall frequency, ~ lagAffordable n 1 ->
        lv_maxLag (determineFeasibleLagLength n frequency defaultMinParams) = 0).
Proof.
  split; [| split].
  - intros k Hn Hk. apply largestAffordableLag_unique in Hk as ->.
    now apply monthly_maxLag.
  - rewrite annual_maxLag. destruct (20 <=? n); lia.
  - intros frequency Hk. unfold lagAffordable in Hk.
    unfold determineFeasibleLagLength.
    destruct (Z.ltb_spec n 20); [reflexivity | lia].
Qed.

(** The gate at sixty monthly observations, and at five. *)
Lemma C3_lag_length_gate_witness :
  20 <= 60 /\ largestAffordableLag 60 48
  /\ lv_maxLag (determineFeasibleLagLength 60 "monthly" defaultMinParams)
     = Z.min 12 (smallSampleCap 60 48)
  /\ ~ lagAffordable 5 1
  /\ lv_maxLag (determineFeasibleLagLength 5 "monthly" defaultMinParams) = 0.
Proof.
  assert (H60 : largestAffordableLag 60 48)
    by (split; [unfold lagAffordable; lia | unfold lagAffordable; intros; lia]).
  assert (H5 : ~ lagAffordable 5 1) by (unfold lagAffordable; lia).
  split; [lia |]. split; [exact H60 |]. split.
  - exact (proj1 (C3_lag_length_gate 60) 48 ltac:(lia) H60).
  - split; [exact H5 |].
    exact (proj2 (proj2 (C3_lag_length_gate 5)) "monthly" H5).
Defined.

End LagGate.

(** ** Sorting and sets of strings *)

Section SortBy.

Context {A : Type} (le : A -> A -> bool).

Lemma insertBy_Permutation (x : A) (l : list A) : insertBy le x l ≡ₚ x :: l.
Proof.
  induction l as [| y l IH]; cbn [insertBy]; [reflexivity |].
  destruct (le x y); [reflexivity |].
  rewrite IH. apply perm_swap.
Qed.

Lemma sortBy_Permutation (l : list A) : sortBy le l ≡ₚ l.
Proof.
  induction l as [| x l IH]; [reflexivity |].
  cbn [sortBy foldr]. rewrite insertBy_Permutation.
  constructor. exact IH.
Qed.

Lemma elem_of_sortBy (x : A) (l : list A) : x ∈ sortBy le l <-> x ∈ l.
Proof. now rewrite sortBy_Permutation. Qed.

Hypothesis le_total : forall a b, le a b = false -> le b a = true.
Hypothesis le_trans : forall a b c, le a b = true -> le b c = true -> le a c = true.

Lemma insertBy_StronglySorted (x : A) (l : list A) :
  StronglySorted (fun a b => le a b = true) l ->
  StronglySorted (fun a b => le a b = true) (insertBy le x l).
Proof.
  induction 1 as [| y l Hsorted IH Hall]; cbn [insertBy].
  - repeat constructor.
  - destruct (le x y) eqn:Hxy.
    + constructor; [now constructor |].
      constructor; [exact Hxy |].
      eapply Forall_impl; [exact Hall |]. intros z Hz. now apply (le_trans x y z).
    + constructor; [exact IH |].
      rewrite insertBy_Permutation. constructor; [now apply le_total | exact Hall].
Qed.

Lemma sortBy_StronglySorted (l : list A) :
  StronglySorted (fun a b => le a b = true) (sortBy le l).
Proof.
  induction l as [| x l IH]; [constructor |].
  cbn [sortBy foldr]. now apply insertBy_StronglySorted.
Qed.

End SortBy.

Lemma StronglySorted_weaken {A} (R R' : A -> A -> Prop) (l : list A) :
  (forall a b, R a b -> R' a b) -> StronglySorted R l -> StronglySorted R' l.
Proof.
  intros HR. induction 1 as [| x l Hsorted IH Hall]; constructor; [exact IH |].
  eapply Forall_impl; [exact Hall | intros b; apply HR].
Qed.

Lemma Set_has_true (s : list string) (k : string) : Set_has s k = true <-> k ∈ s.
Proof.
  unfold Set_has. rewrite existsb_exists. split.
  - intros (x & Hx & Heq). apply String.eqb_eq in Heq as ->. now apply list_elem_of_In.
  - intros Hk. exists k. split; [now apply list_elem_of_In | apply String.eqb_refl].
Qed.

Lemma elem_of_Set_add (s : list string) (k x : string) :
  x ∈ Set_add s k <-> x ∈ s \/ x = k.
Proof.
  unfold Set_add. destruct (Set_has s k) eqn:Hhas.
  - apply Set_has_true in Hhas. split; [now left | intros [? | ->]; assumption].
  - rewrite elem_of_app, list_elem_of_singleton. reflexivity.
Qed.

Lemma NoDup_Set_add (s : list string) (k : string) : NoDup s -> NoDup (Set_add s k).
Proof.
  intros Hs. unfold Set_add. destruct (Set_has s k) eqn:Hhas; [exact Hs |].
  apply NoDup_app. split; [exact Hs |]. split; [| apply NoDup_singleton].
  intros x Hx Hk. apply list_elem_of_singleton in Hk as ->.
  apply Set_has_true in Hx. congruence.
Qed.

Lemma fold_Set_add {B} (f : B -> string) (l : list B) (s : list string) :
  (forall x, x ∈ fold_left (fun s i => Set_add s (f i)) l s <-> x ∈ s \/ x ∈ f <$> l)
  /\ (NoDup s -> NoDup (fold_left (fun s i => Set_add s (f i)) l s)).
Proof.
  revert s. induction l as [| b l IH]; intros s; cbn [fold_left fmap list_fmap].
  - split; [| tauto]. intros x. rewrite elem_of_nil. tauto.
  - destruct (IH (Set_add s (f b))) as [Hin Hnodup]. split.
    + intros x. rewrite Hin, elem_of_Set_add, elem_of_cons. tauto.
    + intros Hs. apply Hnodup. now apply NoDup_Set_add.
Qed.

(** ** The merge *)

Section Merge.

Variable importsAggregated : ImportsAggregated.
Variable etsData : list EtsEntry.
Variable industryData : list IndustryEntry.

Lemma find_period_None {B} (f : B -> string) (l : list B) (p : string) :
  find (fun i => String.eqb (f i) p) l = None <-> p ∉ f <$> l.
Proof.
  induction l as [| b l IH]; cbn [find fmap list_fmap].
  - split; [intros _; apply not_elem_of_nil | reflexivity].
  - rewrite not_elem_of_cons. destruct (String.eqb_spec (f b) p) as [Heq | Hne].
    + split; [discriminate | intros [Hp _]; congruence].
    + rewrite IH. split; [intros; split; congruence | tauto].
Qed.

Lemma find_period_Some {B} (f : B -> string) (l : list B) (p : string) (b : B) :
  find (fun i => String.eqb (f i) p) l = Some b -> b ∈ l /\ f b = p.
Proof.
  intros Hfind. apply find_some in Hfind as [Hin Heq].
  split; [now apply list_elem_of_In | now apply String.eqb_eq].
Qed.

Lemma elem_of_allPeriods (p : string) :
  p ∈ allPeriods importsAggregated etsData industryData
  <-> p ∈ it_yearMonth <$> total importsAggregated
      \/ p ∈ ets_yearMonth <$> etsData
      \/ p ∈ ind_yearMonth <$> industryData.
Proof.
  unfold allPeriods.
  rewrite (proj1 (fold_Set_add ind_yearMonth _ _)),
          (proj1 (fold_Set_add ets_yearMonth _ _)),
          (proj1 (fold_Set_add it_yearMonth _ _)), elem_of_nil.
  tauto.
Qed.

Lemma NoDup_allPeriods : NoDup (allPeriods importsAggregated etsData industryData).
Proof.
  unfold allPeriods.
  apply fold_Set_add, fold_Set_add, fold_Set_add. apply NoDup_nil_2.
Qed.

(** A record that [mergePeriod] builds carries the period it was built for,
    the date of a source record of that period, and the reported values with
    the falsy ones replaced by [null]. *)
Lemma mergePeriod_Some (p : string) (r : MergedRow) :
  mergePeriod importsAggregated etsData industryData p = Some r ->
  m_yearMonth r = p
  /\ (p, m_date r) ∈ periodDates importsAggregated etsData industryData
  /\ forall v, recorded v r = orNull (reported v importsAggregated etsData industryData p).
Proof.
  unfold mergePeriod, periodDates.
  destruct (find _ (total importsAggregated)) as [i |] eqn:Hi;
    [| destruct (find _ etsData) as [e |] eqn:He;
       [| destruct (find _ industryData) as [j |] eqn:Hj]];
    cbn [firstDate]; intros [= <-]; cbn [m_yearMonth m_date];
    (split; [reflexivity |]); (split; [| intros []; cbn [recorded reported];
      rewrite ?Hi, ?He, ?Hj; reflexivity]).
  - apply find_period_Some in Hi as [Hin <-].
    rewrite elem_of_app. left.
    apply (list_elem_of_fmap_2 (fun i => (it_yearMonth i, it_date i))), Hin.
  - apply find_period_Some in He as [Hin <-].
    rewrite !elem_of_app. right; left.
    apply (list_elem_of_fmap_2 (fun e => (ets_yearMonth e, ets_date e))), Hin.
  - apply find_period_Some in Hj as [Hin <-].
    rewrite !elem_of_app. right; right.
    apply (list_elem_of_fmap_2 (fun i => (ind_yearMonth i, ind_date i))), Hin.
Qed.

Lemma mergePeriod_is_Some (p : string) :
  p ∈ allPeriods importsAggregated etsData industryData ->
  is_Some (mergePeriod importsAggregated etsData industryData p).
Proof.
  rewrite elem_of_allPeriods. intros Hp. unfold mergePeriod.
  destruct (find _ (total importsAggregated)) as [i |] eqn:Hi; [eexists; reflexivity |].
  destruct (find _ etsData) as [e |] eqn:He; [eexists; reflexivity |].
  destruct (find _ industryData) as [j |] eqn:Hj; [eexists; reflexivity |].
  apply find_period_None in Hi, He, Hj. tauto.
Qed.

Lemma omap_mergePeriod_keys (ps : list string) :
  (forall p, p ∈ ps -> p ∈ allPeriods importsAggregated etsData industryData) ->
  m_yearMonth <$> omap (mergePeriod importsAggregated etsData industryData) ps = ps.
Proof.
  induction ps as [| p ps IH]; intros Hps; [reflexivity |].
  cbn [omap list_omap].
  destruct (mergePeriod_is_Some p) as [r Hr]; [apply Hps; left |].
  rewrite Hr. cbn [fmap list_fmap].
  rewrite (proj1 (mergePeriod_Some p r Hr)). f_equal.
  apply IH. intros q Hq. apply Hps. now right.
Qed.

Lemma mergeDatasets_keys :
  m_yearMonth <$> mergeDatasets importsAggregated etsData industryData
  ≡ₚ allPeriods importsAggregated etsData industryData.
Proof.
  unfold mergeDatasets, sortWith.
  rewrite sortBy_Permutation, omap_mergePeriod_keys.
  - apply sortBy_Permutation.
  - intros p. unfold sortStrings. now rewrite elem_of_sortBy.
Qed.

Lemma elem_of_mergeDatasets (r : MergedRow) :
  r ∈ mergeDatasets importsAggregated etsData industryData ->
  mergePeriod importsAggregated etsData industryData (m_yearMonth r) = Some r.
Proof.
  unfold mergeDatasets, sortWith. rewrite elem_of_sortBy, list_elem_of_omap.
  intros (p & _ & Hr). now rewrite (proj1 (mergePeriod_Some p r Hr)).
Qed.


End Merge.

(** ** Zero and missing in the merged panel *)

Lemma reported_absent (v : PanelVariable) (importsAggregated : ImportsAggregated)
    (etsData : list EtsEntry) (industryData : list IndustryEntry) (p : string) :
  p ∉ periodsOf v importsAggregated etsData industryData ->
  reported v importsAggregated etsData industryData p = None.
Proof.
  destruct v; cbn [periodsOf reported]; intros Hp;
    apply find_period_None in Hp; now rewrite Hp.
Qed.

Lemma orNull_Some (v : option float) (x : float) :
  orNull v = Some x -> v = Some x /\ truthy x = true.
Proof.
  unfold orNull. destruct v as [y |]; cbn [truthyOpt]; [| discriminate].
  destruct (truthy y) eqn:Hy; [| discriminate]. intros [= <-]. now split.
Qed.

(** C4, as stated, fails: an import series that reports a quantity of 0 tons
    for January 2024 (with a value of 1000 euros) gets [null] in the panel for
    the quantity, as if nothing had been reported. *)
Lemma C4_reported_zero_becomes_null :
  let i := mkImportTotal (mkDate 1704067200000 2024) "2024-01" 0%float 1000%float
             ["CN"] 0%float in
  let imports := mkImportsAggregated [i] [] in
  reported ImportQuantity imports [] [] "2024-01" = Some 0%float
  /\ mergeDatasets imports [] []
     = [ {| m_date := mkDate 1704067200000 2024;
            m_yearMonth := "2024-01";
            m_importQuantity_tons := None;
            m_importValue_eur := Some 1000%float;
            m_importUnitValue := None;
            m_etsPrice := None;
            m_industryIndex := None |} ].
Proof. split; reflexivity. Qed.

(** C4, amended: in every record of the merged panel, a variable whose series
    has no record for the period is [null]; a reported value is kept as it is
    unless it is falsy (0, -0 or NaN), and then it is [null] as well - so a
    reported 0 is recorded as missing; and no recorded value is ever 0. *)
Theorem C4_zero_and_missing (importsAggregated : ImportsAggregated)
    (etsData : list EtsEntry) (industryData : list IndustryEntry)
    (v : PanelVariable) (r : MergedRow) :
  r ∈ mergeDatasets importsAggregated etsData industryData ->
  (m_yearMonth r ∉ periodsOf v importsAggregated etsData industryData ->
     recorded v r = None)
  /\ (forall x,
        reported v importsAggregated etsData industryData (m_yearMonth r) = Some x ->
        recorded v r = if truthy x then Some x else None)
  /\ (reported v importsAggregated etsData industryData (m_yearMonth r) = Some 0%float ->
        recorded v r = None)
  /\ (forall x, recorded v r = Some x -> PrimFloat.eqb x 0 = false).
Proof.
  intros Hr. apply elem_of_mergeDatasets, mergePeriod_Some in Hr
    as (_ & _ & Hrec). specialize (Hrec v).
  repeat split.
  - intros Habsent. now rewrite Hrec, reported_absent.
  - intros x Hx. now rewrite Hrec, Hx.
  - intros Hx. now rewrite Hrec, Hx.
  - intros x Hx. rewrite Hrec in Hx. apply orNull_Some in Hx as [_ Hx].
    unfold truthy in Hx. apply andb_prop in Hx as [Hx _].
    now apply negb_true_iff in Hx.
Qed.

(** A January record with imports and a carbon price reported as 0. *)
Lemma C4_zero_and_missing_witness :
  let i := mkImportTotal (mkDate 1704067200000 2024) "2024-01" 250%float 1000%float
             ["CN"] 4%float in
  let e := mkEtsEntry (mkDate 1704067200000 2024) 0%float 2024 1 "2024-01" in
  let r := {| m_date := mkDate 1704067200000 2024;
              m_yearMonth := "2024-01";
              m_importQuantity_tons := Some 250%float;
              m_importValue_eur := Some 1000%float;
              m_importUnitValue := Some 4%float;
              m_etsPrice := None;
              m_industryIndex := None |} in
  r ∈ mergeDatasets (mkImportsAggregated [i] []) [e] []
  /\ recorded ImportQuantity r = Some 250%float
  /\ recorded EtsPrice r = None
  /\ recorded IndustryIndex r = None.
Proof.
  cbv zeta.
  match goal with |- ?r ∈ ?l /\ _ => assert (Hr : r ∈ l) by (vm_compute; left) end.
  split; [exact Hr |].
  split; [| split].
  - exact (proj1 (proj2 (C4_zero_and_missing _ _ _ ImportQuantity _ Hr)) _ eq_refl).
  - exact (proj1 (proj2 (proj2 (C4_zero_and_missing _ _ _ EtsPrice _ Hr))) eq_refl).
  - refine (proj1 (C4_zero_and_missing _ _ _ IndustryIndex _ Hr) _).
    cbn. apply not_elem_of_nil.
Defined.

(** ** Alignment: the period keys of the merged panel *)







Section Alignment.

Variable importsAggregated : ImportsAggregated.
Variable etsData : list EtsEntry.
Variable industryData : list IndustryEntry.


Lemma mergeDatasets_NoDup_keys :
  NoDup (m_yearMonth <$> mergeDatasets importsAggregated etsData industryData).
Proof.
  rewrite mergeDatasets_keys. apply NoDup_allPeriods.
Qed.


End Alignment.





(** ** Growth rates *)

Lemma at_of_nat {A} (l : list A) (t : nat) : at_ l (Z.of_nat t) = l !! t.
Proof.
  unfold at_. destruct (Z.ltb_spec (Z.of_nat t) 0); [lia |]. now rewrite Nat2Z.id.
Qed.

Lemma at_negative {A} (l : list A) (i : Z) : i < 0 -> at_ l i = None.
Proof. intros Hi. unfold at_. destruct (Z.ltb_spec i 0); [reflexivity | lia]. Qed.

Lemma truthy_nonzero (x : float) : truthy x = true -> PrimFloat.eqb x 0 = false.
Proof.
  unfold truthy. intros Hx. apply andb_prop in Hx as [Hx _].
  now apply negb_true_iff in Hx.
Qed.

Lemma growthFormula_None (previous current : option float) :
  growthFormula previous current = None
  <-> current = None \/ previous = None
      \/ exists p, previous = Some p /\ PrimFloat.eqb p 0 = true.
Proof.
  unfold growthFormula. destruct previous as [p |], current as [c |];
    try (split; [intros _; tauto | reflexivity]).
  destruct (PrimFloat.eqb p 0) eqn:Hp.
  - split; [intros _; right; right; now exists p | reflexivity].
  - split; [discriminate |].
    intros [? | [? | (q & [= <-] & Hq)]]; congruence.
Qed.

(** On a panel whose values are all truthy, the growth that the code computes
    against the record [k] places back is the growth of the rule; [guard] is
    the test that the code makes before it reads that record. *)
Lemma growthRate_growthFormula (field : MergedRow -> option float)
    (panel : list MergedRow) (t : nat) (k : Z) (guard : bool) (entry : MergedRow) :
  (forall e x, e ∈ panel -> field e = Some x -> truthy x = true) ->
  1 <= k -> (guard = true <-> k <= Z.of_nat t) ->
  panel !! t = Some entry ->
  growthRate field (if guard then at_ panel (Z.of_nat t - k) else None) entry
  = growthFormula (valueAt field panel (Z.of_nat t - k))
                  (valueAt field panel (Z.of_nat t - 0)).
Proof.
  intros Htruthy Hk Hguard Hentry. unfold valueAt.
  rewrite Z.sub_0_r, at_of_nat, Hentry. cbn [mbind option_bind].
  destruct guard.
  - destruct (at_ panel (Z.of_nat t - k)) as [p |] eqn:Hp; [| reflexivity].
    cbn [growthRate mbind option_bind growthFormula].
    assert (Hpin : p ∈ panel).
    { unfold at_ in Hp. destruct (_ <? 0); [discriminate |].
      eapply list_elem_of_lookup_2, Hp. }
    assert (Hein : entry ∈ panel) by (eapply list_elem_of_lookup_2, Hentry).
    destruct (field p) as [pv |] eqn:Hpv; [| reflexivity].
    destruct (field entry) as [ev |] eqn:Hev; [| reflexivity].
    cbn [growthFormula].
    rewrite (Htruthy p pv Hpin Hpv), (Htruthy entry ev Hein Hev).
    now rewrite (truthy_nonzero pv (Htruthy p pv Hpin Hpv)).
  - rewrite at_negative; [reflexivity |].
    destruct (Z.le_gt_cases k (Z.of_nat t)) as [Hle | Hgt]; [| lia].
    apply Hguard in Hle. discriminate.
Qed.

Lemma mergeDatasets_truthy (importsAggregated : ImportsAggregated)
    (etsData : list EtsEntry) (industryData : list IndustryEntry)
    (v : PanelVariable) (e : MergedRow) (x : float) :
  e ∈ mergeDatasets importsAggregated etsData industryData ->
  recorded v e = Some x -> truthy x = true.
Proof.
  intros He Hx. apply elem_of_mergeDatasets, mergePeriod_Some in He as (_ & _ & Hrec).
  rewrite Hrec in Hx. now apply orNull_Some in Hx.
Qed.

Lemma levelOf_truthy (importsAggregated : ImportsAggregated)
    (etsData : list EtsEntry) (industryData : list IndustryEntry)
    (g : GrowthVariable) (e : MergedRow) (x : float) :
  e ∈ mergeDatasets importsAggregated etsData industryData ->
  levelOf g e = Some x -> truthy x = true.
Proof.
  destruct g; cbn [levelOf]; intros He Hx.
  - exact (mergeDatasets_truthy _ _ _ ImportQuantity e x He Hx).
  - exact (mergeDatasets_truthy _ _ _ ImportValue e x He Hx).
  - exact (mergeDatasets_truthy _ _ _ EtsPrice e x He Hx).
Qed.

(** C5: in the panel derived from a merge, the month-over-month growth of a
    variable at the record of index [t] is [(v(t) - v(t-1)) / v(t-1) * 100],
    and it is [null] exactly when [v(t)] or [v(t-1)] is missing or [v(t-1)] is
    0; the year-over-year growth of imports follows the same rule with the
    record twelve places back; and a variable that is [null] in two
    consecutive records has a [null] growth in both. *)
Theorem C5_growth_rates (Math : MathObject) (withDummy : bool)
    (importsAggregated : ImportsAggregated) (etsData : list EtsEntry)
    (industryData : list IndustryEntry) (g : GrowthVariable) (t : nat) (r : Row) :
  let panel := mergeDatasets importsAggregated etsData industryData in
  let derived := calculateDerivedIndicators Math withDummy panel in
  let v (k : Z) := valueAt (levelOf g) panel (Z.of_nat t - k) in
  derived !! t = Some r ->
  growthOf g r = growthFormula (v 1) (v 0)
  /\ (growthOf g r = None
      <-> v 0 = None \/ v 1 = None \/ exists p, v 1 = Some p /\ PrimFloat.eqb p 0 = true)
  /\ importGrowthYoY r
     = growthFormula (valueAt m_importQuantity_tons panel (Z.of_nat t - 12))
                     (valueAt m_importQuantity_tons panel (Z.of_nat t - 0))
  /\ (forall r', derived !! S t = Some r' ->
        v 0 = None -> valueAt (levelOf g) panel (Z.of_nat (S t)) = None ->
        growthOf g r = None /\ growthOf g r' = None).
Proof.
  cbv zeta. unfold calculateDerivedIndicators. rewrite list_lookup_imap.
  destruct (mergeDatasets importsAggregated etsData industryData !! t)
    as [entry |] eqn:Hentry; [| discriminate].
  cbn [fmap option_fmap option_map]. intros [= <-].
  assert (Hmom : growthOf g (deriveRow Math withDummy
                   (mergeDatasets importsAggregated etsData industryData) t entry)
                 = growthFormula
                     (valueAt (levelOf g)
                        (mergeDatasets importsAggregated etsData industryData)
                        (Z.of_nat t - 1))
                     (valueAt (levelOf g)
                        (mergeDatasets importsAggregated etsData industryData)
                        (Z.of_nat t - 0))).
  { destruct g; cbn [growthOf deriveRow importGrowth valueGrowth etsGrowth levelOf];
      (apply growthRate_growthFormula;
       [ intros e x; first [ apply (levelOf_truthy _ _ _ GrowthOfImports)
                           | apply (levelOf_truthy _ _ _ GrowthOfValue)
                           | apply (levelOf_truthy _ _ _ GrowthOfEts) ]
       | lia
       | rewrite Z.gtb_ltb, Z.ltb_lt; lia
       | exact Hentry ]). }
  split; [exact Hmom |]. split; [rewrite Hmom; apply growthFormula_None |]. split.
  - cbn [deriveRow importGrowthYoY]. apply growthRate_growthFormula.
    + intros e x. apply (levelOf_truthy _ _ _ GrowthOfImports).
    + lia.
    + rewrite Z.geb_leb, Z.leb_le. lia.
    + exact Hentry.
  - intros r'. rewrite list_lookup_imap.
    destruct (mergeDatasets importsAggregated etsData industryData !! S t)
      as [entry' |] eqn:Hentry'; [| discriminate].
    cbn [fmap option_fmap option_map]. intros [= <-] Hnull Hnull'.
    split; [rewrite Hmom; apply growthFormula_None; now left |].
    assert (Hprev : growthOf g (deriveRow Math withDummy
                      (mergeDatasets importsAggregated etsData industryData) (S t) entry')
                    = growthFormula
                        (valueAt (levelOf g)
                           (mergeDatasets importsAggregated etsData industryData)
                           (Z.of_nat (S t) - 1))
                        (valueAt (levelOf g)
                           (mergeDatasets importsAggregated etsData industryData)
                           (Z.of_nat (S t) - 0))).
    { destruct g; cbn [growthOf deriveRow importGrowth valueGrowth etsGrowth levelOf];
        (apply growthRate_growthFormula;
         [ intros e x; first [ apply (levelOf_truthy _ _ _ GrowthOfImports)
                             | apply (levelOf_truthy _ _ _ GrowthOfValue)
                             | apply (levelOf_truthy _ _ _ GrowthOfEts) ]
         | lia
         | rewrite Z.gtb_ltb, Z.ltb_lt; lia
         | exact Hentry' ]). }
    rewrite Hprev. apply growthFormula_None. left.
    now rewrite Z.sub_0_r.
Qed.

(** Imports that go from 100 to 150, and a carbon price missing in February. *)
Lemma C5_growth_rates_witness :
  let i1 := mkImportTotal (mkDate 1704067200000 2024) "2024-01" 100%float 400%float
              ["CN"] 4%float in
  let i2 := mkImportTotal (mkDate 1706745600000 2024) "2024-02" 150%float 600%float
              ["TR"] 4%float in
  let e1 := mkEtsEntry (mkDate 1704067200000 2024) 70%float 2024 1 "2024-01" in
  let panel := mergeDatasets (mkImportsAggregated [i1; i2] []) [e1] [] in
  (forall Math,
     importGrowth <$> calculateDerivedIndicators Math true panel !! 1%nat
     = Some (Some 50%float))
  /\ (forall Math,
        etsGrowth <$> calculateDerivedIndicators Math true panel !! 1%nat = Some None).
Proof.
  cbv zeta. split; intros Math.
  - destruct (calculateDerivedIndicators Math true _ !! 1%nat) as [r |] eqn:Hr;
      [| vm_compute in Hr; discriminate].
    destruct (C5_growth_rates Math true _ _ _ GrowthOfImports 1 r Hr) as [Hgrowth _].
    cbn [fmap option_fmap option_map growthOf] in *. rewrite Hgrowth. reflexivity.
  - destruct (calculateDerivedIndicators Math true _ !! 1%nat) as [r |] eqn:Hr;
      [| vm_compute in Hr; discriminate].
    destruct (C5_growth_rates Math true _ _ _ GrowthOfEts 1 r Hr) as [Hgrowth _].
    cbn [fmap option_fmap option_map growthOf] in *. rewrite Hgrowth. reflexivity.
Defined.

(** ** Annual aggregation *)

Section AnnualMap.

Context {V : Type}.

Lemma Map_has_true (m : list (Z * V)) (k : Z) : Map_has m k = true <-> k ∈ m.*1.
Proof.
  induction m as [| [k' v] m IH]; cbn [Map_has fmap list_fmap fst].
  - split; [discriminate | intros H; now apply elem_of_nil in H].
  - rewrite orb_true_iff, IH, elem_of_cons, Z.eqb_eq. split; intros [-> | H]; auto.
Qed.

Lemma Map_update_keys (m : list (Z * V)) (k : Z) (f : V -> V) :
  (Map_update m k f).*1 = m.*1.
Proof.
  induction m as [| [k' v] m IH]; [reflexivity |].
  cbn [Map_update]. destruct (k' =? k); cbn [fmap list_fmap fst]; [reflexivity |].
  f_equal. exact IH.
Qed.

Lemma elem_of_Map_update (m : list (Z * V)) (k : Z) (f : V -> V) (k' : Z) (v' : V) :
  NoDup m.*1 ->
  (k', v') ∈ Map_update m k f ->
  (k' <> k /\ (k', v') ∈ m) \/ (k' = k /\ exists v, (k, v) ∈ m /\ v' = f v).
Proof.
  induction m as [| [k0 v0] m IH]; cbn [Map_update fmap list_fmap fst].
  - intros _ H. now apply elem_of_nil in H.
  - intros Hnodup. apply NoDup_cons in Hnodup as [Hk0 Hnodup].
    destruct (Z.eqb_spec k0 k) as [-> | Hne].
    + intros Hin. apply elem_of_cons in Hin as [[= -> ->] | Hin].
      * right. split; [reflexivity |]. exists v0. split; [left | reflexivity].
      * left. split; [| now right].
        intros ->. apply Hk0. now apply (list_elem_of_fmap_2 fst) in Hin.
    + intros Hin. apply elem_of_cons in Hin as [[= -> ->] | Hin].
      * left. split; [exact Hne | left].
      * destruct (IH Hnodup Hin) as [[Hk' Hm] | [-> (v & Hm & ->)]].
        -- left. split; [exact Hk' | now right].
        -- right. split; [reflexivity |]. exists v. split; [now right | reflexivity].
Qed.

End AnnualMap.

Lemma rowsOfYear_app (y : Z) (l1 l2 : list Row) :
  rowsOfYear y (l1 ++ l2) = rowsOfYear y l1 ++ rowsOfYear y l2.
Proof. apply List.filter_app. Qed.

Lemma elem_of_rowsOfYear (y : Z) (data : list Row) (d : Row) :
  d ∈ rowsOfYear y data <-> d ∈ data /\ yearOf d = y.
Proof.
  unfold rowsOfYear. rewrite !list_elem_of_In, filter_In, Z.eqb_eq. reflexivity.
Qed.

Lemma rowsOfYear_nil (y : Z) (data : list Row) :
  y ∉ yearOf <$> data -> rowsOfYear y data = [].
Proof.
  intros Hy. destruct (rowsOfYear y data) as [| d l] eqn:Hrows; [reflexivity |].
  exfalso. apply Hy.
  assert (Hd : d ∈ rowsOfYear y data) by (rewrite Hrows; left).
  apply elem_of_rowsOfYear in Hd as [Hd <-]. now apply list_elem_of_fmap_2.
Qed.

Lemma rowsOfYear_cons (y : Z) (data : list Row) :
  y ∈ yearOf <$> data -> exists d l, rowsOfYear y data = d :: l.
Proof.
  intros Hy. apply list_elem_of_fmap in Hy as (d & -> & Hd).
  destruct (rowsOfYear (yearOf d) data) as [| d' l] eqn:Hrows; [| now exists d', l].
  exfalso. apply (not_elem_of_nil d). rewrite <- Hrows.
  now apply elem_of_rowsOfYear.
Qed.

Lemma pushPresent_omap (field : Row -> option float) (l : list Row) (d : Row) :
  pushPresent (omap field l) (field d) = omap field (l ++ [d]).
Proof.
  rewrite omap_app. cbn [omap list_omap]. unfold pushPresent.
  destruct (field d); [reflexivity | now rewrite app_nil_r].
Qed.

(** Visiting one more record of a year that the map knows. *)
Lemma pushEntry_annualOf (l : list Row) (d : Row) :
  yearOf d ∈ yearOf <$> l ->
  pushEntry d (annualOf l (yearOf d)) = annualOf (l ++ [d]) (yearOf d).
Proof.
  intros Hy. unfold pushEntry, annualOf.
  cbn [a_year a_date a_importQuantity_tons a_importValue_eur a_etsPrice
       a_industryIndex a_cbamDummy].
  rewrite !pushPresent_omap, rowsOfYear_app.
  assert (Hd : rowsOfYear (yearOf d) [d] = [d]).
  { unfold rowsOfYear. cbn [List.filter]. now rewrite Z.eqb_refl. }
  rewrite Hd. destruct (rowsOfYear_cons _ _ Hy) as (d' & l' & ->). reflexivity.
Qed.

(** Visiting the first record of a year. *)
Lemma pushEntry_fresh (l : list Row) (d : Row) :
  yearOf d ∉ yearOf <$> l ->
  pushEntry d {| a_year := yearOf d;
                 a_date := Date_ofYear (yearOf d);
                 a_importQuantity_tons := [];
                 a_importValue_eur := [];
                 a_etsPrice := [];
                 a_industryIndex := [];
                 a_cbamDummy := default 0%float (cbamDummy d) |}
  = annualOf (l ++ [d]) (yearOf d).
Proof.
  intros Hy. unfold pushEntry, annualOf.
  cbn [a_year a_date a_importQuantity_tons a_importValue_eur a_etsPrice
       a_industryIndex a_cbamDummy].
  rewrite rowsOfYear_app, (rowsOfYear_nil _ _ Hy).
  assert (Hd : rowsOfYear (yearOf d) [d] = [d]).
  { unfold rowsOfYear. cbn [List.filter]. now rewrite Z.eqb_refl. }
  rewrite Hd. cbn [app omap list_omap head mbind option_bind pushPresent].
  destruct (importQuantity_tons d), (importValue_eur d), (etsPrice d),
    (industryIndex d); reflexivity.
Qed.

Lemma annualOf_other_year (l : list Row) (d : Row) (y : Z) :
  y <> yearOf d -> annualOf (l ++ [d]) y = annualOf l y.
Proof.
  intros Hy. unfold annualOf. rewrite rowsOfYear_app.
  assert (Hd : rowsOfYear y [d] = []).
  { unfold rowsOfYear. cbn [List.filter].
    destruct (Z.eqb_spec (yearOf d) y); [congruence | reflexivity]. }
  now rewrite Hd, app_nil_r.
Qed.

Lemma annualStep_invariant (annualMap : list (Z * Annual)) (l : list Row) (d : Row) :
  annualMapInvariant annualMap l ->
  annualMapInvariant (annualStep annualMap d) (l ++ [d]).
Proof.
  intros (Hnodup & Hkeys & Hvals). unfold annualStep. fold (yearOf d).
  destruct (Map_has annualMap (yearOf d)) eqn:Hhas.
  - apply Map_has_true in Hhas.
    split; [now rewrite Map_update_keys |]. split.
    + intros y. rewrite Map_update_keys, Hkeys, fmap_app, elem_of_app.
      cbn [fmap list_fmap]. rewrite list_elem_of_singleton.
      split; [tauto | intros [? | ->]; [assumption | now apply Hkeys]].
    + intros y a Hin.
      apply elem_of_Map_update in Hin as [[Hy Hin] | [-> (v & Hin & ->)]];
        [| | exact Hnodup].
      * rewrite annualOf_other_year by exact Hy. now apply Hvals.
      * rewrite (Hvals _ _ Hin). apply pushEntry_annualOf. now apply Hkeys.
  - assert (Hnew : yearOf d ∉ annualMap.*1).
    { intros Hin. apply Map_has_true in Hin. congruence. }
    assert (Hnodup' : NoDup (annualMap ++
              [(yearOf d, {| a_year := yearOf d;
                             a_date := Date_ofYear (yearOf d);
                             a_importQuantity_tons := [];
                             a_importValue_eur := [];
                             a_etsPrice := [];
                             a_industryIndex := [];
                             a_cbamDummy := default 0%float (cbamDummy d) |})]).*1).
    { rewrite fmap_app. apply NoDup_app. split; [exact Hnodup |].
      split; [| apply NoDup_singleton].
      intros y Hy Hy'. cbn in Hy'. apply list_elem_of_singleton in Hy' as ->.
      now apply Hnew. }
    split; [now rewrite Map_update_keys |]. split.
    + intros y. rewrite Map_update_keys, !fmap_app, !elem_of_app, Hkeys.
      reflexivity.
    + intros y a Hin.
      apply elem_of_Map_update in Hin as [[Hy Hin] | [-> (v & Hin & ->)]];
        [| | exact Hnodup'].
      * rewrite annualOf_other_year by exact Hy.
        apply elem_of_app in Hin as [Hin | Hin]; [now apply Hvals |].
        apply list_elem_of_singleton in Hin. congruence.
      * apply elem_of_app in Hin as [Hin | Hin].
        -- exfalso. apply Hnew. now apply (list_elem_of_fmap_2 fst) in Hin.
        -- apply list_elem_of_singleton in Hin as [= ->].
           apply pushEntry_fresh. now rewrite <- Hkeys.
Qed.

Lemma annualMap_invariant (data : list Row) :
  annualMapInvariant (fold_left annualStep data []) data.
Proof.
  induction data as [| d l IH] using rev_ind.
  - split; [apply NoDup_nil_2 |]. split; [reflexivity |].
    intros y a H. now apply elem_of_nil in H.
  - rewrite fold_left_app. cbn [fold_left]. now apply annualStep_invariant.
Qed.

Section AnnualAggregation.

Variable Math : MathObject.

(** The records of the annual panel: one per calendar year of the input, built
    from the aggregate of that year's records. *)
Lemma elem_of_aggregateToAnnual (data : list Row) (a : Row) :
  a ∈ aggregateToAnnual Math data
  <-> exists y, y ∈ yearOf <$> data /\ a = annualRow Math (annualOf data y).
Proof.
  unfold aggregateToAnnual.
  destruct data as [| d0 data0] eqn:Hdata.
  { cbn. split; [intros H; now apply elem_of_nil in H |].
    intros (y & Hy & _). now apply elem_of_nil in Hy. }
  rewrite <- Hdata.
  assert (Hlen : (len data =? 0) = false).
  { subst data. unfold len. cbn [length]. apply Z.eqb_neq. lia. }
  rewrite Hlen. clear Hdata Hlen d0 data0.
  destruct (annualMap_invariant data) as (_ & Hkeys & Hvals).
  unfold sortWith. rewrite elem_of_sortBy.
  change (map (fun kv => annualRow Math (snd kv)) (fold_left annualStep data []))
    with ((fun kv => annualRow Math (snd kv)) <$> fold_left annualStep data []).
  rewrite list_elem_of_fmap. split.
  - intros ([y acc] & -> & Hin). exists y. split.
    + apply Hkeys. now apply (list_elem_of_fmap_2 fst) in Hin.
    + cbn [snd]. now rewrite (Hvals _ _ Hin).
  - intros (y & Hy & ->). apply Hkeys, list_elem_of_fmap in Hy as ([y' acc] & -> & Hin).
    exists (y', acc). split; [| exact Hin]. cbn [snd fst]. now rewrite (Hvals _ _ Hin).
Qed.

Lemma aggregateToAnnual_NoDup_years (data : list Row) :
  NoDup (year <$> aggregateToAnnual Math data).
Proof.
  unfold aggregateToAnnual. destruct (len data =? 0); [apply NoDup_nil_2 |].
  destruct (annualMap_invariant data) as (Hnodup & _ & Hvals).
  unfold sortWith. rewrite sortBy_Permutation.
  change (map (fun kv => annualRow Math (snd kv)) (fold_left annualStep data []))
    with ((fun kv => annualRow Math (snd kv)) <$> fold_left annualStep data []).
  rewrite <- list_fmap_compose.
  assert (Heq : (year ∘ (fun kv => annualRow Math (snd kv))) <$> fold_left annualStep data []
                = Some <$> (fold_left annualStep data []).*1).
  { rewrite <- list_fmap_compose. apply list_fmap_ext.
    intros i [y acc] Hin. apply list_elem_of_lookup_2 in Hin.
    cbn. now rewrite (Hvals _ _ Hin). }
  rewrite Heq. apply NoDup_fmap_2; [| exact Hnodup].
  intros x y [= ->]. reflexivity.
Qed.

(** The flow and level variables of a record of the annual panel. *)
Lemma annualRow_values (data : list Row) (y : Z) :
  let a := annualRow Math (annualOf data y) in
  let months := rowsOfYear y data in
  year a = Some y
  /\ importQuantity_tons a = positiveOrNull (sum (omap importQuantity_tons months))
  /\ importValue_eur a = positiveOrNull (sum (omap importValue_eur months))
  /\ etsPrice a = average (omap etsPrice months)
  /\ industryIndex a = average (omap industryIndex months).
Proof. cbv zeta. repeat split. Qed.

End AnnualAggregation.

Lemma aggregateToAnnual_values (Math : MathObject) (data : list Row) (a : Row) (y : Z) :
  a ∈ aggregateToAnnual Math data -> year a = Some y ->
  importQuantity_tons a
  = positiveOrNull (sum (omap importQuantity_tons (rowsOfYear y data)))
  /\ importValue_eur a = positiveOrNull (sum (omap importValue_eur (rowsOfYear y data)))
  /\ etsPrice a = average (omap etsPrice (rowsOfYear y data))
  /\ industryIndex a = average (omap industryIndex (rowsOfYear y data)).
Proof.
  intros Ha Hy. apply elem_of_aggregateToAnnual in Ha as (y' & _ & ->).
  destruct (annualRow_values Math data y') as (Hyear & Hvalues).
  rewrite Hyear in Hy. injection Hy as ->. exact Hvalues.
Qed.



(** ** The frequency gate ([prepareDataset]) *)

Lemma detectOverlappingPeriod_periods (data : list Row) :
  let complete := List.filter allRequiredPresent data in
  detectOverlappingPeriod data
  = if len complete =? 0 then None
    else Some {| ov_start := minTime ((fun d => getTime (date d)) <$> complete);
                 ov_end := maxTime ((fun d => getTime (date d)) <$> complete);
                 ov_count := len complete;
                 ov_periods := complete |}.
Proof.
  cbv zeta. unfold detectOverlappingPeriod.
  destruct data as [| d data]; [reflexivity |].
  assert (Hlen : (len (d :: data) =? 0) = false).
  { unfold len. cbn [length]. apply Z.eqb_neq. lia. }
  now rewrite Hlen.
Qed.

(** C9: at monthly frequency [prepareDataset] returns exactly the records of
    the panel whose six required fields are all present; and when there are
    from 1 to 19 such records, the annual panel it returns is the aggregate of
    those records alone, so its annual totals sum only the months that have
    every required field. *)
Theorem C9_prepareDataset_complete_cases (Math : MathObject) (mergedData : list Row) :
  let complete := List.filter allRequiredPresent mergedData in
  let prepared := prepareDataset Math mergedData in
  (forall d, d ∈ complete
             <-> d ∈ mergedData
                 /\ importQuantity_tons d <> None /\ etsPrice d <> None
                 /\ industryIndex d <> None /\ logImport d <> None
                 /\ logETS d <> None /\ logIndustry d <> None)
  /\ (p_frequency prepared = "monthly" <-> 20 <= len complete)
  /\ (p_frequency prepared = "monthly" -> p_data prepared = complete)
  /\ (1 <= len complete < 20 ->
        p_frequency prepared = "annual"
        /\ p_data prepared = aggregateToAnnual Math complete
        /\ forall a y, a ∈ p_data prepared -> year a = Some y ->
             importQuantity_tons a
             = positiveOrNull (sum (omap importQuantity_tons (rowsOfYear y complete)))
             /\ importValue_eur a
                = positiveOrNull (sum (omap importValue_eur (rowsOfYear y complete)))).
Proof.
  cbv zeta. split.
  { intros d. rewrite !list_elem_of_In, filter_In. unfold allRequiredPresent, notNull.
    destruct (importQuantity_tons d), (etsPrice d), (industryIndex d), (logImport d),
      (logETS d), (logIndustry d); cbn; intuition congruence. }
  unfold prepareDataset. rewrite detectOverlappingPeriod_periods. cbv zeta.
  destruct (Z.eqb_spec (len (List.filter allRequiredPresent mergedData)) 0) as [H0 | H0].
  { rewrite H0. cbn [p_frequency p_data].
    split; [split; [discriminate | lia] |]. split; [discriminate | lia]. }
  cbn [ov_count ov_periods].
  destruct (Z.eqb_spec (len (List.filter allRequiredPresent mergedData)) 0);
    [contradiction |].
  destruct (Z.ltb_spec (len (List.filter allRequiredPresent mergedData)) 20) as [Hlt | Hge];
    cbn [p_frequency p_data].
  - split; [split; [discriminate | lia] |]. split; [discriminate |].
    intros _. split; [reflexivity |]. split; [reflexivity |].
    intros a y Ha Hy.
    destruct (aggregateToAnnual_values Math _ a y Ha Hy) as (Hq & Hv & _).
    now split.
  - split; [split; [intros _; lia | reflexivity] |]. split; [reflexivity | lia].
Qed.

(** A panel with two complete records out of three, and one with twenty. *)
Lemma C9_prepareDataset_complete_cases_witness :
  let month t ym q p i :=
    mkRow (mkDate t 2024) ym (Some q) None None (Some p) i
          None None None None None None None None
          (Some 4.6%float) (Some 2.3%float) ((fun _ => 4.5%float) <$> i) (Some 1%float)
          None None in
  let data := [ month 1704067200000 "2024-01" 100%float 10%float (Some 90%float);
                month 1706745600000 "2024-02" 200%float 20%float None;
                month 1709251200000 "2024-03" 300%float 30%float (Some 95%float) ] in
  let complete := List.filter allRequiredPresent data in
  let long := replicate 20 (month 0 "2024-01" 1%float 1%float (Some 1%float)) in
  1 <= len complete < 20
  /\ (forall Math, p_frequency (prepareDataset Math data) = "annual")
  /\ (forall Math, importQuantity_tons <$> p_data (prepareDataset Math data)
                   = [Some 400%float])
  /\ 20 <= len (List.filter allRequiredPresent long)
  /\ (forall Math, p_data (prepareDataset Math long) = long).
Proof.
  cbv zeta.
  match goal with |- ?H /\ _ => assert (Hsmall : H) by (vm_compute; split; [discriminate | reflexivity]) end.
  split; [exact Hsmall |]. split; [| split].
  - intros Math.
    exact (proj1 (proj2 (proj2 (proj2 (C9_prepareDataset_complete_cases Math _))) Hsmall)).
  - intros Math.
    destruct (proj2 (proj2 (proj2 (C9_prepareDataset_complete_cases Math _))) Hsmall)
      as (_ & -> & _).
    vm_compute. reflexivity.
  - match goal with |- ?H /\ _ => assert (Hlarge : H) by (vm_compute; discriminate) end.
    split; [exact Hlarge |]. intros Math.
    match goal with |- p_data (prepareDataset Math ?l) = _ =>
      destruct (C9_prepareDataset_complete_cases Math l) as (_ & Hmonthly & Hdata & _)
    end.
    rewrite (Hdata (proj2 Hmonthly Hlarge)). reflexivity.
Defined.

(** ** The intervention gate and the descriptive comparison *)

Lemma len_nil {A} : (len (@nil A) =? 0) = true.
Proof. reflexivity. Qed.

Lemma len_cons {A} (x : A) (l : list A) : (len (x :: l) =? 0) = false.
Proof. unfold len. cbn [length]. apply Z.eqb_neq. lia. Qed.

Lemma filter_nil_no_match {A} (p : A -> bool) (l : list A) :
  List.filter p l = [] -> forall d, d ∈ l -> p d = false.
Proof.
  intros Hnil d Hd. destruct (p d) eqn:Hp; [| reflexivity].
  exfalso. apply (not_elem_of_nil d). rewrite <- Hnil.
  apply list_elem_of_In, filter_In. split; [now apply list_elem_of_In | exact Hp].
Qed.

Lemma filter_cons_match {A} (p : A -> bool) (l : list A) (d : A) (l' : list A) :
  List.filter p l = d :: l' -> d ∈ l /\ p d = true.
Proof.
  intros Hcons. assert (Hd : In d (List.filter p l)) by (rewrite Hcons; now left).
  apply filter_In in Hd as [Hin Hp]. split; [now apply list_elem_of_In | exact Hp].
Qed.

(** The descriptive comparison exists exactly when the panel has a record
    before 2023 and a record of 2023-2025 that both carry an import quantity
    and a carbon price. *)
Lemma calculateCBAMDescriptive_is_Some (data : list Row) :
  is_Some (calculateCBAMDescriptive data)
  <-> (exists d, d ∈ data /\ isPreCBAM d && hasImportsAndPrice d = true)
      /\ (exists d, d ∈ data /\ isPostCBAM d && hasImportsAndPrice d = true).
Proof.
  unfold calculateCBAMDescriptive. destruct data as [| d0 data0] eqn:Hdata.
  { cbn. split; [intros [c Hc]; discriminate |].
    intros [(d & Hd & _) _]. now apply elem_of_nil in Hd. }
  rewrite len_cons, <- Hdata. clear Hdata d0 data0.
  destruct (List.filter (fun d => isPreCBAM d && hasImportsAndPrice d) data)
    as [| d1 l1] eqn:Hpre.
  { rewrite (@len_nil Row). cbn [orb]. split; [intros [c Hc]; discriminate |].
    intros [(d & Hd & Hp) _]. pose proof (filter_nil_no_match _ _ Hpre d Hd) as Hno.
    cbv beta in Hno. congruence. }
  destruct (List.filter (fun d => isPostCBAM d && hasImportsAndPrice d) data)
    as [| d2 l2] eqn:Hpost.
  { rewrite len_cons, (@len_nil Row). cbn [orb]. split; [intros [c Hc]; discriminate |].
    intros [_ (d & Hd & Hp)]. pose proof (filter_nil_no_match _ _ Hpost d Hd) as Hno.
    cbv beta in Hno. congruence. }
  rewrite !len_cons. cbn [orb]. split; [intros _ | intros _; eexists; reflexivity].
  split; [exists d1; exact (filter_cons_match _ _ _ _ Hpre)
         | exists d2; exact (filter_cons_match _ _ _ _ Hpost)].
Qed.

(** C7, as stated, fails: a panel with eight records of 2020 and none of
    2023-2025 is below the thresholds, the estimator declines it, and no
    descriptive comparison comes out of it either. *)
Lemma C7_no_comparison_without_post_records :
  let d := mkRow (mkDate 1577836800000 2020) "2020-01" (Some 100%float) None None
             (Some 50%float) (Some 90%float) None None None None None None None None
             (Some 4.6%float) (Some 3.9%float) (Some 4.5%float) (Some 0%float) None None in
  let data := replicate 8 d in
  len (List.filter isPreCBAM data) = 8
  /\ len (List.filter isPostCBAM data) = 0
  /\ (forall Math, ir_feasible (estimateCBAMInteractionModel Math data "monthly") = false)
  /\ calculateCBAMDescriptive data = None.
Proof. cbv zeta. repeat split. Qed.

Lemma omap_length_all {A B} (f : A -> option B) (l : list A) :
  (forall x, x ∈ l -> is_Some (f x)) -> length (omap f l) = length l.
Proof.
  induction l as [| x l IH]; intros Hall; [reflexivity |].
  cbn [omap list_omap]. destruct (Hall x) as [y Hy]; [left |]. rewrite Hy.
  cbn [length]. f_equal. apply IH. intros z Hz. apply Hall. now right.
Qed.

(** Every record of a side carries the import quantity and the carbon price,
    so the means that [calcStats] takes on a side are taken over all of its
    records. *)
Lemma sideOf_complete (side : Row -> bool) (data : list Row) (d : Row) :
  d ∈ sideOf side data <->
  d ∈ data /\ side d = true
  /\ is_Some (importQuantity_tons d) /\ is_Some (etsPrice d).
Proof.
  unfold sideOf, hasImportsAndPrice, notNull.
  rewrite list_elem_of_In, filter_In, <- list_elem_of_In, !andb_true_iff. split.
  - intros (Hd & Hs & Hi & He). split; [exact Hd |]. split; [exact Hs |].
    destruct (importQuantity_tons d); [| discriminate Hi].
    destruct (etsPrice d); [| discriminate He].
    split; eexists; reflexivity.
  - intros (Hd & Hs & [x Hx] & [y Hy]). rewrite Hx, Hy. now repeat split.
Qed.

Lemma calcStats_means (side : Row -> bool) (data : list Row) :
  ps_n (calcStats (sideOf side data)) = len (sideOf side data)
  /\ avgImports (calcStats (sideOf side data))
     = meanOver importQuantity_tons (sideOf side data)
  /\ avgPrice (calcStats (sideOf side data))
     = meanOver etsPrice (sideOf side data).
Proof.
  unfold calcStats, meanOver, len. cbn [ps_n avgImports avgPrice].
  rewrite !omap_length_all; [repeat split | |];
    intros d Hd; apply sideOf_complete in Hd; tauto.
Qed.

(** C7, amended: below ten records before 2023 or five records of 2023-2025
    the interaction estimator returns an infeasible result with a reason that
    is not empty, and so does the gate [checkCBAMFeasibility].  The descriptive
    comparison of the same panel is a value in every case: [null] when a side
    has no record that carries an import quantity and a carbon price, and the
    comparison when each side has one.  In the comparison each side reports
    the number of its records that carry both values, the mean of their
    import quantities and the mean of their carbon prices - the sum of the
    values divided by that number - and the two percent changes are those
    from the mean before to the mean after the intervention. *)
Theorem C7_interaction_gate_and_fallback (Math : MathObject) (data : list Row)
    (frequency : string) :
  len (List.filter isPreCBAM data) < 10 \/ len (List.filter isPostCBAM data) < 5 ->
  ir_feasible (estimateCBAMInteractionModel Math data frequency) = false
  /\ (exists reason,
        ir_reason (estimateCBAMInteractionModel Math data frequency) = Some reason
        /\ reason <> "")
  /\ (cv_feasible (checkCBAMFeasibility data) = false
      /\ cv_reason (checkCBAMFeasibility data) <> "")
  /\ (is_Some (calculateCBAMDescriptive data)
      <-> (exists d, d ∈ data /\ isPreCBAM d && hasImportsAndPrice d = true)
          /\ (exists d, d ∈ data /\ isPostCBAM d && hasImportsAndPrice d = true))
  /\ (forall c, calculateCBAMDescriptive data = Some c ->
        importChange c
        = (((avgImports (d_postCBAM c) - avgImports (d_preCBAM c))
            / avgImports (d_preCBAM c)) * 100)%float
        /\ priceChange c
           = (((avgPrice (d_postCBAM c) - avgPrice (d_preCBAM c))
               / avgPrice (d_preCBAM c)) * 100)%float)
  /\ (forall c, calculateCBAMDescriptive data = Some c ->
        let before := sideOf isPreCBAM data in
        let after := sideOf isPostCBAM data in
        (forall d, d ∈ before ++ after ->
           is_Some (importQuantity_tons d) /\ is_Some (etsPrice d))
        /\ ps_n (d_preCBAM c) = len before /\ 1 <= len before
        /\ ps_n (d_postCBAM c) = len after /\ 1 <= len after
        /\ avgImports (d_preCBAM c) = meanOver importQuantity_tons before
        /\ avgPrice (d_preCBAM c) = meanOver etsPrice before
        /\ avgImports (d_postCBAM c) = meanOver importQuantity_tons after
        /\ avgPrice (d_postCBAM c) = meanOver etsPrice after
        /\ importChange c
           = percentChange (meanOver importQuantity_tons before)
                           (meanOver importQuantity_tons after)
        /\ priceChange c
           = percentChange (meanOver etsPrice before) (meanOver etsPrice after)).
Proof.
  intros Hbelow.
  assert (Hgate : (len (List.filter isPreCBAM data) <? 10)
                  || (len (List.filter isPostCBAM data) <? 5) = true).
  { apply orb_true_iff. rewrite !Z.ltb_lt. exact Hbelow. }
  unfold estimateCBAMInteractionModel. cbv zeta. rewrite Hgate.
  cbn [ir_feasible ir_reason].
  split; [reflexivity |]. split; [eexists; split; [reflexivity | discriminate] |].
  split.
  { unfold checkCBAMFeasibility. destruct (len data =? 0).
    - split; [reflexivity | discriminate].
    - assert (Hno : (len (List.filter isPreCBAM data) >=? 10)
                    && (len (List.filter isPostCBAM data) >=? 5) = false).
      { apply andb_false_iff. rewrite !Z.geb_leb, !Z.leb_gt. exact Hbelow. }
      cbv zeta. rewrite Hno. split; [reflexivity | discriminate]. }
  split; [apply calculateCBAMDescriptive_is_Some |].
  split.
  { intros c. unfold calculateCBAMDescriptive.
    destruct (len data =? 0); [intros Hc; discriminate Hc |].
    destruct ((len (List.filter (fun d => isPreCBAM d && hasImportsAndPrice d) data) =? 0)
              || (len (List.filter (fun d => isPostCBAM d && hasImportsAndPrice d) data)
                  =? 0));
      [intros Hc; discriminate Hc |].
    intros [= <-]. split; reflexivity. }
  intros c. cbv zeta. unfold calculateCBAMDescriptive.
  destruct (len data =? 0); [intros Hc; discriminate Hc |].
  fold (sideOf isPreCBAM data). fold (sideOf isPostCBAM data).
  destruct (Z.eqb_spec (len (sideOf isPreCBAM data)) 0) as [| Hbefore];
    [intros Hc; discriminate Hc |].
  destruct (Z.eqb_spec (len (sideOf isPostCBAM data)) 0) as [| Hafter];
    [intros Hc; discriminate Hc |].
  cbn [orb]. intros [= <-].
  cbn [d_preCBAM d_postCBAM importChange priceChange].
  destruct (calcStats_means isPreCBAM data) as (Hn1 & Hi1 & Hp1).
  destruct (calcStats_means isPostCBAM data) as (Hn2 & Hi2 & Hp2).
  pose proof Hi1 as Hi1'. pose proof Hp1 as Hp1'.
  pose proof Hi2 as Hi2'. pose proof Hp2 as Hp2'.
  unfold calcStats in Hi1', Hp1', Hi2', Hp2'.
  cbn [avgImports avgPrice] in Hi1', Hp1', Hi2', Hp2'.
  rewrite Hi1', Hp1', Hi2', Hp2'. unfold percentChange.
  split.
  { intros d Hd. apply elem_of_app in Hd as [Hd | Hd];
      apply sideOf_complete in Hd; tauto. }
  assert (H1 : 1 <= len (sideOf isPreCBAM data)) by (unfold len in *; lia).
  assert (H2 : 1 <= len (sideOf isPostCBAM data)) by (unfold len in *; lia).
  split; [exact Hn1 |]. split; [exact H1 |].
  split; [exact Hn2 |]. split; [exact H2 |].
  repeat split; assumption.
Qed.

(** Eight records of 2020 and three of 2024. *)
Lemma C7_interaction_gate_and_fallback_witness :
  let record y :=
    mkRow (mkDate 0 y) "" (Some 100%float) None None
          (Some 50%float) (Some 90%float) None None None None None None None None
          (Some 4.6%float) (Some 3.9%float) (Some 4.5%float) (Some 0%float) None None in
  let data := replicate 8 (record 2020) ++ replicate 3 (record 2024) in
  (len (List.filter isPreCBAM data) < 10 \/ len (List.filter isPostCBAM data) < 5)
  /\ (forall Math, ir_feasible (estimateCBAMInteractionModel Math data "monthly") = false)
  /\ is_Some (calculateCBAMDescriptive data)
  /\ meanOver etsPrice (sideOf isPreCBAM data) = 50%float
  /\ (avgPrice ∘ d_preCBAM) <$> calculateCBAMDescriptive data = Some 50%float.
Proof.
  cbv zeta.
  match goal with |- ?H /\ _ => assert (Hbelow : H) by (left; reflexivity) end.
  split; [exact Hbelow |]. split.
  - intros Math.
    exact (proj1 (C7_interaction_gate_and_fallback Math _ "monthly" Hbelow)).
  - split; [eexists; vm_compute; reflexivity |]. split; reflexivity.
Defined.

(** ** Regression on degenerate data *)

(** A number that compares equal to zero is one of the two zeros. *)
Lemma float_zero_cases (a : float) :
  PrimFloat.eqb a 0 = true -> a = 0%float \/ a = (-0)%float.
Proof.
  rewrite FloatAxioms.eqb_spec.
  change (Prim2SF 0) with (S754_zero false).
  destruct (Prim2SF a) as [s | s | | s m e] eqn:Ha; cbn.
  - intros _. rewrite <- (SF2Prim_Prim2SF a), Ha.
    destruct s; [right | left]; reflexivity.
  - destruct s; discriminate.
  - discriminate.
  - destruct s; discriminate.
Qed.

(** Zero divided by zero is [NaN]. *)
Lemma zero_div_zero (a b : float) :
  PrimFloat.eqb a 0 = true -> PrimFloat.eqb b 0 = true -> isNaN (a / b) = true.
Proof.
  intros Ha Hb.
  destruct (float_zero_cases a Ha) as [-> | ->],
           (float_zero_cases b Hb) as [-> | ->]; reflexivity.
Qed.

(** C10, as stated, fails: with three valid pairs whose [x] are all 0.1 the
    rounding of the sums leaves a denominator that is not zero, and the slope
    is -0, not [NaN]. *)
Lemma C10_equal_x_slope_not_NaN :
  let y := [Some 1; Some 2; Some 3]%float in
  let x := [Some 0.1; Some 0.1; Some 0.1]%float in
  len (validPairs y x) = 3
  /\ (forall Math, s_slope <$> simpleOLS Math y x = Some (-0)%float)
  /\ isNaN (-0)%float = false.
Proof. cbv zeta. repeat split. Qed.

(** C10, amended: with at least two valid pairs [simpleOLS] does not return
    [null], whatever the values of [x]; its slope is the quotient of the two
    operands as computed, with no guard on the division, and it is [NaN]
    whenever both operands are zero. *)
Theorem C10_simpleOLS_unguarded_slope (Math : MathObject)
    (y x : list (option float)) :
  2 <= len (validPairs y x) ->
  exists r,
    simpleOLS Math y x = Some r
    /\ s_n r = len (validPairs y x)
    /\ s_slope r
       = (slopeNumerator (validPairs y x) / slopeDenominator (validPairs y x))%float
    /\ (PrimFloat.eqb (slopeNumerator (validPairs y x)) 0 = true ->
        PrimFloat.eqb (slopeDenominator (validPairs y x)) 0 = true ->
        isNaN (s_slope r) = true).
Proof.
  intros Hvalid. unfold simpleOLS. cbv zeta.
  destruct (Z.ltb_spec (len (validPairs y x)) 2) as [Hlt | _]; [lia |].
  eexists. split; [reflexivity |]. cbn [s_n s_slope].
  split; [reflexivity |]. split; [reflexivity |].
  apply zero_div_zero.
Qed.

(** Three valid pairs whose [x] are all 2. *)
Lemma C10_simpleOLS_unguarded_slope_witness :
  let y := [Some 1; Some 2; Some 3]%float in
  let x := [Some 2; Some 2; Some 2]%float in
  2 <= len (validPairs y x)
  /\ forall Math, exists r, simpleOLS Math y x = Some r /\ isNaN (s_slope r) = true.
Proof.
  cbv zeta.
  match goal with |- ?H /\ _ => assert (Hvalid : H) by (vm_compute; discriminate) end.
  split; [exact Hvalid |]. intros Math.
  destruct (C10_simpleOLS_unguarded_slope Math _ _ Hvalid) as (r & Hr & _ & _ & Hnan).
  exists r. split; [exact Hr |]. apply Hnan; reflexivity.
Defined.

(** ** The linear solve on a singular system *)

Lemma backSubstitution_length (augmented : Matrix) (n : nat) :
  length (backSubstitution augmented n) = n.
Proof.
  unfold backSubstitution.
  assert (Hfold : forall (is_ : list nat) (x : list float),
            length (fold_left
                      (fun x i =>
                         let xi := cell augmented i n in
                         let xi :=
                           fold_left (fun xi j => (xi - cell augmented i j * elem x j)%float)
                                     (seq (S i) (n - S i)) xi in
                         <[i := (xi / cell augmented i i)%float]> x)
                      is_ x)
            = length x).
  { induction is_ as [| i is_ IH]; intros x; [reflexivity |].
    cbn [fold_left]. rewrite IH. apply length_insert. }
  rewrite Hfold. apply length_replicate.
Qed.

Lemma multipleOLS_None (Math : MathObject) (y : list (option float))
    (x : list (list (option float))) :
  multipleOLS Math y x = None
  <-> len y < len x + 1 \/ len (validIndices y x) < len x + 1.
Proof.
  unfold multipleOLS. cbv zeta.
  destruct (Z.ltb_spec (len y) (len x + 1)); [split; [now left | reflexivity] |].
  destruct (Z.ltb_spec (len (validIndices y x)) (len x + 1));
    [split; [now right | reflexivity] |].
  cbn [Array_truthy negb]. split; [discriminate | lia].
Qed.

(** C1 (evaluation of the code): [solveLinearSystem] has no failure value - it
    returns an array of as many numbers as the system has rows - and on a
    singular system the numbers are [NaN].  [multipleOLS] returns [null] only
    for lack of observations, so a collinear design gives a result whose
    coefficients are [NaN], and the baseline estimator reports that result as
    feasible. *)
Theorem C1_singular_system_yields_NaN :
  (forall A b, length (solveLinearSystem A b) = length A)
  /\ solveLinearSystem [[1; 1]; [1; 1]]%float [1; 1]%float = [nan; nan]
  /\ (forall Math y x,
        multipleOLS Math y x = None
        <-> len y < len x + 1 \/ len (validIndices y x) < len x + 1)
  /\ (forall Math,
        coefficients <$> multipleOLS Math [Some 1; Some 2; Some 3]%float
                                          [[Some 2; Some 2; Some 2]]%float
        = Some [nan; nan])
  /\ (forall Math,
        let d := mkRow (mkDate 1577836800000 2020) "2020-01" (Some 100%float) None None
                   (Some 50%float) (Some 90%float) None None None None None None None None
                   (Some 4.6%float) (Some 3.9%float) (Some 4.5%float) (Some 0%float)
                   None None in
        exists e,
          estimateBaselineModel Math (replicate 20 d) "monthly" = BaselineFitted e
          /\ be_carbonPriceCoeff e = Some nan).
Proof.
  split; [| split; [| split; [| split]]].
  - intros A b. unfold solveLinearSystem. apply backSubstitution_length.
  - reflexivity.
  - apply multipleOLS_None.
  - intros Math. vm_compute. reflexivity.
  - intros Math. cbv zeta. eexists. split; [vm_compute; reflexivity | reflexivity].
Qed.

(** * Further properties of the code *)

(** ** The lag-length gate, for every third parameter *)

Lemma gate_maxLag_closed_form (n minParams : Z) (frequency : string) :
  lv_maxLag (determineFeasibleLagLength n frequency minParams)
  = if n <? 20 then 0
    else if String.eqb frequency "annual"
         then (if 11 + minParams <=? n then 1 else 0)
         else if n <? 13 + minParams then 0
              else if n <? 50 then 3 else if n <? 100 then 6 else 12.
Proof.
  unfold determineFeasibleLagLength. rewrite lagLoop_closed_form. cbv zeta.
  destruct (Z.ltb_spec n 20); [reflexivity |].
  destruct (String.eqb frequency "annual").
  - rewrite Z.geb_leb.
    destruct (Z.leb_spec (10 + minParams + 1) n), (Z.leb_spec (11 + minParams) n);
      cbn [lv_maxLag]; lia.
  - destruct (Z.ltb_spec n (10 + minParams + 3)), (Z.ltb_spec n (13 + minParams));
      cbn [lv_maxLag]; try lia.
    destruct (Z.ltb_spec n 50); [lia |]. destruct (Z.ltb_spec n 100); lia.
Qed.

Lemma gate_feasible_iff_positive_lag (n minParams : Z) (frequency : string) :
  lv_feasible (determineFeasibleLagLength n frequency minParams)
  = (0 <? lv_maxLag (determineFeasibleLagLength n frequency minParams)).
Proof.
  unfold determineFeasibleLagLength. cbv zeta.
  destruct (n <? 20); [reflexivity |].
  destruct (String.eqb frequency "annual"); [cbn [lv_feasible lv_maxLag]; apply Z.gtb_ltb |].
  destruct (n <? 10 + minParams + 3); [reflexivity |].
  cbn [lv_feasible lv_maxLag]. apply Z.gtb_ltb.
Qed.

(** X1: whatever the sample size, the frequency and [minParams], the verdict
    is feasible exactly when its maximum lag is positive, the maximum lag lies
    between 0 and 12 (between 0 and 1 at annual frequency), and more
    observations never give a smaller maximum lag. *)
Theorem X1_lag_verdict_invariants (n n' minParams : Z) (frequency : string) :
  let verdict := determineFeasibleLagLength n frequency minParams in
  lv_feasible verdict = (0 <? lv_maxLag verdict)
  /\ 0 <= lv_maxLag verdict <= (if String.eqb frequency "annual" then 1 else 12)
  /\ lv_maxLag verdict
     <= lv_maxLag (determineFeasibleLagLength (Z.max n n') frequency minParams).
Proof.
  cbv zeta. split; [apply gate_feasible_iff_positive_lag |].
  rewrite !gate_maxLag_closed_form.
  destruct (String.eqb frequency "annual");
    repeat match goal with
    | |- context [?a <? ?b] => destruct (Z.ltb_spec a b)
    | |- context [?a <=? ?b] => destruct (Z.leb_spec a b)
    end; lia.
Qed.

(** ** The intervention gate and the estimator agree *)

Lemma filter_exclusive_length {A} (p q : A -> bool) (l : list A) :
  (forall x, p x && q x = false) ->
  len (List.filter p l) + len (List.filter q l) <= len l.
Proof.
  intros Hpq. unfold len. induction l as [| x l IH]; cbn [List.filter length]; [lia |].
  specialize (Hpq x). destruct (p x), (q x); cbn [length] in *; try discriminate; lia.
Qed.

Lemma CBAM_periods_exclusive (d : Row) : isPreCBAM d && isPostCBAM d = false.
Proof.
  unfold isPreCBAM, isPostCBAM. rewrite Z.geb_leb.
  destruct (Z.ltb_spec (getFullYear (date d)) 2023),
           (Z.leb_spec 2023 (getFullYear (date d))); try reflexivity; lia.
Qed.

(** X2: [checkCBAMFeasibility] counts the records before 2023 and those of
    2023-2025 (an empty panel has none of either); the two counts never add
    up to more than the panel; the verdict is feasible exactly with ten of the
    first and five of the second; its reason is never empty; and whenever
    [estimateCBAMInteractionModel] fits a model on a panel, the gate is
    feasible on that panel. *)
Theorem X2_CBAM_gate_agrees_with_estimator (Math : MathObject) (data : list Row)
    (frequency : string) :
  let verdict := checkCBAMFeasibility data in
  cv_preCBAM verdict = len (List.filter isPreCBAM data)
  /\ cv_postCBAM verdict = len (List.filter isPostCBAM data)
  /\ cv_preCBAM verdict + cv_postCBAM verdict <= len data
  /\ cv_feasible verdict = (10 <=? cv_preCBAM verdict) && (5 <=? cv_postCBAM verdict)
  /\ cv_reason verdict <> ""
  /\ implb (ir_feasible (estimateCBAMInteractionModel Math data frequency))
           (cv_feasible verdict) = true.
Proof.
  cbv zeta. destruct data as [| d0 data0] eqn:Hdata.
  { repeat split; try reflexivity. discriminate. }
  rewrite <- Hdata.
  assert (Hcheck : checkCBAMFeasibility data
                   = mkCBAMVerdict
                       ((len (List.filter isPreCBAM data) >=? 10)
                        && (len (List.filter isPostCBAM data) >=? 5))
                       (cv_reason (checkCBAMFeasibility data))
                       (len (List.filter isPreCBAM data))
                       (len (List.filter isPostCBAM data))).
  { unfold checkCBAMFeasibility. rewrite Hdata, len_cons. reflexivity. }
  split; [now rewrite Hcheck |]. split; [now rewrite Hcheck |].
  split; [rewrite Hcheck; cbn [cv_preCBAM cv_postCBAM];
          apply filter_exclusive_length, CBAM_periods_exclusive |].
  split; [rewrite Hcheck; cbn [cv_feasible cv_preCBAM cv_postCBAM];
          now rewrite !Z.geb_leb |].
  split.
  { unfold checkCBAMFeasibility. rewrite Hdata, len_cons, <- Hdata. cbv zeta.
    destruct (_ && _); cbn [cv_reason]; discriminate. }
  rewrite Hcheck. cbn [cv_feasible]. unfold estimateCBAMInteractionModel. cbv zeta.
  rewrite !Z.geb_leb.
  destruct (Z.ltb_spec (len (List.filter isPreCBAM data)) 10) as [Hpre | Hpre];
    [reflexivity |].
  destruct (Z.ltb_spec (len (List.filter isPostCBAM data)) 5) as [Hpost | Hpost];
    [reflexivity |].
  apply Z.leb_le in Hpre, Hpost. rewrite Hpre, Hpost.
  cbn [orb andb]. now destruct (ir_feasible _).
Qed.

(** ** Moving averages and the frame of the derived indicators *)

Lemma elem_of_slice {A} (l : list A) (start stop : Z) (d : A) :
  0 <= start ->
  d ∈ slice l start stop
  <-> exists j : nat, start <= Z.of_nat j < stop /\ l !! j = Some d.
Proof.
  intros Hstart. unfold slice. rewrite list_elem_of_lookup. split.
  - intros (i & Hi). apply lookup_take_Some in Hi as [Hi Hlt].
    rewrite lookup_drop in Hi. exists (Z.to_nat start + i)%nat. split; [lia | exact Hi].
  - intros (j & Hj & Hd). exists (j - Z.to_nat start)%nat.
    apply lookup_take_Some. split; [| lia].
    rewrite lookup_drop. replace (Z.to_nat start + (j - Z.to_nat start))%nat with j by lia.
    exact Hd.
Qed.

Lemma windowMean_None (field : MergedRow -> option float) (window : list MergedRow) :
  windowMean field window = None <-> forall d, d ∈ window -> field d = None.
Proof.
  unfold windowMean.
  destruct (List.filter (fun d => notNull (field d)) window) as [| d0 present] eqn:Hpresent.
  - split; [| reflexivity]. intros _ d Hd.
    pose proof (filter_nil_no_match _ _ Hpresent d Hd) as Hno. cbv beta in Hno.
    now destruct (field d).
  - assert (Hpos : (len (d0 :: present) >? 0) = true).
    { unfold len. cbn [length]. apply Z.gtb_lt. lia. }
    rewrite Hpos. split; [discriminate |]. intros Hall.
    destruct (filter_cons_match _ _ _ _ Hpresent) as [Hd0 Hsome].
    rewrite (Hall d0 Hd0) in Hsome. discriminate.
Qed.

(** The window of the [width] records that end at index [t], clipped at the
    start of the panel. *)
Lemma trailing_window_None (field : MergedRow -> option float)
    (panel : list MergedRow) (t : nat) (width : Z) :
  windowMean field (slice panel (Z.max 0 (Z.of_nat t - width)) (Z.of_nat t + 1)) = None
  <-> forall (j : nat) e,
        Z.of_nat t - width <= Z.of_nat j <= Z.of_nat t -> panel !! j = Some e ->
        field e = None.
Proof.
  rewrite windowMean_None. split.
  - intros Hall j e Hj He. apply Hall, elem_of_slice; [lia |]. exists j. split; [lia | exact He].
  - intros Hall d Hd. apply elem_of_slice in Hd as (j & Hj & He); [| lia].
    apply (Hall j d); [lia | exact He].
Qed.

(** X3: a moving average of the derived panel is [null] exactly when the
    variable is [null] in every record of its trailing window - the record
    itself and the two (3-period average) or eleven (12-period average)
    records before it, as far as the panel reaches back. *)
Theorem X3_moving_average_null_iff_window_null (Math : MathObject) (withDummy : bool)
    (panel : list MergedRow) (t : nat) (r : Row) :
  calculateDerivedIndicators Math withDummy panel !! t = Some r ->
  let allNull (field : MergedRow -> option float) (back : Z) :=
    forall (j : nat) e,
      Z.of_nat t - back <= Z.of_nat j <= Z.of_nat t -> panel !! j = Some e ->
      field e = None in
  (etsMA3 r = None <-> allNull m_etsPrice 2)
  /\ (etsMA12 r = None <-> allNull m_etsPrice 11)
  /\ (importMA3 r = None <-> allNull m_importQuantity_tons 2)
  /\ (importMA12 r = None <-> allNull m_importQuantity_tons 11).
Proof.
  unfold calculateDerivedIndicators. rewrite list_lookup_imap.
  destruct (panel !! t) as [entry |]; [| discriminate].
  cbn [fmap option_fmap option_map]. intros [= <-]. cbv zeta.
  cbn [deriveRow etsMA3 etsMA12 importMA3 importMA12].
  repeat split; apply trailing_window_None.
Qed.

(** A panel of three months whose carbon price is missing throughout. *)
Lemma X3_moving_average_null_iff_window_null_witness :
  let m t ym q := mkMergedRow (mkDate t 2024) ym (Some q) None None None None in
  let panel := [ m 1704067200000 "2024-01" 100%float;
                 m 1706745600000 "2024-02" 120%float;
                 m 1709251200000 "2024-03" 90%float ] in
  (forall Math,
     etsMA3 <$> calculateDerivedIndicators Math true panel !! 2%nat = Some None)
  /\ (forall Math,
        importMA3 <$> calculateDerivedIndicators Math true panel !! 2%nat
        = Some (Some (310 / 3)%float)).
Proof.
  cbv zeta. split; intros Math.
  - destruct (calculateDerivedIndicators Math true _ !! 2%nat) as [r |] eqn:Hr;
      [| vm_compute in Hr; discriminate].
    destruct (X3_moving_average_null_iff_window_null Math true _ 2 r Hr) as (Hets & _).
    cbv zeta in Hets. cbn [fmap option_fmap option_map]. f_equal. apply Hets.
    intros [| [| [| j]]] e Hj He; cbn in He; try discriminate;
      injection He as <-; reflexivity.
  - vm_compute. reflexivity.
Defined.

(** X4: [calculateDerivedIndicators] returns one record per record of the
    panel, in the same order, each with the date, the period key and the five
    aligned values of its source record unchanged; the first record has no
    month-over-month growth and the first twelve have no year-over-year
    growth. *)
Theorem X4_derived_indicators_frame (Math : MathObject) (withDummy : bool)
    (panel : list MergedRow) :
  let derived := calculateDerivedIndicators Math withDummy panel in
  length derived = length panel
  /\ (forall t : nat,
        (fun r => (date r, yearMonth r, importQuantity_tons r, importValue_eur r,
                   importUnitValue r, etsPrice r, industryIndex r)) <$> derived !! t
        = (fun e => (m_date e, m_yearMonth e, m_importQuantity_tons e,
                     m_importValue_eur e, m_importUnitValue e, m_etsPrice e,
                     m_industryIndex e)) <$> panel !! t)
  /\ (forall r, derived !! 0%nat = Some r ->
        importGrowth r = None /\ valueGrowth r = None /\ etsGrowth r = None)
  /\ (forall (t : nat) r, derived !! t = Some r -> (t < 12)%nat ->
        importGrowthYoY r = None).
Proof.
  cbv zeta. unfold calculateDerivedIndicators.
  split; [apply length_imap |]. split; [| split].
  - intros t. rewrite list_lookup_imap. now destruct (panel !! t).
  - intros r. rewrite list_lookup_imap.
    destruct (panel !! 0%nat) as [entry |]; [| discriminate].
    cbn [fmap option_fmap option_map]. intros [= <-]. repeat split.
  - intros t r. rewrite list_lookup_imap.
    destruct (panel !! t) as [entry |]; [| discriminate].
    cbn [fmap option_fmap option_map]. intros [= <-] Ht.
    cbn [deriveRow importGrowthYoY]. rewrite Z.geb_leb.
    destruct (Z.leb_spec 12 (Z.of_nat t)); [lia | reflexivity].
Qed.

(** The second record of a panel of two months. *)
Lemma X4_derived_indicators_frame_witness :
  let m t ym q := mkMergedRow (mkDate t 2024) ym (Some q) None None None None in
  let panel := [ m 1704067200000 "2024-01" 100%float;
                 m 1706745600000 "2024-02" 120%float ] in
  (forall Math, importGrowth <$> calculateDerivedIndicators Math true panel !! 0%nat
                = Some None)
  /\ (forall Math, importGrowthYoY <$> calculateDerivedIndicators Math true panel !! 1%nat
                   = Some None).
Proof.
  cbv zeta. split; intros Math.
  - destruct (calculateDerivedIndicators Math true _ !! 0%nat) as [r |] eqn:Hr;
      [| vm_compute in Hr; discriminate].
    cbn [fmap option_fmap option_map]. f_equal.
    exact (proj1 (proj1 (proj2 (proj2 (X4_derived_indicators_frame Math true _))) r Hr)).
  - destruct (calculateDerivedIndicators Math true _ !! 1%nat) as [r |] eqn:Hr;
      [| vm_compute in Hr; discriminate].
    cbn [fmap option_fmap option_map]. f_equal.
    apply (proj2 (proj2 (proj2 (X4_derived_indicators_frame Math true _))) 1%nat r Hr).
    lia.
Defined.

(** ** The log guard *)

Lemma logTransform_Some (Math : MathObject) (v : option float) (l : float) :
  logTransform Math v = Some l ->
  exists x, v = Some x /\ (0 <? x)%float = true /\ l = Math_log Math x.
Proof.
  unfold logTransform. destruct v as [x |]; [| discriminate].
  destruct (truthy x); [| discriminate]. cbn [andb].
  destruct (0 <? x)%float eqn:Hx; [| discriminate].
  intros [= <-]. now exists x.
Qed.

Lemma notNull_logTransform (Math : MathObject) (v : option float) :
  notNull (logTransform Math v) = true -> notNull v = true.
Proof.
  destruct (logTransform Math v) as [l |] eqn:Hl; [| discriminate].
  apply logTransform_Some in Hl as (x & -> & _). reflexivity.
Qed.

(** X5: in the derived panel a log field is present only over a value that is
    present and greater than zero, and then it is [Math.log] of that value -
    the logarithm is never taken of zero, of a negative number or of a missing
    value.  So a derived record has all six required fields exactly when its
    three log fields are present. *)
Theorem X5_log_guard (Math : MathObject) (withDummy : bool)
    (panel : list MergedRow) (t : nat) (r : Row) :
  calculateDerivedIndicators Math withDummy panel !! t = Some r ->
  let guarded (log value : option float) :=
    forall l, log = Some l ->
      exists x, value = Some x /\ (0 <? x)%float = true /\ l = Math_log Math x in
  guarded (logImport r) (importQuantity_tons r)
  /\ guarded (logETS r) (etsPrice r)
  /\ guarded (logIndustry r) (industryIndex r)
  /\ allRequiredPresent r
     = notNull (logImport r) && notNull (logETS r) && notNull (logIndustry r).
Proof.
  unfold calculateDerivedIndicators. rewrite list_lookup_imap.
  destruct (panel !! t) as [entry |]; [| discriminate].
  cbn [fmap option_fmap option_map]. intros [= <-]. cbv zeta.
  cbn [deriveRow logImport logETS logIndustry importQuantity_tons etsPrice industryIndex].
  split; [intros l; apply logTransform_Some |].
  split; [intros l; apply logTransform_Some |].
  split; [intros l; apply logTransform_Some |].
  unfold allRequiredPresent.
  cbn [deriveRow logImport logETS logIndustry importQuantity_tons etsPrice industryIndex].
  pose proof (notNull_logTransform Math (m_importQuantity_tons entry)) as Hq.
  pose proof (notNull_logTransform Math (m_etsPrice entry)) as He.
  pose proof (notNull_logTransform Math (m_industryIndex entry)) as Hi.
  destruct (notNull (logTransform Math (m_importQuantity_tons entry))),
           (notNull (logTransform Math (m_etsPrice entry))),
           (notNull (logTransform Math (m_industryIndex entry)));
    rewrite ?Hq, ?He, ?Hi by reflexivity; cbn [andb];
    try reflexivity; rewrite ?andb_false_r; reflexivity.
Qed.

(** A month with imports and a carbon price of -5 (no log). *)
Lemma X5_log_guard_witness :
  let panel := [ mkMergedRow (mkDate 1704067200000 2024) "2024-01" (Some 100%float)
                   None None (Some (-5)%float) None ] in
  (forall Math, logETS <$> calculateDerivedIndicators Math true panel !! 0%nat = Some None)
  /\ (forall Math,
        allRequiredPresent <$> calculateDerivedIndicators Math true panel !! 0%nat
        = Some false).
Proof.
  cbv zeta. split; intros Math.
  - vm_compute. reflexivity.
  - destruct (calculateDerivedIndicators Math true _ !! 0%nat) as [r |] eqn:Hr;
      [| vm_compute in Hr; discriminate].
    destruct (X5_log_guard Math true _ 0 r Hr) as (_ & _ & _ & Hall).
    cbn [fmap option_fmap option_map]. rewrite Hall.
    vm_compute in Hr. injection Hr as <-. reflexivity.
Defined.

(** ** The overlapping period *)

Lemma fold_min_spec (ts : list Z) (t0 : Z) :
  fold_left Z.min ts t0 <= t0
  /\ (forall t, t ∈ ts -> fold_left Z.min ts t0 <= t)
  /\ fold_left Z.min ts t0 ∈ t0 :: ts.
Proof.
  revert t0. induction ts as [| t ts IH]; intros t0; cbn [fold_left].
  - split; [lia |]. split; [intros t Ht; now apply elem_of_nil in Ht | left].
  - destruct (IH (Z.min t0 t)) as (Hle & Hall & Hin). split; [lia |]. split.
    + intros u Hu. apply elem_of_cons in Hu as [-> | Hu]; [lia | now apply Hall].
    + apply elem_of_cons in Hin as [Hin | Hin]; [| now right; right].
      rewrite Hin. destruct (Z.min_spec t0 t) as [[_ ->] | [_ ->]]; [left | right; left].
Qed.

Lemma fold_max_spec (ts : list Z) (t0 : Z) :
  t0 <= fold_left Z.max ts t0
  /\ (forall t, t ∈ ts -> t <= fold_left Z.max ts t0)
  /\ fold_left Z.max ts t0 ∈ t0 :: ts.
Proof.
  revert t0. induction ts as [| t ts IH]; intros t0; cbn [fold_left].
  - split; [lia |]. split; [intros t Ht; now apply elem_of_nil in Ht | left].
  - destruct (IH (Z.max t0 t)) as (Hle & Hall & Hin). split; [lia |]. split.
    + intros u Hu. apply elem_of_cons in Hu as [-> | Hu]; [lia | now apply Hall].
    + apply elem_of_cons in Hin as [Hin | Hin]; [| now right; right].
      rewrite Hin. destruct (Z.max_spec t0 t) as [[_ ->] | [_ ->]]; [right; left | left].
Qed.

Lemma minTime_spec (ts : list Z) :
  ts <> [] -> (forall t, t ∈ ts -> minTime ts <= t) /\ minTime ts ∈ ts.
Proof.
  destruct ts as [| t0 ts]; [congruence |]. intros _. cbn [minTime].
  destruct (fold_min_spec ts t0) as (Hle & Hall & Hin). split; [| exact Hin].
  intros t Ht. apply elem_of_cons in Ht as [-> | Ht]; [exact Hle | now apply Hall].
Qed.

Lemma maxTime_spec (ts : list Z) :
  ts <> [] -> (forall t, t ∈ ts -> t <= maxTime ts) /\ maxTime ts ∈ ts.
Proof.
  destruct ts as [| t0 ts]; [congruence |]. intros _. cbn [maxTime].
  destruct (fold_max_spec ts t0) as (Hle & Hall & Hin). split; [| exact Hin].
  intros t Ht. apply elem_of_cons in Ht as [-> | Ht]; [exact Hle | now apply Hall].
Qed.

Lemma detectOverlappingPeriod_None (data : list Row) :
  (detectOverlappingPeriod data = None
   <-> forall d, d ∈ data -> allRequiredPresent d = false).
Proof.
  rewrite detectOverlappingPeriod_periods. cbv zeta.
  destruct (List.filter allRequiredPresent data) as [| d0 complete] eqn:Hcomplete.
  - rewrite (@len_nil Row). split; [| reflexivity]. intros _.
    now apply filter_nil_no_match.
  - rewrite len_cons. split; [discriminate |]. intros Hall.
    destruct (filter_cons_match _ _ _ _ Hcomplete) as [Hd0 Hp].
    rewrite (Hall d0 Hd0) in Hp. discriminate.
Qed.

(** X6: [detectOverlappingPeriod] returns [null] exactly when no record of the
    panel has all six required fields.  Otherwise its periods are those
    records, in the order of the panel; [count] is their number, at least 1;
    [start] and [end] are the earliest and the latest of their dates, so every
    period lies between them. *)
Theorem X6_overlapping_period (data : list Row) :
  (detectOverlappingPeriod data = None
   <-> forall d, d ∈ data -> allRequiredPresent d = false)
  /\ forall overlap, detectOverlappingPeriod data = Some overlap ->
       ov_periods overlap = List.filter allRequiredPresent data
       /\ ov_count overlap = len (ov_periods overlap)
       /\ 1 <= ov_count overlap
       /\ (forall d, d ∈ ov_periods overlap ->
             ov_start overlap <= getTime (date d) <= ov_end overlap)
       /\ (exists d, d ∈ ov_periods overlap /\ getTime (date d) = ov_start overlap)
       /\ (exists d, d ∈ ov_periods overlap /\ getTime (date d) = ov_end overlap).
Proof.
  rewrite detectOverlappingPeriod_periods. cbv zeta.
  destruct (List.filter allRequiredPresent data) as [| d0 complete] eqn:Hcomplete.
  - rewrite (@len_nil Row). split; [| intros overlap Hov; discriminate Hov].
    split; [| reflexivity]. intros _. now apply filter_nil_no_match.
  - rewrite len_cons. split.
    + split; [discriminate |]. intros Hall.
      destruct (filter_cons_match _ _ _ _ Hcomplete) as [Hd0 Hp].
      rewrite (Hall d0 Hd0) in Hp. discriminate.
    + intros overlap [= <-]. cbn [ov_periods ov_count ov_start ov_end].
      assert (Hne : (fun d => getTime (date d)) <$> d0 :: complete <> []) by discriminate.
      destruct (minTime_spec _ Hne) as [Hmin Hmin_in].
      destruct (maxTime_spec _ Hne) as [Hmax Hmax_in].
      split; [reflexivity |]. split; [reflexivity |].
      split; [unfold len; cbn [length]; lia |]. split; [| split].
      * intros d Hd.
        pose proof (list_elem_of_fmap_2 (fun d => getTime (date d)) _ _ Hd) as Ht.
        split; [now apply Hmin | now apply Hmax].
      * apply list_elem_of_fmap in Hmin_in as (d & Heq & Hd). now exists d.
      * apply list_elem_of_fmap in Hmax_in as (d & Heq & Hd). now exists d.
Qed.

(** Two complete months and one without an activity index. *)
Lemma X6_overlapping_period_witness :
  let month t ym i :=
    mkRow (mkDate t 2024) ym (Some 100%float) None None (Some 50%float) i
          None None None None None None None None
          (Some 4.6%float) (Some 3.9%float) ((fun _ => 4.5%float) <$> i) (Some 1%float)
          None None in
  let data := [ month 1706745600000 "2024-02" (Some 90%float);
                month 1709251200000 "2024-03" None;
                month 1704067200000 "2024-01" (Some 95%float) ] in
  exists overlap,
    detectOverlappingPeriod data = Some overlap
    /\ ov_count overlap = 2
    /\ ov_start overlap = 1704067200000
    /\ ov_end overlap = 1706745600000.
Proof.
  cbv zeta.
  destruct (detectOverlappingPeriod _) as [o |] eqn:Ho;
    [| vm_compute in Ho; discriminate].
  exists o. split; [reflexivity |].
  destruct (proj2 (X6_overlapping_period _) o Ho) as (Hperiods & Hcount & _).
  split; [rewrite Hcount, Hperiods; reflexivity |].
  vm_compute in Ho. injection Ho as <-. split; reflexivity.
Defined.

(** ** The prepared dataset *)

Lemma aggregateToAnnual_length (Math : MathObject) (data : list Row) :
  (length (aggregateToAnnual Math data) <= length data)%nat.
Proof.
  unfold aggregateToAnnual. destruct (len data =? 0); [cbn; lia |].
  destruct (annualMap_invariant data) as (Hnodup & Hkeys & _).
  unfold sortWith. rewrite sortBy_Permutation, length_map.
  rewrite <- (length_fmap fst), <- (length_fmap yearOf data).
  apply submseteq_length, NoDup_submseteq; [exact Hnodup |].
  intros y Hy. now apply Hkeys.
Qed.

Lemma aggregateToAnnual_nonempty (Math : MathObject) (data : list Row) :
  data <> [] -> aggregateToAnnual Math data <> [].
Proof.
  destruct data as [| d data]; [congruence |]. intros _ Hnil.
  apply (not_elem_of_nil (annualRow Math (annualOf (d :: data) (yearOf d)))).
  rewrite <- Hnil. apply elem_of_aggregateToAnnual. exists (yearOf d).
  split; [left | reflexivity].
Qed.

Lemma filter_filter {A} (p : A -> bool) (l : list A) :
  List.filter p (List.filter p l) = List.filter p l.
Proof.
  induction l as [| x l IH]; [reflexivity |]. cbn [List.filter].
  destruct (p x) eqn:Hp; [| exact IH]. cbn [List.filter]. now rewrite Hp, IH.
Qed.

Lemma filter_length_le {A} (p : A -> bool) (l : list A) :
  (length (List.filter p l) <= length l)%nat.
Proof.
  induction l as [| x l IH]; [reflexivity |]. cbn [List.filter].
  destruct (p x); cbn [length]; lia.
Qed.

(** X7: [prepareDataset] answers with one of the three frequencies; 'none'
    exactly when no record has all six required fields, and exactly then the
    data it returns are empty; it never returns more records than it was
    given; and the overlap it reports is always the overlap of the data it
    returns. *)
Theorem X7_prepared_dataset_shape (Math : MathObject) (mergedData : list Row) :
  let prepared := prepareDataset Math mergedData in
  (p_frequency prepared = "none" \/ p_frequency prepared = "annual"
   \/ p_frequency prepared = "monthly")
  /\ (p_frequency prepared = "none"
      <-> forall d, d ∈ mergedData -> allRequiredPresent d = false)
  /\ (p_data prepared = [] <-> p_frequency prepared = "none")
  /\ len (p_data prepared) <= len mergedData
  /\ p_overlap prepared = detectOverlappingPeriod (p_data prepared).
Proof.
  cbv zeta.
  pose proof (detectOverlappingPeriod_None mergedData) as Hnone.
  unfold prepareDataset in *.
  destruct (detectOverlappingPeriod mergedData) as [overlap |] eqn:Hdetect.
  2:{ cbn [p_frequency p_data p_overlap].
      split; [now left |]. split; [split; [intros _; now apply Hnone | reflexivity] |].
      split; [tauto |]. split; [unfold len; cbn [length]; lia | reflexivity]. }
  assert (Hsome : ~ forall d, d ∈ mergedData -> allRequiredPresent d = false).
  { intros Hall. apply Hnone in Hall. discriminate. }
  rewrite detectOverlappingPeriod_periods in Hdetect. cbv zeta in Hdetect.
  destruct (List.filter allRequiredPresent mergedData) as [| d0 complete] eqn:Hcomplete;
    [discriminate |].
  rewrite len_cons in Hdetect. injection Hdetect as <-.
  cbn [ov_count ov_periods]. rewrite len_cons.
  pose proof (filter_length_le allRequiredPresent mergedData) as Hle.
  rewrite Hcomplete in Hle.
  destruct (len (d0 :: complete) <? 20); cbn [p_frequency p_data p_overlap].
  - split; [right; now left |]. split; [split; [discriminate | tauto] |].
    split; [split; [| discriminate] |].
    { intros Hnil. now apply aggregateToAnnual_nonempty in Hnil. }
    split; [| reflexivity].
    pose proof (aggregateToAnnual_length Math (d0 :: complete)). unfold len. lia.
  - split; [right; now right |]. split; [split; [discriminate | tauto] |].
    split; [split; discriminate |].
    split; [unfold len; lia |].
    rewrite detectOverlappingPeriod_periods. cbv zeta.
    rewrite <- Hcomplete, filter_filter, Hcomplete, len_cons. reflexivity.
Qed.

(** ** The order and the intervention dummy of the annual panel *)

Lemma daysToYear_lt (y1 y2 : Z) : y1 < y2 -> daysToYear y1 < daysToYear y2.
Proof.
  intros Hlt. unfold daysToYear. Z.to_euclidean_division_equations. lia.
Qed.

Lemma StronglySorted_distinct_keys {A K} (key : A -> K) (R R' : A -> A -> Prop)
    (l : list A) :
  StronglySorted R l -> NoDup (key <$> l) ->
  (forall a b, a ∈ l -> b ∈ l -> key a <> key b -> R a b -> R' a b) ->
  StronglySorted R' l.
Proof.
  induction 1 as [| a l Hsorted IH Hall]; intros Hnodup HR; [constructor |].
  cbn [fmap list_fmap] in Hnodup. apply NoDup_cons in Hnodup as [Ha Hnodup].
  constructor.
  - apply IH; [exact Hnodup |]. intros x y Hx Hy. apply HR; now right.
  - rewrite Forall_forall in Hall |- *. intros b Hb.
    apply HR; [left | now right | | now apply Hall].
    intros Heq. apply Ha. rewrite Heq. now apply list_elem_of_fmap_2.
Qed.

Lemma aggregateToAnnual_sorted_by_date (Math : MathObject) (data : list Row) :
  StronglySorted (fun a b => getTime (date a) <= getTime (date b))
                 (aggregateToAnnual Math data).
Proof.
  unfold aggregateToAnnual. destruct (len data =? 0); [constructor |].
  unfold sortWith. eapply StronglySorted_weaken; [| apply sortBy_StronglySorted].
  - intros a b Hab. cbv beta in Hab. lia.
  - intros a b Hab. lia.
  - intros a b c Hab Hbc. lia.
Qed.

(** X8: the records of the annual panel are sorted by date, and every one
    carries its year.  When no record of the input falls in the years 0 to 99
    (which [new Date(year, 0, 1)] reads as 1900 to 1999), the annual records
    are in strictly increasing order of their year. *)
Theorem X8_annual_panel_in_year_order (Math : MathObject) (data : list Row) :
  let annual := aggregateToAnnual Math data in
  StronglySorted (fun a b => getTime (date a) <= getTime (date b)) annual
  /\ (forall a, a ∈ annual -> exists y, year a = Some y /\ y ∈ yearOf <$> data)
  /\ ((forall d, d ∈ data -> ~ 0 <= yearOf d <= 99) ->
      StronglySorted
        (fun a b => forall ya yb, year a = Some ya -> year b = Some yb -> ya < yb)
        annual).
Proof.
  cbv zeta. split; [apply aggregateToAnnual_sorted_by_date |]. split.
  - intros a Ha. apply elem_of_aggregateToAnnual in Ha as (y & Hy & ->).
    exists y. split; [reflexivity | exact Hy].
  - intros Hyears.
    apply (StronglySorted_distinct_keys year
             (fun a b => getTime (date a) <= getTime (date b)));
      [apply aggregateToAnnual_sorted_by_date | apply aggregateToAnnual_NoDup_years |].
    intros a b Ha Hb Hne Htime ya yb Hya Hyb.
    apply elem_of_aggregateToAnnual in Ha as (y1 & Hy1 & ->).
    apply elem_of_aggregateToAnnual in Hb as (y2 & Hy2 & ->).
    cbn [annualRow annualOf year a_year a_date date] in *.
    injection Hya as <-. injection Hyb as <-.
    apply list_elem_of_fmap in Hy1 as (d1 & -> & Hd1).
    apply list_elem_of_fmap in Hy2 as (d2 & -> & Hd2).
    pose proof (Hyears d1 Hd1) as H1. pose proof (Hyears d2 Hd2) as H2.
    unfold Date_ofYear in Htime. cbn [getTime] in Htime.
    assert (Hq1 : (0 <=? yearOf d1) && (yearOf d1 <=? 99) = false).
    { apply andb_false_iff. rewrite !Z.leb_gt. lia. }
    assert (Hq2 : (0 <=? yearOf d2) && (yearOf d2 <=? 99) = false).
    { apply andb_false_iff. rewrite !Z.leb_gt. lia. }
    rewrite Hq1, Hq2 in Htime.
    destruct (Z.lt_trichotomy (yearOf d1) (yearOf d2)) as [Hlt | [Heq | Hgt]];
      [exact Hlt | congruence |].
    apply daysToYear_lt in Hgt. lia.
Qed.

(** Months of 2025 and of 2023, given in that order. *)
Lemma X8_annual_panel_in_year_order_witness :
  let month t y ym :=
    mkRow (mkDate t y) ym (Some 100%float) None None (Some 50%float) None
          None None None None None None None None None None None None None None in
  let data := [ month 1735689600000 2025 "2025-01"; month 1672531200000 2023 "2023-01";
                month 1738368000000 2025 "2025-02" ] in
  (forall d, d ∈ data -> ~ 0 <= yearOf d <= 99)
  /\ (forall Math, year <$> aggregateToAnnual Math data = [Some 2023; Some 2025])
  /\ (forall Math,
        StronglySorted
          (fun a b => forall ya yb, year a = Some ya -> year b = Some yb -> ya < yb)
          (aggregateToAnnual Math data)).
Proof.
  cbv zeta.
  match goal with |- ?H /\ _ => assert (Hyears : H) end.
  { intros d Hd. apply list_elem_of_In in Hd. cbn in Hd.
    repeat (destruct Hd as [<- | Hd]; [cbn; lia |]). destruct Hd. }
  split; [exact Hyears |]. split; intros Math.
  - vm_compute. reflexivity.
  - exact (proj2 (proj2 (X8_annual_panel_in_year_order Math _)) Hyears).
Defined.

(** X9: when the monthly records come from the derived panel of the
    preprocessing script (all of it or any selection of it), the intervention
    dummy of an annual record is 1 for the years 2023 to 2025 and 0 for every
    other year. *)
Theorem X9_annual_dummy_follows_year (Math : MathObject) (panel : list MergedRow)
    (data : list Row) (a : Row) (y : Z) :
  (forall d, d ∈ data -> d ∈ calculateDerivedIndicators Math true panel) ->
  a ∈ aggregateToAnnual Math data -> year a = Some y ->
  cbamDummy a = Some (if (2023 <=? y) && (y <=? 2025) then 1%float else 0%float).
Proof.
  intros Hderived Ha Hy. apply elem_of_aggregateToAnnual in Ha as (y' & Hy' & ->).
  cbn [annualRow annualOf year a_year] in Hy. injection Hy as ->.
  cbn [annualRow annualOf cbamDummy a_cbamDummy]. f_equal.
  destruct (rowsOfYear_cons _ _ Hy') as (d & l & Hrows). rewrite Hrows.
  cbn [head mbind option_bind].
  assert (Hd : d ∈ rowsOfYear y data) by (rewrite Hrows; left).
  apply elem_of_rowsOfYear in Hd as [Hd Hyear].
  apply Hderived in Hd. unfold calculateDerivedIndicators in Hd.
  apply list_elem_of_lookup in Hd as (t & Ht). rewrite list_lookup_imap in Ht.
  destruct (panel !! t) as [entry |]; [| discriminate].
  cbn [fmap option_fmap option_map] in Ht. injection Ht as <-.
  unfold yearOf in Hyear. cbn [deriveRow date cbamDummy] in *.
  rewrite Hyear, Z.geb_leb. reflexivity.
Qed.

(** The annual record of two months of 2024. *)
Lemma X9_annual_dummy_follows_year_witness :
  let m t ym q := mkMergedRow (mkDate t 2024) ym (Some q) None None None None in
  let panel := [ m 1704067200000 "2024-01" 100%float;
                 m 1706745600000 "2024-02" 120%float ] in
  (forall Math,
     cbamDummy <$> aggregateToAnnual Math (calculateDerivedIndicators Math true panel)
     = [Some 1%float])
  /\ (forall Math a,
        a ∈ aggregateToAnnual Math (calculateDerivedIndicators Math true panel) ->
        year a = Some 2024 -> cbamDummy a = Some 1%float).
Proof.
  cbv zeta. split.
  - intros Math. vm_compute. reflexivity.
  - intros Math a Ha Hy.
    exact (X9_annual_dummy_follows_year Math _ _ a 2024 (fun d Hd => Hd) Ha Hy).
Defined.

(** ** The descriptive comparison *)

Lemma filter_andb_length_le {A} (p q : A -> bool) (l : list A) :
  len (List.filter (fun x => p x && q x) l) <= len (List.filter p l).
Proof.
  unfold len. induction l as [| x l IH]; cbn [List.filter]; [lia |].
  destruct (p x), (q x); cbn [andb length]; lia.
Qed.

Lemma elem_of_filter {A} (p : A -> bool) (l : list A) (x : A) :
  x ∈ List.filter p l <-> x ∈ l /\ p x = true.
Proof. now rewrite !list_elem_of_In, filter_In. Qed.

(** The median that [calcStats] reads off the sorted values is one of them. *)
Lemma median_defined (values : list float) :
  values <> [] ->
  exists x, at_ (sortNumbers values) (len values / 2) = Some x /\ x ∈ values.
Proof.
  intros Hne. unfold at_.
  assert (Hlen : 0 < len values).
  { destruct values; [congruence |]. unfold len. cbn [length]. lia. }
  destruct (Z.ltb_spec (len values / 2) 0) as [Hneg | _].
  { exfalso. pose proof (Z.div_pos (len values) 2). lia. }
  assert (Hin : (Z.to_nat (len values / 2) < length (sortNumbers values))%nat).
  { unfold sortNumbers. rewrite sortBy_Permutation.
    assert (len values / 2 < len values) by (apply Z.div_lt; lia).
    unfold len in *. lia. }
  apply lookup_lt_is_Some_2 in Hin as [x Hx]. exists x. split; [exact Hx |].
  apply list_elem_of_lookup_2 in Hx. unfold sortNumbers in Hx.
  now rewrite elem_of_sortBy in Hx.
Qed.

Lemma calcStats_medians (side : Row -> bool) (data : list Row) :
  let period := List.filter (fun d => side d && hasImportsAndPrice d) data in
  period <> [] ->
  ps_n (calcStats period) = len period
  /\ (exists d x, d ∈ data /\ side d = true /\ importQuantity_tons d = Some x
                  /\ medianImports (calcStats period) = Some x)
  /\ (exists d x, d ∈ data /\ side d = true /\ etsPrice d = Some x
                  /\ medianPrice (calcStats period) = Some x).
Proof.
  cbv zeta. intros Hne.
  set (period := List.filter (fun d => side d && hasImportsAndPrice d) data) in *.
  assert (Hperiod : forall d, d ∈ period ->
            d ∈ data /\ side d = true
            /\ is_Some (importQuantity_tons d) /\ is_Some (etsPrice d)).
  { intros d Hd. apply elem_of_filter in Hd as [Hd Hp].
    apply andb_prop in Hp as [Hside Hobs]. unfold hasImportsAndPrice in Hobs.
    apply andb_prop in Hobs as [Hq He].
    destruct (importQuantity_tons d), (etsPrice d); try discriminate.
    repeat split; eauto. }
  split; [reflexivity |]. unfold calcStats. cbn [medianImports medianPrice]. split.
  - destruct (median_defined (omap importQuantity_tons period)) as (x & Hx & Hin).
    { intros Hnil. apply (f_equal length) in Hnil.
      rewrite omap_length_all in Hnil by (intros d Hd; now apply Hperiod).
      destruct period; [congruence | discriminate]. }
    apply list_elem_of_omap in Hin as (d & Hd & Hq).
    exists d, x. destruct (Hperiod d Hd) as (Hdata & Hside & _). now repeat split.
  - destruct (median_defined (omap etsPrice period)) as (x & Hx & Hin).
    { intros Hnil. apply (f_equal length) in Hnil.
      rewrite omap_length_all in Hnil by (intros d Hd; now apply Hperiod).
      destruct period; [congruence | discriminate]. }
    apply list_elem_of_omap in Hin as (d & Hd & Hq).
    exists d, x. destruct (Hperiod d Hd) as (Hdata & Hside & _). now repeat split.
Qed.

(** X10: when [calculateCBAMDescriptive] returns a comparison, each side
    counts at least one record and no more than [checkCBAMFeasibility] counts
    on that side (it leaves out the records without an import quantity or a
    carbon price); and each of the four medians is defined and is the value of
    a record of its side. *)
Theorem X10_descriptive_comparison_sides (data : list Row) (c : CBAMDescriptive) :
  calculateCBAMDescriptive data = Some c ->
  1 <= ps_n (d_preCBAM c) <= cv_preCBAM (checkCBAMFeasibility data)
  /\ 1 <= ps_n (d_postCBAM c) <= cv_postCBAM (checkCBAMFeasibility data)
  /\ (exists d x, d ∈ data /\ isPreCBAM d = true /\ importQuantity_tons d = Some x
                  /\ medianImports (d_preCBAM c) = Some x)
  /\ (exists d x, d ∈ data /\ isPreCBAM d = true /\ etsPrice d = Some x
                  /\ medianPrice (d_preCBAM c) = Some x)
  /\ (exists d x, d ∈ data /\ isPostCBAM d = true /\ importQuantity_tons d = Some x
                  /\ medianImports (d_postCBAM c) = Some x)
  /\ (exists d x, d ∈ data /\ isPostCBAM d = true /\ etsPrice d = Some x
                  /\ medianPrice (d_postCBAM c) = Some x).
Proof.
  unfold calculateCBAMDescriptive, checkCBAMFeasibility.
  destruct data as [| d0 data0] eqn:Hdata; [discriminate |].
  rewrite len_cons, <- Hdata. clear Hdata d0 data0. cbv zeta. cbn [cv_preCBAM cv_postCBAM].
  destruct (List.filter (fun d => isPreCBAM d && hasImportsAndPrice d) data)
    as [| d1 l1] eqn:Hpre; [discriminate |].
  destruct (List.filter (fun d => isPostCBAM d && hasImportsAndPrice d) data)
    as [| d2 l2] eqn:Hpost; [rewrite len_cons; discriminate |].
  rewrite !len_cons. cbn [orb]. intros [= <-]. cbn [d_preCBAM d_postCBAM].
  rewrite <- Hpre, <- Hpost.
  destruct (calcStats_medians isPreCBAM data) as (Hn1 & Hm1 & Hp1);
    [rewrite Hpre; discriminate |].
  destruct (calcStats_medians isPostCBAM data) as (Hn2 & Hm2 & Hp2);
    [rewrite Hpost; discriminate |].
  rewrite Hn1, Hn2.
  pose proof (filter_andb_length_le isPreCBAM hasImportsAndPrice data).
  pose proof (filter_andb_length_le isPostCBAM hasImportsAndPrice data).
  repeat split; try assumption.
  - rewrite Hpre. unfold len. cbn [length]. lia.
  - rewrite Hpost. unfold len. cbn [length]. lia.
Qed.

(** Eight records of 2020, three of 2024 and one of 2024 without imports. *)
Lemma X10_descriptive_comparison_sides_witness :
  let record y q :=
    mkRow (mkDate 0 y) "" q None None
          (Some 50%float) (Some 90%float) None None None None None None None None
          (Some 4.6%float) (Some 3.9%float) (Some 4.5%float) (Some 0%float) None None in
  let data := replicate 8 (record 2020 (Some 100%float))
              ++ replicate 3 (record 2024 (Some 80%float)) ++ [record 2024 None] in
  exists c,
    calculateCBAMDescriptive data = Some c
    /\ ps_n (d_postCBAM c) = 3
    /\ cv_postCBAM (checkCBAMFeasibility data) = 4
    /\ 1 <= ps_n (d_postCBAM c) <= cv_postCBAM (checkCBAMFeasibility data).
Proof.
  cbv zeta.
  destruct (calculateCBAMDescriptive _) as [c |] eqn:Hc;
    [| vm_compute in Hc; discriminate].
  exists c. split; [reflexivity |].
  pose proof (proj1 (proj2 (X10_descriptive_comparison_sides _ c Hc))) as Hpost.
  vm_compute in Hc. injection Hc as <-.
  split; [reflexivity |]. split; [reflexivity | exact Hpost].
Defined.

(** ** The shape of a regression result *)

Lemma transpose_length (matrix : Matrix) :
  length (transpose matrix) = length (default [] (matrix !! 0%nat)).
Proof. unfold transpose. apply length_imap. Qed.

Lemma matrixMultiply_length (a b : Matrix) : length (matrixMultiply a b) = length a.
Proof. unfold matrixMultiply. now rewrite length_map, length_seq. Qed.

Lemma calculateStandardErrors_length (XtX : Matrix) (mse : float) :
  length (calculateStandardErrors XtX mse) = length XtX.
Proof. unfold calculateStandardErrors. now rewrite length_map, length_seq. Qed.

Lemma solveLinearSystem_length (A : Matrix) (b : list float) :
  length (solveLinearSystem A b) = length A.
Proof. unfold solveLinearSystem. apply backSubstitution_length. Qed.

Lemma validIndices_length (y : list (option float)) (x : list (list (option float))) :
  len (validIndices y x) <= len y.
Proof.
  unfold validIndices, len.
  pose proof (filter_length_le
                (fun i => validNumber (mjoin (y !! i))
                          && forallb (fun xj => validNumber (mjoin (xj !! i))) x)
                (seq 0 (length y))) as Hle.
  rewrite length_seq in Hle. lia.
Qed.

(** The normal equations of a design with [k] regressors and at least one
    observation have [k + 1] unknowns. *)
Lemma normal_equations_size (rows : list nat) (x : list (list (option float)))
    (y : list (option float)) :
  rows <> [] ->
  let X := map (fun i => 1%float :: map (fun xj => default nan (mjoin (xj !! i))) x) rows in
  length (matrixMultiply (transpose X) X) = S (length x).
Proof.
  cbv zeta. intros Hrows. rewrite matrixMultiply_length, transpose_length.
  destruct rows as [| i rows]; [congruence |].
  cbn [map lookup list_lookup default]. unfold id. cbn [length]. now rewrite length_map.
Qed.

Lemma multipleOLS_Some_shape (Math : MathObject) (y : list (option float))
    (x : list (list (option float))) (r : MultipleOLSResult) :
  multipleOLS Math y x = Some r ->
  length (coefficients r) = S (length x) /\ r_n r = len (validIndices y x).
Proof.
  unfold multipleOLS. cbv zeta.
  destruct (Z.ltb_spec (len y) (len x + 1)); [discriminate |].
  destruct (Z.ltb_spec (len (validIndices y x)) (len x + 1)) as [| Hvalid];
    [discriminate |].
  cbn [Array_truthy negb]. intros [= <-]. cbn [coefficients r_n].
  assert (Hrows : validIndices y x <> []).
  { intros Hnil. rewrite Hnil in Hvalid. unfold len in Hvalid. cbn [length] in Hvalid. lia. }
  pose proof (normal_equations_size _ x y Hrows) as Hsize. cbv zeta in Hsize.
  now rewrite solveLinearSystem_length, Hsize.
Qed.

(** X11: a result of [multipleOLS] is complete: with [k] regressors it has
    [k + 1] coefficients, standard errors, t-statistics and p-values, and its
    [n] is the number of valid observations, at least [k + 1] and at most the
    length of [y]. *)
Theorem X11_multipleOLS_result_shape (Math : MathObject) (y : list (option float))
    (x : list (list (option float))) (r : MultipleOLSResult) :
  multipleOLS Math y x = Some r ->
  length (coefficients r) = S (length x)
  /\ length (standardErrors r) = S (length x)
  /\ length (tStats r) = S (length x)
  /\ length (pValues r) = S (length x)
  /\ r_n r = len (validIndices y x)
  /\ len x + 1 <= r_n r <= len y.
Proof.
  unfold multipleOLS. cbv zeta.
  destruct (Z.ltb_spec (len y) (len x + 1)); [discriminate |].
  destruct (Z.ltb_spec (len (validIndices y x)) (len x + 1)) as [| Hvalid];
    [discriminate |].
  cbn [Array_truthy negb]. intros [= <-].
  cbn [coefficients standardErrors tStats pValues r_n].
  assert (Hrows : validIndices y x <> []).
  { intros Hnil. rewrite Hnil in Hvalid. unfold len in Hvalid. cbn [length] in Hvalid. lia. }
  pose proof (normal_equations_size _ x y Hrows) as Hsize. cbv zeta in Hsize.
  rewrite length_map, length_imap, calculateStandardErrors_length,
    solveLinearSystem_length, Hsize.
  pose proof (validIndices_length y x).
  repeat split; try reflexivity; lia.
Qed.

(** Three observations of one regressor. *)
Lemma X11_multipleOLS_result_shape_witness :
  let y := [Some 1; Some 3; Some 5]%float in
  let x := [[Some 0; Some 1; Some 2]]%float in
  (forall Math, is_Some (multipleOLS Math y x))
  /\ (forall Math, length <$> (coefficients <$> multipleOLS Math y x) = Some 2%nat).
Proof.
  cbv zeta. split; intros Math.
  - eexists. vm_compute. reflexivity.
  - destruct (multipleOLS Math _ _) as [r |] eqn:Hr; [| vm_compute in Hr; discriminate].
    cbn [fmap option_fmap option_map]. f_equal.
    exact (proj1 (X11_multipleOLS_result_shape Math _ _ r Hr)).
Defined.

(** ** [simpleOLS] and the pairs it keeps *)

Lemma validPairs_valid (y x : list (option float)) (p : float * float) :
  p ∈ validPairs y x -> isNaN (fst p) = false /\ isNaN (snd p) = false.
Proof.
  unfold validPairs. rewrite list_elem_of_omap.
  intros ([[yi |] [xi |]] & _ & Hp); try discriminate.
  destruct (isNaN yi) eqn:Hy, (isNaN xi) eqn:Hx; try discriminate.
  injection Hp as <-. now split.
Qed.

Lemma validPairs_length (y x : list (option float)) :
  len (validPairs y x) <= Z.min (len y) (len x).
Proof.
  unfold validPairs, len.
  assert (Hle : forall (l : list (option float * option float)),
            (length (omap (fun yx : option float * option float =>
                             match yx with
                             | (Some yi, Some xi) =>
                                 if negb (isNaN yi) && negb (isNaN xi)
                                 then Some (yi, xi) else None
                             | _ => None
                             end) l) <= length l)%nat).
  { induction l as [| [a b] l IH]; [reflexivity |]. cbn [omap list_omap].
    destruct a as [yi |], b as [xi |]; cbn [length]; try lia.
    destruct (negb (isNaN yi) && negb (isNaN xi)); cbn [length]; lia. }
  specialize (Hle (zip y x)). rewrite length_zip in Hle. lia.
Qed.

Lemma validPairs_of_valid (pairs : list (float * float)) :
  (forall p, p ∈ pairs -> isNaN (fst p) = false /\ isNaN (snd p) = false) ->
  validPairs ((fun p => Some (fst p)) <$> pairs) ((fun p => Some (snd p)) <$> pairs)
  = pairs.
Proof.
  unfold validPairs. induction pairs as [| [a b] pairs IH]; intros Hvalid; [reflexivity |].
  cbn [fmap list_fmap zip zip_with omap list_omap fst snd].
  destruct (Hvalid (a, b)) as [Ha Hb]; [left |]. cbn [fst snd] in Ha, Hb.
  rewrite Ha, Hb. cbn [negb andb]. f_equal. apply IH.
  intros p Hp. apply Hvalid. now right.
Qed.

(** X12: [simpleOLS] returns [null] exactly when fewer than two pairs are
    valid; the [n] of a result is the number of valid pairs, at least 2 and at
    most the shorter of the two arrays; and the result depends on the valid
    pairs alone: dropping the indices where a value is [null] or [NaN] from
    both arrays beforehand gives the same answer. *)
Theorem X12_simpleOLS_pairwise_filter (Math : MathObject) (y x : list (option float)) :
  (simpleOLS Math y x = None <-> len (validPairs y x) < 2)
  /\ (forall r, simpleOLS Math y x = Some r ->
        s_n r = len (validPairs y x) /\ 2 <= s_n r <= Z.min (len y) (len x))
  /\ simpleOLS Math y x
     = simpleOLS Math ((fun p => Some (fst p)) <$> validPairs y x)
                      ((fun p => Some (snd p)) <$> validPairs y x).
Proof.
  split; [| split].
  - unfold simpleOLS. cbv zeta.
    destruct (Z.ltb_spec (len (validPairs y x)) 2); split;
      try reflexivity; try discriminate; lia.
  - intros r. unfold simpleOLS. cbv zeta.
    destruct (Z.ltb_spec (len (validPairs y x)) 2); [discriminate |].
    intros [= <-]. cbn [s_n]. pose proof (validPairs_length y x). lia.
  - unfold simpleOLS.
    rewrite (validPairs_of_valid (validPairs y x)) by apply validPairs_valid.
    reflexivity.
Qed.

(** Four pairs of which two are valid. *)
Lemma X12_simpleOLS_pairwise_filter_witness :
  let y := [Some 1; None; Some 3; Some 5]%float in
  let x := [Some 0; Some 1; Some nan; Some 2]%float in
  (forall Math, is_Some (simpleOLS Math y x))
  /\ (forall Math, s_n <$> simpleOLS Math y x = Some 2).
Proof.
  cbv zeta. split; intros Math.
  - eexists. vm_compute. reflexivity.
  - destruct (simpleOLS Math _ _) as [r |] eqn:Hr; [| vm_compute in Hr; discriminate].
    cbn [fmap option_fmap option_map]. f_equal.
    exact (proj1 (proj1 (proj2 (X12_simpleOLS_pairwise_filter Math _ _)) r Hr)).
Defined.


(** ** The baseline estimator *)

Lemma filter_all {A} (p : A -> bool) (l : list A) :
  (forall x, x ∈ l -> p x = true) -> List.filter p l = l.
Proof.
  induction l as [| x l IH]; intros Hall; [reflexivity |]. cbn [List.filter].
  rewrite (Hall x) by left. f_equal. apply IH. intros z Hz. apply Hall. now right.
Qed.

(** Arrays of numbers none of which is [NaN], all of the length of [ys], leave
    every index valid. *)
Lemma validIndices_all (ys : list float) (xs : list (list float)) :
  (forall v, v ∈ ys -> isNaN v = false) ->
  (forall xj, xj ∈ xs -> length xj = length ys /\ forall v, v ∈ xj -> isNaN v = false) ->
  validIndices (Some <$> ys) ((fun xj : list float => Some <$> xj) <$> xs)
  = seq 0 (length ys).
Proof.
  intros Hys Hxs. unfold validIndices. rewrite length_fmap. apply filter_all.
  intros i Hi. apply elem_of_seq in Hi as [_ Hi]. cbn [Nat.add] in Hi.
  apply andb_true_intro. split.
  - rewrite list_lookup_fmap.
    destruct (lookup_lt_is_Some_2 ys i Hi) as [v Hv]. rewrite Hv. cbn.
    rewrite (Hys v) by (eapply list_elem_of_lookup_2, Hv). reflexivity.
  - apply forallb_forall. intros xj' Hin. apply list_elem_of_In in Hin.
    apply list_elem_of_fmap in Hin as (xj & -> & Hxj).
    destruct (Hxs xj Hxj) as [Hlen Hvalid]. rewrite list_lookup_fmap.
    destruct (lookup_lt_is_Some_2 xj i ltac:(lia)) as [v Hv]. rewrite Hv. cbn.
    rewrite (Hvalid v) by (eapply list_elem_of_lookup_2, Hv). reflexivity.
Qed.

(** The arrays that [alignDataWithCBAM] builds, read off the records it keeps. *)
Lemma alignDataWithCBAM_arrays (data : list Row) (includeInteraction : bool) :
  let kept := List.filter alignable data in
  let cbam d := default 0%float (cbamDummy d) in
  let price d := default nan (etsPrice d) in
  let aligned := alignDataWithCBAM data includeInteraction in
  al_y aligned = (fun d => default nan (logImport d)) <$> kept
  /\ al_x1 aligned = price <$> kept
  /\ al_x2 aligned
     = (fun d => if includeInteraction then (price d * cbam d)%float
                 else default nan (logIndustry d)) <$> kept
  /\ al_x3 aligned
     = (fun d => if includeInteraction then default nan (logIndustry d)
                 else cbam d) <$> kept.
Proof.
  cbv zeta. unfold alignDataWithCBAM.
  set (step := fun (acc : Aligned) (d : Row) => _).
  assert (Hfold : forall l acc,
            al_y (fold_left step l acc)
            = al_y acc ++ ((fun d => default nan (logImport d)) <$> List.filter alignable l)
            /\ al_x1 (fold_left step l acc)
               = al_x1 acc ++ ((fun d => default nan (etsPrice d)) <$> List.filter alignable l)
            /\ al_x2 (fold_left step l acc)
               = al_x2 acc
                 ++ ((fun d => if includeInteraction
                               then (default nan (etsPrice d)
                                     * default 0%float (cbamDummy d))%float
                               else default nan (logIndustry d))
                     <$> List.filter alignable l)
            /\ al_x3 (fold_left step l acc)
               = al_x3 acc
                 ++ ((fun d => if includeInteraction then default nan (logIndustry d)
                               else default 0%float (cbamDummy d))
                     <$> List.filter alignable l)).
  { assert (Hstep : forall acc d,
              step acc d
              = if alignable d
                then mkAligned
                       (al_y acc ++ [default nan (logImport d)])
                       (al_x1 acc ++ [default nan (etsPrice d)])
                       (al_x2 acc
                        ++ [if includeInteraction
                            then (default nan (etsPrice d)
                                  * default 0%float (cbamDummy d))%float
                            else default nan (logIndustry d)])
                       (al_x3 acc
                        ++ [if includeInteraction then default nan (logIndustry d)
                            else default 0%float (cbamDummy d)])
                else acc).
    { intros acc d. unfold step, alignable.
      destruct (logImport d) as [li |], (etsPrice d) as [ets |],
        (logIndustry d) as [lind |]; try reflexivity.
      destruct (negb (isNaN li) && negb (isNaN ets) && (0 <? ets)%float
                && negb (isNaN lind)); [| reflexivity].
      now destruct includeInteraction. }
    induction l as [| d l IH]; intros acc; cbn [fold_left List.filter].
    { cbn [fmap list_fmap]. now rewrite !app_nil_r. }
    destruct (IH (step acc d)) as (Hy & H1 & H2 & H3).
    rewrite Hy, H1, H2, H3, Hstep. clear Hy H1 H2 H3 IH.
    destruct (alignable d); [| repeat split; reflexivity].
    cbn [al_y al_x1 al_x2 al_x3 fmap list_fmap].
    rewrite <- !app_assoc. repeat split; reflexivity. }
  destruct (Hfold data (mkAligned [] [] [] [])) as (Hy & H1 & H2 & H3).
  rewrite Hy, H1, H2, H3. repeat split.
Qed.

Lemma alignable_values (d : Row) :
  alignable d = true ->
  isNaN (default nan (logImport d)) = false
  /\ isNaN (default nan (etsPrice d)) = false
  /\ isNaN (default nan (logIndustry d)) = false.
Proof.
  unfold alignable.
  destruct (logImport d) as [li |], (etsPrice d) as [ets |],
    (logIndustry d) as [lind |]; try discriminate.
  cbn [default]. intros H.
  apply andb_prop in H as [H Hlind]. apply andb_prop in H as [H _].
  apply andb_prop in H as [Hli Hets].
  apply negb_true_iff in Hli, Hets, Hlind. now repeat split.
Qed.

(** X13: on a panel whose intervention dummies are numbers, the baseline
    estimator fits a model exactly when at least twenty records pass the
    alignment test; its 'Regression estimation failed' answer never occurs.
    A fitted model reports that number of records as its [n] and all four of
    its coefficients. *)
Theorem X13_baseline_feasible_iff_twenty_aligned (Math : MathObject)
    (mergedData : list Row) (frequency : string) :
  (forall d c, d ∈ mergedData -> cbamDummy d = Some c -> isNaN c = false) ->
  br_feasible (estimateBaselineModel Math mergedData frequency)
  = (20 <=? len (List.filter alignable mergedData))
  /\ forall e, estimateBaselineModel Math mergedData frequency = BaselineFitted e ->
       be_n e = len (List.filter alignable mergedData)
       /\ is_Some (be_intercept e) /\ is_Some (be_carbonPriceCoeff e)
       /\ is_Some (be_activityCoeff e) /\ is_Some (be_cbamCoeff e).
Proof.
  intros Hdummy. unfold estimateBaselineModel. cbv zeta.
  destruct (alignDataWithCBAM_arrays mergedData false) as (Hy & H1 & H2 & H3).
  cbv zeta in Hy, H1, H2, H3.
  set (kept := List.filter alignable mergedData) in *.
  assert (Hkept : forall d, d ∈ kept -> d ∈ mergedData /\ alignable d = true).
  { intros d Hd. now apply elem_of_filter in Hd. }
  assert (Hlen : len (al_y (alignDataWithCBAM mergedData false)) = len kept).
  { rewrite Hy. unfold len. now rewrite length_fmap. }
  rewrite Hlen.
  destruct (Z.ltb_spec (len kept) 20) as [Hlt | Hge].
  { cbn [br_feasible]. split; [symmetry; apply Z.leb_gt; lia |].
    intros e He. discriminate He. }
  assert (Hvalid : validIndices (Some <$> al_y (alignDataWithCBAM mergedData false))
                     [Some <$> al_x1 (alignDataWithCBAM mergedData false);
                      Some <$> al_x2 (alignDataWithCBAM mergedData false);
                      Some <$> al_x3 (alignDataWithCBAM mergedData false)]
                   = seq 0 (length (al_y (alignDataWithCBAM mergedData false)))).
  { apply (validIndices_all _ [al_x1 (alignDataWithCBAM mergedData false);
                               al_x2 (alignDataWithCBAM mergedData false);
                               al_x3 (alignDataWithCBAM mergedData false)]).
    - rewrite Hy. intros v Hv. apply list_elem_of_fmap in Hv as (d & -> & Hd).
      now apply alignable_values, Hkept.
    - intros xj Hxj. rewrite Hy, length_fmap.
      apply elem_of_cons in Hxj as [-> | Hxj];
        [| apply elem_of_cons in Hxj as [-> | Hxj];
           [| apply list_elem_of_singleton in Hxj as ->]].
      + rewrite H1, length_fmap. split; [reflexivity |].
        intros v Hv. apply list_elem_of_fmap in Hv as (d & -> & Hd).
        now apply alignable_values, Hkept.
      + rewrite H2, length_fmap. split; [reflexivity |].
        intros v Hv. apply list_elem_of_fmap in Hv as (d & -> & Hd).
        now apply alignable_values, Hkept.
      + rewrite H3, length_fmap. split; [reflexivity |].
        intros v Hv. apply list_elem_of_fmap in Hv as (d & -> & Hd).
        destruct (cbamDummy d) as [c |] eqn:Hc; cbn [default]; [| reflexivity].
        apply (Hdummy d c); [now apply Hkept | exact Hc]. }
  destruct (multipleOLS Math _ _) as [result |] eqn:Hresult.
  2:{ exfalso. apply multipleOLS_None in Hresult.
      rewrite Hvalid in Hresult. unfold len in Hresult, Hlen, Hge.
      rewrite !length_fmap, length_seq in Hresult. cbn [length] in Hresult. lia. }
  cbn [br_feasible]. split; [symmetry; apply Z.leb_le; lia |].
  intros e [= <-]. cbn [be_n be_intercept be_carbonPriceCoeff be_activityCoeff be_cbamCoeff].
  destruct (multipleOLS_Some_shape Math _ _ result Hresult) as (Hcoef & Hn).
  split.
  - rewrite Hn, Hvalid. unfold len in *. rewrite length_seq. exact Hlen.
  - cbn [length] in Hcoef.
    repeat split; apply lookup_lt_is_Some_2; lia.
Qed.

(** Twenty complete monthly records before the intervention are fitted;
    nineteen are not. *)
Lemma X13_baseline_feasible_iff_twenty_aligned_witness :
  let record (i : nat) :=
    mkRow (mkDate (1577836800000 + 2592000000 * Z.of_nat i) 2020) "2020-01"
          (Some 100%float) None None (Some 25%float) (Some 98%float)
          None None None None None None None None
          (Some 4.5%float) (Some 3.2%float) (Some 4.6%float) (Some 0%float)
          None None in
  (forall Math,
     br_feasible (estimateBaselineModel Math (record <$> seq 0 20) "monthly") = true)
  /\ (forall Math,
        br_feasible (estimateBaselineModel Math (record <$> seq 0 19) "monthly") = false).
Proof.
  cbv zeta. split; intros Math.
  - refine (eq_trans (proj1 (X13_baseline_feasible_iff_twenty_aligned Math _ _ _)) _).
    + intros d c Hd Hc. apply list_elem_of_fmap in Hd as (i & -> & _).
      cbn in Hc. injection Hc as <-. reflexivity.
    + vm_compute. reflexivity.
  - unfold estimateBaselineModel. cbv zeta.
    replace (len (al_y (alignDataWithCBAM _ false))) with 19 by (vm_compute; reflexivity).
    reflexivity.
Defined.

(** ** The lagged model *)

Lemma imap_fmap_seq {A B} (f : nat -> A -> B) (g : nat -> A) (n : nat) :
  imap f (g <$> seq 0 n) = (fun k => f k (g k)) <$> seq 0 n.
Proof.
  apply list_eq. intros i. rewrite list_lookup_imap, !list_lookup_fmap.
  destruct (seq 0 n !! i) as [k |] eqn:Hk; [| reflexivity].
  apply lookup_seq in Hk as [-> _]. reflexivity.
Qed.

(** The arrays that [alignDataWithLags] builds, read off the indices it keeps. *)
Lemma alignDataWithLags_arrays (data : list Row) (maxLags : nat) :
  let kept := List.filter (lagComplete data maxLags)
                          (seq maxLags (length data - maxLags)) in
  let aligned := alignDataWithLags data maxLags in
  la_y aligned = (fun i => default nan (data !! i ≫= logImport)) <$> kept
  /\ la_activity aligned = (fun i => default nan (data !! i ≫= logIndustry)) <$> kept
  /\ la_carbonPrices aligned
     = (fun k => (fun i => default nan (lagPrice data i k)) <$> kept)
       <$> seq 0 (S maxLags).
Proof.
  cbv zeta. unfold alignDataWithLags.
  set (step := fun (acc : LagAligned) (i : nat) => _).
  assert (Hstep : forall acc i,
            step acc i
            = if lagComplete data maxLags i
              then mkLagAligned
                     (la_y acc ++ [default nan (data !! i ≫= logImport)])
                     (imap (fun k prices => prices ++ [default nan (lagPrice data i k)])
                           (la_carbonPrices acc))
                     (la_activity acc ++ [default nan (data !! i ≫= logIndustry)])
              else acc).
  { intros acc i. unfold step, lagComplete, validNumber.
    destruct (data !! i) as [d |]; [| reflexivity]. cbn [mbind option_bind].
    destruct (logImport d) as [li |], (logIndustry d) as [lind |]; try reflexivity;
      [| now destruct (isNaN li)].
    destruct (isNaN li), (isNaN lind); try reflexivity. cbn [negb orb andb].
    now destruct (allLagsAvailable data maxLags i). }
  assert (Hfold : forall l acc cols,
            la_carbonPrices acc = cols <$> seq 0 (S maxLags) ->
            let kept := List.filter (lagComplete data maxLags) l in
            la_y (fold_left step l acc)
            = la_y acc ++ ((fun i => default nan (data !! i ≫= logImport)) <$> kept)
            /\ la_activity (fold_left step l acc)
               = la_activity acc
                 ++ ((fun i => default nan (data !! i ≫= logIndustry)) <$> kept)
            /\ la_carbonPrices (fold_left step l acc)
               = (fun k => cols k ++ ((fun i => default nan (lagPrice data i k)) <$> kept))
                 <$> seq 0 (S maxLags)).
  { induction l as [| i l IH]; intros acc cols Hcols; cbv zeta;
      cbn [fold_left List.filter].
    { cbn [fmap list_fmap]. rewrite !app_nil_r. repeat split. rewrite Hcols.
      apply list_fmap_ext. intros j k _. now rewrite app_nil_r. }
    rewrite Hstep. destruct (lagComplete data maxLags i).
    - destruct (IH (mkLagAligned
                      (la_y acc ++ [default nan (data !! i ≫= logImport)])
                      (imap (fun k prices =>
                               prices ++ [default nan (lagPrice data i k)])
                            (la_carbonPrices acc))
                      (la_activity acc ++ [default nan (data !! i ≫= logIndustry)]))
                  (fun k => cols k ++ [default nan (lagPrice data i k)]))
        as (Hy & Ha & Hc).
      { cbn [la_carbonPrices]. rewrite Hcols. apply imap_fmap_seq. }
      cbv zeta in Hy, Ha, Hc. rewrite Hy, Ha, Hc. cbn [la_y la_activity].
      rewrite <- !app_assoc. repeat split.
      apply list_fmap_ext. intros j k _. now rewrite <- app_assoc.
    - apply IH, Hcols. }
  destruct (Hfold (seq maxLags (length data - maxLags))
                  (mkLagAligned [] (replicate (S maxLags) []) [])
                  (fun _ => [])) as (Hy & Ha & Hc).
  { cbn [la_carbonPrices]. symmetry.
    rewrite (const_fmap _ (seq 0 (S maxLags)) []) by reflexivity.
    now rewrite length_seq. }
  cbv zeta in Hy, Ha, Hc. rewrite Hy, Ha, Hc. repeat split.
Qed.

(** A number that is not [NaN] is greater than zero exactly when it is not
    less than or equal to zero. *)
Lemma positive_not_leb_zero (p : float) :
  isNaN p = false -> (0 <? p)%float = negb (p <=? 0)%float.
Proof.
  unfold isNaN, PrimFloat.is_nan.
  rewrite FloatAxioms.ltb_spec, FloatAxioms.leb_spec, FloatAxioms.eqb_spec.
  change (Prim2SF 0) with (S754_zero false).
  destruct (Prim2SF p) as [s | s | | s m e]; cbn; try (destruct s; reflexivity).
  discriminate.
Qed.

Lemma validNumber_Some (v : option float) :
  validNumber v = true -> exists x, v = Some x /\ isNaN x = false.
Proof.
  destruct v as [x |]; [| discriminate]. cbn. intros H.
  exists x. split; [reflexivity |]. now apply negb_true_iff.
Qed.

Lemma allLagsAvailable_price (data : list Row) (maxLags i k : nat) :
  allLagsAvailable data maxLags i = true -> (k <= maxLags)%nat ->
  exists p, lagPrice data i k = Some p /\ isNaN p = false /\ (0 <? p)%float = true.
Proof.
  unfold allLagsAvailable. intros Hall Hk.
  rewrite forallb_forall in Hall. specialize (Hall k).
  destruct (lagPrice data i k) as [p |].
  - exists p. split; [reflexivity |].
    assert (Hp : negb (isNaN p || (p <=? 0)%float) = true).
    { apply Hall, in_seq. lia. }
    apply negb_true_iff, orb_false_elim in Hp as [Hnan Hle].
    split; [exact Hnan |]. now rewrite positive_not_leb_zero, Hle.
  - discriminate Hall. apply in_seq. lia.
Qed.

Lemma alignDataWithLags_length (data : list Row) (maxLags : nat) :
  (length (la_y (alignDataWithLags data maxLags)) <= length data - maxLags)%nat.
Proof.
  destruct (alignDataWithLags_arrays data maxLags) as (Hy & _). cbv zeta in Hy.
  rewrite Hy, length_fmap.
  pose proof (filter_length_le (lagComplete data maxLags)
                (seq maxLags (length data - maxLags))) as Hle.
  now rewrite length_seq in Hle.
Qed.

(** X14: [alignDataWithLags] returns [maxLags + 1] price arrays, each as long
    as [y] and [activity], and keeps at most [data.length - maxLags] records.
    The entry [j] of every array comes from one record [data[i]] with
    [i >= maxLags]: [y[j]] is its [logImport], a number, [activity[j]] is its
    [logIndustry], and [carbonPrices[k][j]] is the price of [data[i - k]],
    a number greater than zero. *)
Theorem X14_lag_alignment (data : list Row) (maxLags : nat) :
  let aligned := alignDataWithLags data maxLags in
  length (la_carbonPrices aligned) = S maxLags
  /\ length (la_activity aligned) = length (la_y aligned)
  /\ (forall prices, prices ∈ la_carbonPrices aligned ->
        length prices = length (la_y aligned))
  /\ (length (la_y aligned) <= length data - maxLags)%nat
  /\ forall j yv, la_y aligned !! j = Some yv ->
       exists i d,
         (maxLags <= i)%nat /\ data !! i = Some d
         /\ logImport d = Some yv /\ isNaN yv = false
         /\ logIndustry d = la_activity aligned !! j
         /\ forall k, (k <= maxLags)%nat ->
              exists d' p,
                data !! (i - k)%nat = Some d' /\ etsPrice d' = Some p
                /\ la_carbonPrices aligned !! k ≫= (fun prices => prices !! j) = Some p
                /\ (0 <? p)%float = true.
Proof.
  cbv zeta. destruct (alignDataWithLags_arrays data maxLags) as (Hy & Ha & Hc).
  cbv zeta in Hy, Ha, Hc. rewrite Hy, Ha, Hc. clear Hy Ha Hc.
  set (kept := List.filter (lagComplete data maxLags)
                           (seq maxLags (length data - maxLags))).
  rewrite !length_fmap, length_seq.
  split; [reflexivity |]. split; [reflexivity |]. split; [| split].
  - intros prices Hp. apply list_elem_of_fmap in Hp as (k & -> & _).
    now rewrite length_fmap.
  - pose proof (filter_length_le (lagComplete data maxLags)
                  (seq maxLags (length data - maxLags))) as Hle.
    rewrite length_seq in Hle. subst kept. lia.
  - intros j yv Hj. rewrite list_lookup_fmap in Hj.
    destruct (kept !! j) as [i |] eqn:Hi; [| discriminate Hj].
    cbn [fmap option_fmap option_map] in Hj. injection Hj as Hyv.
    assert (Hin : i ∈ kept) by (eapply list_elem_of_lookup_2, Hi).
    apply elem_of_filter in Hin as [Hseq Hcomplete].
    apply list_elem_of_In, in_seq in Hseq.
    unfold lagComplete in Hcomplete.
    destruct (data !! i) as [d |] eqn:Hd; [| discriminate Hcomplete].
    apply andb_prop in Hcomplete as [Hvalid Hlags].
    apply andb_prop in Hvalid as [Hli Hlind].
    apply validNumber_Some in Hli as (li & Hli & Hnan).
    apply validNumber_Some in Hlind as (lind & Hlind & _).
    cbn [mbind option_bind] in Hyv. rewrite Hli in Hyv. cbn [default] in Hyv. subst yv.
    exists i, d. split; [lia |]. split; [exact Hd |].
    split; [exact Hli |]. split; [exact Hnan |]. split.
    { rewrite list_lookup_fmap, Hi. cbn. rewrite Hd. cbn. now rewrite Hlind. }
    intros k Hk.
    destruct (allLagsAvailable_price data maxLags i k Hlags Hk) as (p & Hp & _ & Hpos).
    pose proof Hp as Hp'. unfold lagPrice in Hp'.
    destruct (data !! (i - k)%nat) as [d' |]; [| discriminate Hp'].
    exists d', p. split; [reflexivity |]. split; [exact Hp' |]. split; [| exact Hpos].
    rewrite list_lookup_fmap.
    assert (Hseqk : seq 0 (S maxLags) !! k = Some k).
    { apply lookup_seq. split; [reflexivity | lia]. }
    rewrite Hseqk. cbn [fmap option_fmap option_map mbind option_bind].
    rewrite list_lookup_fmap, Hi. cbn. now rewrite Hp.
Qed.

(** Four complete records aligned with one lag. *)
Lemma X14_lag_alignment_witness :
  let record (i : nat) :=
    mkRow (mkDate (1577836800000 + 2592000000 * Z.of_nat i) 2020) "2020-01"
          (Some 100%float) None None (Some 25%float) (Some 98%float)
          None None None None None None None None
          (Some 4.5%float) (Some 3.2%float) (Some 4.6%float) (Some 0%float)
          None None in
  length (la_carbonPrices (alignDataWithLags (record <$> seq 0 4) 1)) = 2%nat
  /\ length (la_y (alignDataWithLags (record <$> seq 0 4) 1)) = 3%nat.
Proof.
  cbv zeta. split; [| reflexivity].
  exact (proj1 (X14_lag_alignment _ 1)).
Defined.


Lemma fmap_map_section {A B} (g : B -> A) (f : A -> B) (l : list A) :
  (forall x, g (f x) = x) -> g <$> map f l = l.
Proof.
  intros Hgf. induction l as [| x l IH]; [reflexivity |].
  cbn [map fmap list_fmap]. rewrite Hgf. f_equal. exact IH.
Qed.

(** The normal equations of the lagged design have [K + 3] unknowns. *)
Lemma lagged_design_size (aligned : LagAligned) (K m : nat) :
  (0 < m)%nat ->
  let X :=
    map (fun i =>
           (1%float :: map (fun k => cell (la_carbonPrices aligned) k i) (seq 0 (S K)))
           ++ [elem (la_activity aligned) i])
        (seq 0 m) in
  length (matrixMultiply (transpose X) X) = (K + 3)%nat.
Proof.
  cbv zeta. intros Hm. rewrite matrixMultiply_length, transpose_length.
  destruct m as [| m]; [lia |].
  cbn [seq map lookup list_lookup default]. unfold id.
  rewrite length_app. cbn [length]. rewrite length_map, length_seq. lia.
Qed.

(** What [estimateLaggedModel] answers, by its two tests. *)
Lemma estimateLaggedModel_result (Math : MathObject) (mergedData : list Row)
    (requestedMaxLags : nat) (frequency : string) :
  let K := if String.eqb frequency "annual" then Nat.min requestedMaxLags 1
           else requestedMaxLags in
  let aligned := alignDataWithLags mergedData K in
  exists r,
    estimateLaggedModel Math mergedData requestedMaxLags frequency = Some r
    /\ lr_feasible r
       = (12 + Z.of_nat K <=? len (List.filter hasLaggedInputs mergedData))
         && (12 + Z.of_nat K <=? len (la_y aligned))
    /\ forall e, r = LaggedFitted e ->
         le_maxLags e = K
         /\ le_n e = len (la_y aligned)
         /\ 12 + 2 * Z.of_nat K <= len mergedData
         /\ is_Some (le_intercept e)
         /\ is_Some (le_activityCoeff e)
         /\ lc_lag <$> le_lagCoefficients e = seq 0 (S K)
         /\ forall c, c ∈ le_lagCoefficients e ->
              is_Some (lc_coefficient c) /\ is_Some (lc_se c)
              /\ is_Some (lc_tStat c) /\ is_Some (lc_pValue c).
Proof.
  cbv zeta. unfold estimateLaggedModel. cbv zeta.
  set (K := if String.eqb frequency "annual" then Nat.min requestedMaxLags 1
            else requestedMaxLags).
  set (aligned := alignDataWithLags mergedData K).
  destruct (Z.ltb_spec (len (List.filter hasLaggedInputs mergedData))
                       (10 + Z.of_nat K + 2)) as [Hn | Hn].
  { eexists. split; [reflexivity |]. cbn [lr_feasible]. split.
    - symmetry. apply andb_false_intro1, Z.leb_gt. lia.
    - intros e He. discriminate He. }
  destruct (Z.ltb_spec (len (la_y aligned)) (10 + Z.of_nat K + 2)) as [Ha | Ha].
  { eexists. split; [reflexivity |]. cbn [lr_feasible]. split.
    - symmetry. apply andb_false_intro2, Z.leb_gt. lia.
    - intros e He. discriminate He. }
  cbn [Array_truthy negb].
  assert (Hsize : length (matrixMultiply
                            (transpose
                               (map (fun i =>
                                       (1%float
                                        :: map (fun k => cell (la_carbonPrices aligned) k i)
                                               (seq 0 (S K)))
                                       ++ [elem (la_activity aligned) i])
                                    (seq 0 (length (la_y aligned)))))
                            (map (fun i =>
                                    (1%float
                                     :: map (fun k => cell (la_carbonPrices aligned) k i)
                                            (seq 0 (S K)))
                                    ++ [elem (la_activity aligned) i])
                                 (seq 0 (length (la_y aligned)))))
                  = (K + 3)%nat).
  { apply lagged_design_size. unfold len in Ha. lia. }
  set (XtX := matrixMultiply _ _) in *.
  set (coefficients := solveLinearSystem XtX _).
  assert (Hcoef : length coefficients = (K + 3)%nat).
  { subst coefficients. now rewrite solveLinearSystem_length. }
  set (standardErrors := calculateStandardErrors XtX _).
  assert (Hse : length standardErrors = (K + 3)%nat).
  { subst standardErrors. now rewrite calculateStandardErrors_length. }
  set (tStats := imap _ coefficients).
  assert (Hts : length tStats = (K + 3)%nat).
  { subst tStats. now rewrite length_imap. }
  set (pValues := map _ tStats).
  assert (Hpv : length pValues = (K + 3)%nat).
  { subst pValues. now rewrite length_map. }
  set (lagCoeffs := map _ (seq 0 (S K))).
  assert (Hlags : lc_lag <$> lagCoeffs = seq 0 (S K)).
  { subst lagCoeffs. now apply fmap_map_section. }
  assert (Hstats : forall c, c ∈ lagCoeffs ->
            is_Some (lc_coefficient c) /\ is_Some (lc_se c)
            /\ is_Some (lc_tStat c) /\ is_Some (lc_pValue c)).
  { intros c Hc. subst lagCoeffs.
    apply list_elem_of_In, in_map_iff in Hc as (k & <- & Hk).
    apply in_seq in Hk. cbn [lc_coefficient lc_se lc_tStat lc_pValue].
    repeat split; apply lookup_lt_is_Some_2; lia. }
  clearbody lagCoeffs.
  eexists. split; [reflexivity |]. cbn [lr_feasible]. split.
  { symmetry. apply andb_true_intro. split; apply Z.leb_le; lia. }
  intros e [= <-].
  cbn [le_maxLags le_n le_intercept le_activityCoeff le_lagCoefficients].
  split; [reflexivity |]. split; [reflexivity |]. split.
  { pose proof (alignDataWithLags_length mergedData K) as Hle.
    fold aligned in Hle. unfold len in *. lia. }
  split; [apply lookup_lt_is_Some_2; lia |].
  split; [apply lookup_lt_is_Some_2; lia |].
  split; [exact Hlags | exact Hstats].
Qed.

(** X15: [estimateLaggedModel] always answers with an object, never [null].
    With [K] the requested lag order, capped at 1 for annual data, it fits a
    model exactly when at least [12 + K] records have the three inputs and at
    least [12 + K] records align.  A fitted model reports [K], the number of
    aligned records as [n], one coefficient with its statistics for each lag
    [0..K], an intercept and an activity coefficient; and the panel then has
    at least [12 + 2 K] records. *)
Theorem X15_lagged_model_result (Math : MathObject) (mergedData : list Row)
    (requestedMaxLags : nat) (frequency : string) :
  let K := if String.eqb frequency "annual" then Nat.min requestedMaxLags 1
           else requestedMaxLags in
  let aligned := alignDataWithLags mergedData K in
  exists r,
    estimateLaggedModel Math mergedData requestedMaxLags frequency = Some r
    /\ lr_feasible r
       = (12 + Z.of_nat K <=? len (List.filter hasLaggedInputs mergedData))
         && (12 + Z.of_nat K <=? len (la_y aligned))
    /\ forall e, r = LaggedFitted e ->
         le_maxLags e = K
         /\ le_n e = len (la_y aligned)
         /\ 12 + 2 * Z.of_nat K <= len mergedData
         /\ is_Some (le_intercept e)
         /\ is_Some (le_activityCoeff e)
         /\ lc_lag <$> le_lagCoefficients e = seq 0 (S K)
         /\ forall c, c ∈ le_lagCoefficients e ->
              is_Some (lc_coefficient c) /\ is_Some (lc_se c)
              /\ is_Some (lc_tStat c) /\ is_Some (lc_pValue c).
Proof. apply estimateLaggedModel_result. Qed.


(** ** The lag gate and the lagged model on a complete panel *)

Lemma alignable_inputs (d : Row) :
  alignable d = true ->
  validNumber (logImport d) = true /\ validNumber (logIndustry d) = true
  /\ exists p, etsPrice d = Some p /\ isNaN p = false /\ (0 <? p)%float = true.
Proof.
  unfold alignable, validNumber.
  destruct (logImport d) as [li |], (etsPrice d) as [ets |],
    (logIndustry d) as [lind |]; try discriminate.
  intros H. apply andb_prop in H as [H Hlind]. apply andb_prop in H as [H Hpos].
  apply andb_prop in H as [Hli Hets].
  repeat split; try assumption. exists ets. repeat split; try assumption.
  now apply negb_true_iff.
Qed.

(** Twenty complete monthly records and three lags. *)
Lemma X15_lagged_model_result_witness :
  let record (i : nat) :=
    mkRow (mkDate (1577836800000 + 2592000000 * Z.of_nat i) 2020) "2020-01"
          (Some 100%float) None None (Some 25%float) (Some 98%float)
          None None None None None None None None
          (Some 4.5%float) (Some 3.2%float) (Some 4.6%float) (Some 0%float)
          None None in
  (forall Math, exists r,
     estimateLaggedModel Math (record <$> seq 0 20) 3 "monthly" = Some r
     /\ lr_feasible r = true)
  /\ (forall Math, exists r,
        estimateLaggedModel Math (record <$> seq 0 14) 3 "monthly" = Some r
        /\ lr_feasible r = false).
Proof.
  cbv zeta. split; intros Math.
  - destruct (X15_lagged_model_result Math
                ((fun i : nat =>
                    mkRow (mkDate (1577836800000 + 2592000000 * Z.of_nat i) 2020) "2020-01"
          (Some 100%float) None None (Some 25%float) (Some 98%float)
          None None None None None None None None
          (Some 4.5%float) (Some 3.2%float) (Some 4.6%float) (Some 0%float)
          None None) <$> seq 0 20) 3 "monthly") as (r & Hr & Hfeasible & _).
    exists r. split; [exact Hr | exact Hfeasible].
  - destruct (X15_lagged_model_result Math
                ((fun i : nat =>
                    mkRow (mkDate (1577836800000 + 2592000000 * Z.of_nat i) 2020) "2020-01"
          (Some 100%float) None None (Some 25%float) (Some 98%float)
          None None None None None None None None
          (Some 4.5%float) (Some 3.2%float) (Some 4.6%float) (Some 0%float)
          None None) <$> seq 0 14) 3 "monthly") as (r & Hr & Hfeasible & _).
    exists r. split; [exact Hr | exact Hfeasible].
Defined.


(** On a panel whose records all pass the alignment test, the lagged
    alignment loses exactly the first [maxLags] records. *)
Lemma alignDataWithLags_complete (data : list Row) (maxLags : nat) :
  (forall d, d ∈ data -> alignable d = true) ->
  length (la_y (alignDataWithLags data maxLags)) = (length data - maxLags)%nat.
Proof.
  intros Hall. destruct (alignDataWithLags_arrays data maxLags) as (Hy & _).
  cbv zeta in Hy. rewrite Hy, length_fmap, filter_all; [apply length_seq |].
  intros i Hi. apply list_elem_of_In, in_seq in Hi.
  unfold lagComplete.
  destruct (lookup_lt_is_Some_2 data i ltac:(lia)) as [d Hd]. rewrite Hd.
  destruct (alignable_inputs d) as (Hli & Hlind & _).
  { eapply Hall, list_elem_of_lookup_2, Hd. }
  rewrite Hli, Hlind. cbn [andb].
  unfold allLagsAvailable. apply forallb_forall. intros k Hk. apply in_seq in Hk.
  unfold lagPrice.
  destruct (lookup_lt_is_Some_2 data (i - k) ltac:(lia)) as [d' Hd']. rewrite Hd'.
  destruct (alignable_inputs d') as (_ & _ & p & Hp & Hnan & Hpos).
  { eapply Hall, list_elem_of_lookup_2, Hd'. }
  cbn [mbind option_bind]. rewrite Hp, Hnan. cbn [orb].
  rewrite positive_not_leb_zero in Hpos by exact Hnan. exact Hpos.
Qed.

(** X16: on a panel whose records all pass the alignment test,
    [estimateLaggedModel] fits a model exactly when the panel has at least
    [12 + 2 K] records, [K] being the lag order it uses.  Every lag order from
    1 to the maximum that [determineFeasibleLagLength] grants for the length of
    such a panel is fitted, on all but the first [K] records. *)
Theorem X16_lag_gate_suffices_on_complete_panel (Math : MathObject) (data : list Row)
    (requestedMaxLags : nat) (frequency : string) :
  (forall d, d ∈ data -> alignable d = true) ->
  let K := if String.eqb frequency "annual" then Nat.min requestedMaxLags 1
           else requestedMaxLags in
  (exists r,
     estimateLaggedModel Math data requestedMaxLags frequency = Some r
     /\ lr_feasible r = (12 + 2 * Z.of_nat K <=? len data))
  /\ ((1 <= requestedMaxLags)%nat ->
      Z.of_nat requestedMaxLags
      <= lv_maxLag (determineFeasibleLagLength (len data) frequency defaultMinParams) ->
      exists e,
        estimateLaggedModel Math data requestedMaxLags frequency = Some (LaggedFitted e)
        /\ le_n e = len data - Z.of_nat K).
Proof.
  intros Hall. cbv zeta.
  destruct (estimateLaggedModel_result Math data requestedMaxLags frequency)
    as (r & Hr & Hfeasible & Hfitted).
  cbv zeta in Hfeasible, Hfitted.
  set (K := if String.eqb frequency "annual" then Nat.min requestedMaxLags 1
            else requestedMaxLags) in *.
  assert (Hinputs : len (List.filter hasLaggedInputs data) = len data).
  { rewrite filter_all; [reflexivity |]. intros d Hd.
    destruct (alignable_inputs d (Hall d Hd)) as (Hli & Hlind & p & Hp & _).
    unfold hasLaggedInputs. rewrite Hp.
    destruct (logImport d); [| discriminate Hli].
    destruct (logIndustry d); [reflexivity | discriminate Hlind]. }
  assert (Haligned : len (la_y (alignDataWithLags data K)) = Z.of_nat (length data - K)).
  { unfold len. now rewrite alignDataWithLags_complete. }
  assert (Hiff : lr_feasible r = (12 + 2 * Z.of_nat K <=? len data)).
  { rewrite Hfeasible, Hinputs, Haligned. unfold len.
    destruct (Z.leb_spec (12 + Z.of_nat K) (Z.of_nat (length data))),
             (Z.leb_spec (12 + Z.of_nat K) (Z.of_nat (length data - K))),
             (Z.leb_spec (12 + 2 * Z.of_nat K) (Z.of_nat (length data)));
      cbn [andb]; try reflexivity; lia. }
  split; [exists r; split; [exact Hr | exact Hiff] |].
  intros Hone Hgate. rewrite gate_maxLag_closed_form in Hgate.
  unfold defaultMinParams in Hgate.
  assert (Hlen : 12 + 2 * Z.of_nat K <= len data).
  { subst K. destruct (String.eqb frequency "annual");
      repeat match type of Hgate with
      | context [?a <? ?b] => destruct (Z.ltb_spec a b)
      | context [?a <=? ?b] => destruct (Z.leb_spec a b)
      end; lia. }
  destruct r as [reason n k | e].
  - cbn [lr_feasible] in Hiff. symmetry in Hiff. apply Z.leb_gt in Hiff. lia.
  - exists e. split; [exact Hr |].
    destruct (Hfitted e eq_refl) as (_ & Hn & _). rewrite Hn, Haligned.
    unfold len in *. lia.
Qed.

(** Twenty complete monthly records: the gate grants three lags, and the model
    with three lags is fitted on seventeen records. *)
Lemma X16_lag_gate_suffices_on_complete_panel_witness :
  let record (i : nat) :=
    mkRow (mkDate (1577836800000 + 2592000000 * Z.of_nat i) 2020) "2020-01"
          (Some 100%float) None None (Some 25%float) (Some 98%float)
          None None None None None None None None
          (Some 4.5%float) (Some 3.2%float) (Some 4.6%float) (Some 0%float)
          None None in
  lv_maxLag (determineFeasibleLagLength 20 "monthly" defaultMinParams) = 3
  /\ (forall Math, exists e,
        estimateLaggedModel Math (record <$> seq 0 20) 3 "monthly"
        = Some (LaggedFitted e)
        /\ le_n e = 17).
Proof.
  cbv zeta. split; [reflexivity |]. intros Math.
  refine (proj2 (X16_lag_gate_suffices_on_complete_panel Math _ 3 "monthly" _) _ _).
  - intros d Hd. apply list_elem_of_fmap in Hd as (i & -> & _). reflexivity.
  - lia.
  - vm_compute. discriminate.
Defined.

(** ** The elasticity estimates *)

(** The arrays that [alignData] builds, read off the indices it keeps. *)
Lemma alignData_arrays (data : list Row) (key0 key1 key2 : Row -> option float)
    (lag : nat) :
  let complete i :=
    validNumber (data !! i ≫= key0) && validNumber (data !! (i - lag)%nat ≫= key1)
    && validNumber (data !! (i - lag)%nat ≫= key2) in
  let kept := List.filter complete (seq lag (length data - lag)) in
  let aligned := alignData data (key0, key1, key2) lag in
  ap_y aligned = (fun i => default nan (data !! i ≫= key0)) <$> kept
  /\ ap_x1 aligned = (fun i => default nan (data !! (i - lag)%nat ≫= key1)) <$> kept
  /\ ap_x2 aligned = (fun i => default nan (data !! (i - lag)%nat ≫= key2)) <$> kept.
Proof.
  cbv zeta. unfold alignData.
  set (complete := fun i : nat => _ && _ && _).
  set (step := fun (acc : AlignedPair) (i : nat) => _).
  assert (Hstep : forall acc i,
            step acc i
            = if complete i
              then mkAlignedPair
                     (ap_y acc ++ [default nan (data !! i ≫= key0)])
                     (ap_x1 acc ++ [default nan (data !! (i - lag)%nat ≫= key1)])
                     (ap_x2 acc ++ [default nan (data !! (i - lag)%nat ≫= key2)])
              else acc).
  { intros acc i. unfold step, complete, validNumber.
    destruct (data !! i ≫= key0) as [yVal |]; [| reflexivity].
    destruct (data !! (i - lag)%nat ≫= key1) as [x1Val |];
      [| now destruct (negb (isNaN yVal))].
    destruct (data !! (i - lag)%nat ≫= key2) as [x2Val |];
      [| now destruct (negb (isNaN yVal) && negb (isNaN x1Val))].
    now destruct (negb (isNaN yVal) && negb (isNaN x1Val) && negb (isNaN x2Val)). }
  assert (Hfold : forall l acc,
            ap_y (fold_left step l acc)
            = ap_y acc ++ ((fun i => default nan (data !! i ≫= key0))
                           <$> List.filter complete l)
            /\ ap_x1 (fold_left step l acc)
               = ap_x1 acc ++ ((fun i => default nan (data !! (i - lag)%nat ≫= key1))
                               <$> List.filter complete l)
            /\ ap_x2 (fold_left step l acc)
               = ap_x2 acc ++ ((fun i => default nan (data !! (i - lag)%nat ≫= key2))
                               <$> List.filter complete l)).
  { induction l as [| i l IH]; intros acc; cbn [fold_left List.filter].
    { cbn [fmap list_fmap]. now rewrite !app_nil_r. }
    destruct (IH (step acc i)) as (Hy & H1 & H2). rewrite Hy, H1, H2, Hstep.
    destruct (complete i); [| repeat split; reflexivity].
    cbn [ap_y ap_x1 ap_x2 fmap list_fmap]. rewrite <- !app_assoc.
    repeat split; reflexivity. }
  destruct (Hfold (seq lag (length data - lag)) (mkAlignedPair [] [] []))
    as (Hy & H1 & H2).
  rewrite Hy, H1, H2. repeat split.
Qed.

Lemma validNumber_default (v : option float) :
  validNumber v = true -> isNaN (default nan v) = false.
Proof.
  intros H. apply validNumber_Some in H as (x & -> & Hx). exact Hx.
Qed.

(** What is pushed for one lag. *)
Lemma elasticityAt_spec (Math : MathObject) (mergedData : list Row) (lag : nat) :
  let n := len (ap_y (alignData mergedData (logImport, logETS, logIndustry) lag)) in
  (n <= Z.of_nat (length mergedData - lag))
  /\ if 10 <? n
     then exists e, elasticityAt Math mergedData lag = [e]
            /\ ee_lag e = lag /\ ee_n e = n
            /\ is_Some (elasticity e) /\ is_Some (industryCoeff e)
            /\ is_Some (ee_intercept e)
     else elasticityAt Math mergedData lag = [].
Proof.
  cbv zeta. unfold elasticityAt. cbv zeta.
  destruct (alignData_arrays mergedData logImport logETS logIndustry lag)
    as (Hy & H1 & H2).
  cbv zeta in Hy, H1, H2.
  set (complete := fun i : nat => _ && _ && _) in *.
  set (kept := List.filter complete (seq lag (length mergedData - lag))) in *.
  set (aligned := alignData mergedData (logImport, logETS, logIndustry) lag) in *.
  assert (Hlen : len (ap_y aligned) = len kept).
  { rewrite Hy. unfold len. now rewrite length_fmap. }
  split.
  { rewrite Hlen. unfold len. subst kept.
    pose proof (filter_length_le complete (seq lag (length mergedData - lag))) as Hle.
    rewrite length_seq in Hle. lia. }
  destruct (Z.ltb_spec 10 (len (ap_y aligned))) as [Hmany | Hfew]; [| reflexivity].
  assert (Hkept : forall i, i ∈ kept -> complete i = true).
  { intros i Hi. now apply elem_of_filter in Hi. }
  assert (Hvalid : validIndices (Some <$> ap_y aligned)
                     [Some <$> ap_x1 aligned; Some <$> ap_x2 aligned]
                   = seq 0 (length (ap_y aligned))).
  { apply (validIndices_all _ [ap_x1 aligned; ap_x2 aligned]).
    - rewrite Hy. intros v Hv. apply list_elem_of_fmap in Hv as (i & -> & Hi).
      apply Hkept in Hi. unfold complete in Hi.
      apply andb_prop in Hi as [Hi _]. apply andb_prop in Hi as [Hi _].
      now apply validNumber_default.
    - intros xj Hxj. rewrite Hy, length_fmap.
      apply elem_of_cons in Hxj as [-> | Hxj];
        [| apply list_elem_of_singleton in Hxj as ->].
      + rewrite H1, length_fmap. split; [reflexivity |].
        intros v Hv. apply list_elem_of_fmap in Hv as (i & -> & Hi).
        apply Hkept in Hi. unfold complete in Hi.
        apply andb_prop in Hi as [Hi _]. apply andb_prop in Hi as [_ Hi].
        now apply validNumber_default.
      + rewrite H2, length_fmap. split; [reflexivity |].
        intros v Hv. apply list_elem_of_fmap in Hv as (i & -> & Hi).
        apply Hkept in Hi. unfold complete in Hi.
        apply andb_prop in Hi as [_ Hi].
        now apply validNumber_default. }
  destruct (multipleOLS Math _ _) as [r |] eqn:Hr.
  2:{ exfalso. apply multipleOLS_None in Hr. rewrite Hvalid in Hr.
      unfold len in Hr, Hmany. rewrite !length_fmap, length_seq in Hr.
      cbn [length] in Hr. lia. }
  destruct (multipleOLS_Some_shape Math _ _ r Hr) as (Hcoef & Hn).
  cbn [length] in Hcoef.
  eexists. split; [reflexivity |].
  cbn [ee_lag ee_n elasticity industryCoeff ee_intercept].
  split; [reflexivity |]. split.
  { rewrite Hn, Hvalid. unfold len. now rewrite length_seq. }
  repeat split; apply lookup_lt_is_Some_2; lia.
Qed.

Lemma fold_left_app_concat {A B} (f : A -> list B) (l : list A) (acc : list B) :
  fold_left (fun results x => results ++ f x) l acc = acc ++ concat (f <$> l).
Proof.
  revert acc. induction l as [| x l IH]; intros acc; cbn [fold_left fmap list_fmap concat].
  - now rewrite app_nil_r.
  - now rewrite IH, app_assoc.
Qed.

(** X17: [estimateElasticity] tries lag 0, and with [useLags] the lags
    [1..maxLags], in this order, and reports exactly the lags at which more
    than ten records align.  Each estimate carries the number of records
    aligned at its lag, at most [data.length - lag], and has its elasticity,
    activity coefficient and intercept. *)
Theorem X17_elasticity_lags (Math : MathObject) (mergedData : list Row)
    (useLags : bool) (maxLags : nat) :
  let aligned lag :=
    len (ap_y (alignData mergedData (logImport, logETS, logIndustry) lag)) in
  let results := estimateElasticity Math mergedData useLags maxLags in
  ee_lag <$> results
  = List.filter (fun lag => 10 <? aligned lag)
                (if useLags then seq 0 (S maxLags) else [0%nat])
  /\ forall e, e ∈ results ->
       ee_n e = aligned (ee_lag e)
       /\ 10 < ee_n e <= len mergedData - Z.of_nat (ee_lag e)
       /\ is_Some (elasticity e) /\ is_Some (industryCoeff e)
       /\ is_Some (ee_intercept e).
Proof.
  cbv zeta.
  assert (Hresults : estimateElasticity Math mergedData useLags maxLags
                     = concat (elasticityAt Math mergedData
                               <$> (if useLags then seq 0 (S maxLags) else [0%nat]))).
  { unfold estimateElasticity. cbv zeta. destruct useLags.
    - rewrite fold_left_app_concat. reflexivity.
    - cbn [fmap list_fmap concat]. now rewrite app_nil_r. }
  rewrite Hresults. generalize (if useLags then seq 0 (S maxLags) else [0%nat]).
  intros lags. split.
  - induction lags as [| lag lags IH]; [reflexivity |].
    cbn [fmap list_fmap concat List.filter]. rewrite fmap_app, IH.
    destruct (elasticityAt_spec Math mergedData lag) as [_ Hat]. cbv zeta in Hat.
    destruct (10 <? len (ap_y (alignData mergedData (logImport, logETS, logIndustry) lag))).
    + destruct Hat as (e & -> & <- & _). reflexivity.
    + rewrite Hat. reflexivity.
  - intros e He. apply list_elem_of_In, in_concat in He as (es & Hes & He).
    apply list_elem_of_In in Hes, He.
    apply list_elem_of_fmap in Hes as (lag & -> & _).
    destruct (elasticityAt_spec Math mergedData lag) as [Hle Hat]. cbv zeta in Hle, Hat.
    destruct (Z.ltb_spec 10 (len (ap_y (alignData mergedData
                                          (logImport, logETS, logIndustry) lag))))
      as [Hmany | Hfew].
    + destruct Hat as (e' & Heq & Hlag & Hn & Hstats). rewrite Heq in He.
      apply list_elem_of_singleton in He as ->. rewrite Hlag, Hn.
      split; [reflexivity |]. split; [| exact Hstats].
      split; [exact Hmany |]. unfold len in *. lia.
    + rewrite Hat in He. inversion He.
Qed.

(** Twelve complete records: eleven align at lag 1, ten at lag 2. *)
Lemma X17_elasticity_lags_witness :
  let record (i : nat) :=
    mkRow (mkDate (1577836800000 + 2592000000 * Z.of_nat i) 2020) "2020-01"
          (Some 100%float) None None (Some 25%float) (Some 98%float)
          None None None None None None None None
          (Some 4.5%float) (Some 3.2%float) (Some 4.6%float) (Some 0%float)
          None None in
  (forall Math, ee_lag <$> estimateElasticity Math (record <$> seq 0 12) true 3
                = [0%nat; 1%nat])
  /\ (forall Math, ee_lag <$> estimateElasticity Math (record <$> seq 0 12) false 3
                   = [0%nat]).
Proof.
  cbv zeta. split; intros Math.
  - exact (proj1 (X17_elasticity_lags Math _ true 3)).
  - exact (proj1 (X17_elasticity_lags Math _ false 3)).
Defined.


(** ** Summary statistics *)

Lemma at_in_range {A} (l : list A) (i : Z) :
  0 <= i < len l -> exists x, at_ l i = Some x /\ x ∈ l.
Proof.
  intros Hi. unfold at_, len in *.
  destruct (Z.ltb_spec i 0); [lia |].
  destruct (lookup_lt_is_Some_2 l (Z.to_nat i) ltac:(lia)) as [x Hx].
  exists x. split; [exact Hx |]. eapply list_elem_of_lookup_2, Hx.
Qed.

(** X18: [calculateSummaryStats] answers [null] exactly when no record has a
    number for the variable, and always for a variable name outside its six.
    Otherwise it reports the variable name, the number of records with a
    number as [n], a median, and as minimum and maximum two values that
    records of the data have for the variable. *)
Theorem X18_summary_stats (Math : MathObject) (data : list Row)
    (variableName : string) :
  let valid d := validNumber (summaryVariable variableName d) in
  let n := len (List.filter valid data) in
  (calculateSummaryStats Math data variableName = None <-> n = 0)
  /\ (variableName ∉ ["importQuantity_tons"; "logImport"; "etsPrice";
                       "industryIndex"; "logIndustry"; "cbamDummy"] ->
      calculateSummaryStats Math data variableName = None)
  /\ forall s, calculateSummaryStats Math data variableName = Some s ->
       variable s = variableName
       /\ ss_n s = n /\ 1 <= ss_n s <= len data
       /\ is_Some (ss_median s)
       /\ exists lo hi dlo dhi,
            ss_min s = Some lo /\ ss_max s = Some hi
            /\ dlo ∈ data /\ summaryVariable variableName dlo = Some lo
            /\ dhi ∈ data /\ summaryVariable variableName dhi = Some hi.
Proof.
  cbv zeta. unfold calculateSummaryStats. cbv zeta.
  set (pick := fun d : Row => match summaryVariable variableName d with
                              | Some v => if negb (isNaN v) then Some v else None
                              | None => None
                              end).
  set (values := omap pick data).
  assert (Hcount : len values = len (List.filter
                                       (fun d => validNumber (summaryVariable variableName d))
                                       data)).
  { unfold len, values. f_equal. clear.
    induction data as [| d data IH]; [reflexivity |].
    cbn [omap list_omap List.filter]. unfold pick at 1, validNumber at 1.
    destruct (summaryVariable variableName d) as [v |]; [| exact IH].
    destruct (negb (isNaN v)); cbn; [now f_equal | exact IH]. }
  assert (Hvalues : forall v, v ∈ values ->
            exists d, d ∈ data /\ summaryVariable variableName d = Some v).
  { intros v Hv. apply list_elem_of_omap in Hv as (d & Hd & Hpick).
    exists d. split; [exact Hd |]. unfold pick in Hpick.
    destruct (summaryVariable variableName d) as [w |]; [| discriminate Hpick].
    destruct (negb (isNaN w)); [| discriminate Hpick]. now injection Hpick as ->. }
  rewrite <- Hcount. split; [| split].
  - destruct (Z.eqb_spec (len values) 0); split; try reflexivity; try discriminate; lia.
  - intros Hunknown.
    assert (Hnone : forall d, summaryVariable variableName d = None).
    { intros d. unfold summaryVariable.
      repeat match goal with
      | |- context [String.eqb variableName ?name] =>
          destruct (String.eqb_spec variableName name) as [-> | _];
          [exfalso; apply Hunknown, list_elem_of_In; cbn; tauto |]
      end. reflexivity. }
    assert (Hempty : values = []).
    { unfold values. clear - Hnone. induction data as [| d data IH]; [reflexivity |].
      cbn [omap list_omap]. unfold pick at 1. now rewrite Hnone. }
    now rewrite Hempty.
  - destruct (Z.eqb_spec (len values) 0) as [| Hpos]; [discriminate |].
    intros s [= <-]. cbn [variable ss_n ss_median ss_min ss_max].
    assert (Hle : len values <= len data).
    { rewrite Hcount. unfold len.
      pose proof (filter_length_le
                    (fun d => validNumber (summaryVariable variableName d)) data). lia. }
    assert (Hn : 1 <= len values) by (unfold len in *; lia).
    assert (Hsorted : len (sortNumbers values) = len values).
    { unfold len, sortNumbers. now rewrite sortBy_Permutation. }
    split; [reflexivity |]. split; [reflexivity |]. split; [lia |].
    rewrite Hsorted. split.
    + destruct (Z.eqb_spec (len values mod 2) 0) as [Heven | Hodd].
      * destruct (at_in_range (sortNumbers values) (len values / 2 - 1)) as (a & -> & _).
        { rewrite Hsorted. pose proof (Z.div_mod (len values) 2). lia. }
        destruct (at_in_range (sortNumbers values) (len values / 2)) as (b & -> & _).
        { rewrite Hsorted. pose proof (Z.div_mod (len values) 2). lia. }
        eexists. reflexivity.
      * destruct (at_in_range (sortNumbers values) (len values / 2)) as (b & -> & _).
        { rewrite Hsorted. pose proof (Z.div_mod (len values) 2).
          pose proof (Z.mod_pos_bound (len values) 2). lia. }
        eexists. reflexivity.
    + destruct (at_in_range (sortNumbers values) 0) as (lo & Hlo & Hlo_in);
        [rewrite Hsorted; lia |].
      destruct (at_in_range (sortNumbers values) (len values - 1)) as (hi & Hhi & Hhi_in);
        [rewrite Hsorted; lia |].
      apply elem_of_sortBy, Hvalues in Hlo_in as (dlo & Hdlo & Hvlo).
      apply elem_of_sortBy, Hvalues in Hhi_in as (dhi & Hdhi & Hvhi).
      exists lo, hi, dlo, dhi. repeat split; assumption.
Qed.

(** The logarithm of the carbon price is not one of the six variables. *)
Lemma X18_summary_stats_witness :
  let record :=
    mkRow (mkDate 1577836800000 2020) "2020-01"
          (Some 100%float) None None (Some 25%float) (Some 98%float)
          None None None None None None None None
          (Some 4.5%float) (Some 3.2%float) (Some 4.6%float) (Some 0%float)
          None None in
  (forall Math, calculateSummaryStats Math [record; record] "logETS" = None)
  /\ (forall Math,
        ss_n <$> calculateSummaryStats Math [record; record] "etsPrice" = Some 2).
Proof.
  cbv zeta. split; intros Math.
  - refine (proj1 (proj2 (X18_summary_stats Math _ "logETS")) _).
    intros Hin. repeat (apply elem_of_cons in Hin as [Hin | Hin]; [discriminate Hin |]).
    inversion Hin.
  - reflexivity.
Defined.

(** ** Grouping by a string key *)

Section StringGroups.

Context {E V : Type}.
Variable key : E -> string.
Variable init : E -> V.
Variable upd : E -> V -> V.

Lemma StringMap_has_keys (m : list (string * V)) (k : string) :
  StringMap_has m k = Set_has m.*1 k.
Proof.
  unfold Set_has. induction m as [| [k' v] m IH]; [reflexivity |].
  cbn [StringMap_has fmap list_fmap fst existsb]. now rewrite IH, String.eqb_sym.
Qed.

Lemma StringMap_update_keys (m : list (string * V)) (k : string) (f : V -> V) :
  (StringMap_update m k f).*1 = m.*1.
Proof.
  induction m as [| [k' v] m IH]; [reflexivity |].
  cbn [StringMap_update]. destruct (String.eqb k' k); cbn [fmap list_fmap fst];
    [reflexivity |]. f_equal. exact IH.
Qed.

Lemma elem_of_StringMap_update (m : list (string * V)) (k : string) (f : V -> V)
    (k' : string) (v' : V) :
  NoDup m.*1 ->
  (k', v') ∈ StringMap_update m k f ->
  (k' <> k /\ (k', v') ∈ m) \/ (k' = k /\ exists v, (k, v) ∈ m /\ v' = f v).
Proof.
  induction m as [| [k0 v0] m IH]; cbn [StringMap_update fmap list_fmap fst].
  - intros _ H. now apply elem_of_nil in H.
  - intros Hnodup. apply NoDup_cons in Hnodup as [Hk0 Hnodup].
    destruct (String.eqb_spec k0 k) as [-> | Hne].
    + intros Hin. apply elem_of_cons in Hin as [[= -> ->] | Hin].
      * right. split; [reflexivity |]. exists v0. split; [left | reflexivity].
      * left. split; [| now right].
        intros ->. apply Hk0. now apply (list_elem_of_fmap_2 fst) in Hin.
    + intros Hin. apply elem_of_cons in Hin as [[= -> ->] | Hin].
      * left. split; [exact Hne | left].
      * destruct (IH Hnodup Hin) as [[Hk' Hin'] | (-> & v & Hin' & ->)].
        -- left. split; [exact Hk' | now right].
        -- right. split; [reflexivity |]. exists v. split; [now right | reflexivity].
Qed.

Lemma distinctBy_snoc (l : list E) (x : E) :
  distinctBy key (l ++ [x]) = Set_add (distinctBy key l) (key x).
Proof. unfold distinctBy. now rewrite fold_left_app. Qed.

Lemma elem_of_distinctBy (l : list E) (k : string) :
  k ∈ distinctBy key l <-> k ∈ key <$> l.
Proof.
  unfold distinctBy. rewrite (proj1 (fold_Set_add key l [])), elem_of_nil. tauto.
Qed.

Lemma NoDup_distinctBy (l : list E) : NoDup (distinctBy key l).
Proof. unfold distinctBy. apply fold_Set_add, NoDup_nil_2. Qed.

Lemma groupOf_snoc (k : string) (l : list E) (x : E) :
  groupOf key k (l ++ [x])
  = groupOf key k l ++ (if String.eqb (key x) k then [x] else []).
Proof. unfold groupOf. rewrite List.filter_app. reflexivity. Qed.

Lemma groupOf_nil (k : string) (l : list E) :
  k ∉ key <$> l -> groupOf key k l = [].
Proof.
  intros Hk. unfold groupOf. induction l as [| e l IH]; [reflexivity |].
  cbn [List.filter]. destruct (String.eqb_spec (key e) k) as [<- | _].
  - exfalso. apply Hk. cbn [fmap list_fmap]. left.
  - apply IH. intros Hin. apply Hk. cbn [fmap list_fmap]. now right.
Qed.

Lemma elem_of_groupOf (k : string) (l : list E) (e : E) :
  e ∈ groupOf key k l <-> e ∈ l /\ key e = k.
Proof. unfold groupOf. now rewrite elem_of_filter, String.eqb_eq. Qed.

(** The loop [if (!map.has(key)) map.set(key, init); update(map.get(key))]
    over the entries leaves one object per key, in the order in which the keys
    first appear, and the object of a key is the initial object of its first
    entry updated by every entry of the key in turn. *)
Lemma group_fold (l : list E) :
  let m :=
    fold_left
      (fun m e =>
         StringMap_update
           (if StringMap_has m (key e) then m else m ++ [(key e, init e)])
           (key e) (upd e))
      l [] in
  m.*1 = distinctBy key l
  /\ forall k v, (k, v) ∈ m ->
       exists e0 es, groupOf key k l = e0 :: es
         /\ v = fold_left (fun v e => upd e v) (e0 :: es) (init e0).
Proof.
  cbv zeta. induction l as [| x l IH] using rev_ind.
  { split; [reflexivity |]. intros k v H. now apply elem_of_nil in H. }
  rewrite fold_left_app. cbn [fold_left].
  destruct IH as [Hkeys Hvals].
  set (m := fold_left _ l []) in *.
  set (m' := if StringMap_has m (key x) then m else m ++ [(key x, init x)]).
  assert (Hkeys' : m'.*1 = Set_add m.*1 (key x)).
  { subst m'. unfold Set_add. rewrite StringMap_has_keys.
    destruct (Set_has m.*1 (key x)); [reflexivity |]. now rewrite fmap_app. }
  split.
  { rewrite StringMap_update_keys, Hkeys', Hkeys. symmetry. apply distinctBy_snoc. }
  intros k v Hin.
  apply elem_of_StringMap_update in Hin.
  2:{ rewrite Hkeys', Hkeys. apply NoDup_Set_add, NoDup_distinctBy. }
  rewrite groupOf_snoc.
  destruct Hin as [[Hne Hin] | (-> & v0 & Hin & ->)].
  - assert (Hin' : (k, v) ∈ m).
    { subst m'. destruct (StringMap_has m (key x)); [exact Hin |].
      apply elem_of_app in Hin as [Hin | Hin]; [exact Hin |].
      apply list_elem_of_singleton in Hin. injection Hin as -> _. congruence. }
    destruct (Hvals k v Hin') as (e0 & es & Hgroup & ->).
    exists e0, es. split; [| reflexivity].
    destruct (String.eqb_spec (key x) k) as [Heq | _]; [congruence |].
    now rewrite app_nil_r.
  - rewrite String.eqb_refl. subst m'.
    destruct (StringMap_has m (key x)) eqn:Hhas.
    + destruct (Hvals _ _ Hin) as (e0 & es & Hgroup & ->).
      exists e0, (es ++ [x]). rewrite Hgroup. split; [reflexivity |].
      change (e0 :: es ++ [x]) with ((e0 :: es) ++ [x]).
      now rewrite fold_left_app.
    + assert (Hfresh : key x ∉ key <$> l).
      { rewrite <- elem_of_distinctBy, <- Hkeys, <- Set_has_true,
          <- StringMap_has_keys, Hhas. discriminate. }
      apply elem_of_app in Hin as [Hin | Hin].
      { exfalso. apply Hfresh. rewrite <- elem_of_distinctBy, <- Hkeys.
        now apply (list_elem_of_fmap_2 fst) in Hin. }
      apply list_elem_of_singleton in Hin. injection Hin as ->.
      exists x, []. rewrite (groupOf_nil _ _ Hfresh). split; reflexivity.
Qed.

End StringGroups.

Lemma fold_left_add_sum {E} (f : E -> float) (l : list E) (acc : float) :
  fold_left (fun v e => (v + f e)%float) l acc
  = fold_left (fun a v => PrimFloat.add a v) (f <$> l) acc.
Proof.
  revert acc. induction l as [| e l IH]; intros acc; [reflexivity |].
  cbn [fold_left fmap list_fmap]. apply IH.
Qed.

(** ** The aggregation of the import entries *)

Lemma distinctBy_length {E} (key : E -> string) (l : list E) :
  (length (distinctBy key l) <= length l)%nat.
Proof.
  induction l as [| x l IH] using rev_ind; [reflexivity |].
  rewrite distinctBy_snoc, length_app. unfold Set_add.
  destruct (Set_has (distinctBy key l) (key x)); [| rewrite length_app];
    cbn [length]; lia.
Qed.

Section ImportAggregationProperties.

Variable getMonth : JsDate -> Z.

(** The two maps of [aggregateImports] are built independently. *)
Lemma aggregateStep_maps (l : list ImportByCountry)
    (totalByPeriod : list (string * PeriodTotal))
    (byCountry : list (string * ImportByCountry)) :
  fold_left (aggregateStep getMonth) l (totalByPeriod, byCountry)
  = (fold_left
       (fun m e =>
          StringMap_update
            (if StringMap_has m (periodKey getMonth e) then m
             else m ++ [(periodKey getMonth e,
                         mkPeriodTotal (bc_date e) (periodKey getMonth e) 0 0 [])])
            (periodKey getMonth e)
            (fun total =>
               mkPeriodTotal (pt_date total) (pt_yearMonth total)
                 (pt_totalQuantity_tons total + quantity_tons e)
                 (pt_totalValue_eur total + value_eur e)
                 (Set_add (pt_countries total) (partnerCountry e))))
       l totalByPeriod,
     fold_left
       (fun m e =>
          StringMap_update
            (if StringMap_has m (countryKey getMonth e) then m
             else m ++ [(countryKey getMonth e,
                         mkImportByCountry (bc_date e) (periodKey getMonth e)
                           (partnerCountry e) 0 0)])
            (countryKey getMonth e)
            (fun country =>
               mkImportByCountry (bc_date country) (bc_yearMonth country)
                 (partnerCountry country)
                 (quantity_tons country + quantity_tons e)
                 (value_eur country + value_eur e)))
       l byCountry).
Proof.
  revert totalByPeriod byCountry.
  induction l as [| e l IH]; intros totalByPeriod byCountry; [reflexivity |].
  cbn [fold_left]. unfold aggregateStep at 2. cbn [fst snd]. apply IH.
Qed.

Lemma fold_period_total (es : list ImportByCountry) (acc : PeriodTotal) :
  fold_left
    (fun v e =>
       mkPeriodTotal (pt_date v) (pt_yearMonth v)
         (pt_totalQuantity_tons v + quantity_tons e)
         (pt_totalValue_eur v + value_eur e)
         (Set_add (pt_countries v) (partnerCountry e)))
    es acc
  = mkPeriodTotal (pt_date acc) (pt_yearMonth acc)
      (fold_left (fun a v => PrimFloat.add a v) (quantity_tons <$> es)
                 (pt_totalQuantity_tons acc))
      (fold_left (fun a v => PrimFloat.add a v) (value_eur <$> es)
                 (pt_totalValue_eur acc))
      (fold_left (fun s e => Set_add s (partnerCountry e)) es (pt_countries acc)).
Proof.
  revert acc. induction es as [| e es IH]; intros acc; [now destruct acc |].
  cbn [fold_left fmap list_fmap]. now rewrite IH.
Qed.

Lemma fold_country_total (es : list ImportByCountry) (acc : ImportByCountry) :
  fold_left
    (fun v e =>
       mkImportByCountry (bc_date v) (bc_yearMonth v) (partnerCountry v)
         (quantity_tons v + quantity_tons e) (value_eur v + value_eur e))
    es acc
  = mkImportByCountry (bc_date acc) (bc_yearMonth acc) (partnerCountry acc)
      (fold_left (fun a v => PrimFloat.add a v) (quantity_tons <$> es)
                 (quantity_tons acc))
      (fold_left (fun a v => PrimFloat.add a v) (value_eur <$> es) (value_eur acc)).
Proof.
  revert acc. induction es as [| e es IH]; intros acc; [now destruct acc |].
  cbn [fold_left fmap list_fmap]. now rewrite IH.
Qed.

(** The records of [total], by the period keys of the entries. *)
Lemma aggregateImports_total (importsData : list ImportByCountry) :
  let result := total (aggregateImports getMonth importsData) in
  it_yearMonth <$> result = distinctBy (periodKey getMonth) importsData
  /\ NoDup (it_yearMonth <$> result)
  /\ len result <= len importsData
  /\ forall t, t ∈ result ->
       exists e0 es,
         groupOf (periodKey getMonth) (it_yearMonth t) importsData = e0 :: es
         /\ it_date t = bc_date e0
         /\ totalQuantity_tons t = sum (quantity_tons <$> e0 :: es)
         /\ totalValue_eur t = sum (value_eur <$> e0 :: es)
         /\ countries t = distinctBy partnerCountry (e0 :: es)
         /\ unit_value t
            = if (0 <? totalQuantity_tons t)%float
              then (totalValue_eur t / totalQuantity_tons t)%float else 0%float.
Proof.
  cbv zeta. unfold aggregateImports. cbv zeta. cbn [total].
  rewrite aggregateStep_maps. cbn [fst].
  destruct (group_fold (periodKey getMonth)
              (fun e => mkPeriodTotal (bc_date e) (periodKey getMonth e) 0 0 [])
              (fun e total =>
                 mkPeriodTotal (pt_date total) (pt_yearMonth total)
                   (pt_totalQuantity_tons total + quantity_tons e)
                   (pt_totalValue_eur total + value_eur e)
                   (Set_add (pt_countries total) (partnerCountry e)))
              importsData) as [Hkeys Hvals].
  cbv zeta in Hkeys, Hvals.
  set (m := fold_left _ importsData []) in *.
  assert (Hrecord : forall k v, (k, v) ∈ m ->
            exists e0 es,
              groupOf (periodKey getMonth) k importsData = e0 :: es
              /\ v = mkPeriodTotal (bc_date e0) k
                       (sum (quantity_tons <$> e0 :: es))
                       (sum (value_eur <$> e0 :: es))
                       (distinctBy partnerCountry (e0 :: es))).
  { intros k v Hin. destruct (Hvals k v Hin) as (e0 & es & Hgroup & ->).
    exists e0, es. split; [exact Hgroup |].
    rewrite fold_period_total. cbn [pt_date pt_yearMonth pt_totalQuantity_tons
                                    pt_totalValue_eur pt_countries].
    assert (He0 : periodKey getMonth e0 = k).
    { apply (elem_of_groupOf (periodKey getMonth) k importsData e0).
      rewrite Hgroup. left. }
    rewrite He0. reflexivity. }
  match goal with
  | |- context [map ?f m] => change (map f m) with (f <$> m)
  end.
  assert (Hyms : it_yearMonth
                 <$> ((fun kv : string * PeriodTotal =>
                         {| it_date := pt_date (snd kv);
                            it_yearMonth := pt_yearMonth (snd kv);
                            totalQuantity_tons := pt_totalQuantity_tons (snd kv);
                            totalValue_eur := pt_totalValue_eur (snd kv);
                            countries := pt_countries (snd kv);
                            unit_value :=
                              if (0 <? pt_totalQuantity_tons (snd kv))%float
                              then (pt_totalValue_eur (snd kv)
                                    / pt_totalQuantity_tons (snd kv))%float
                              else 0%float |}) <$> m)
                 = m.*1).
  { rewrite <- list_fmap_compose. apply list_fmap_ext. intros i [k v] Hi.
    apply list_elem_of_lookup_2 in Hi.
    destruct (Hrecord k v Hi) as (e0 & es & _ & ->). reflexivity. }
  rewrite Hyms, Hkeys.
  split; [reflexivity |]. split; [apply NoDup_distinctBy |]. split.
  { unfold len. rewrite length_fmap.
    rewrite <- (length_fmap fst m), Hkeys.
    pose proof (distinctBy_length (periodKey getMonth) importsData). lia. }
  intros t Ht. apply list_elem_of_fmap in Ht as ([k v] & -> & Hin).
  destruct (Hrecord k v Hin) as (e0 & es & Hgroup & ->).
  cbn [snd it_date it_yearMonth totalQuantity_tons totalValue_eur countries unit_value
       pt_date pt_yearMonth pt_totalQuantity_tons pt_totalValue_eur pt_countries].
  exists e0, es. repeat split; try reflexivity. exact Hgroup.
Qed.

(** X19: [aggregateImports] returns in [total] one record per period key of
    the entries, in the order in which the keys first appear.  The record of
    a period carries the date of the first entry of the period, the sums of
    the quantities and of the values of its entries, taken in their order,
    and the partner countries of its entries, each once; its unit value is
    the value per ton, and 0 when the quantity is not greater than zero. *)
Theorem X19_import_totals_by_period (importsData : list ImportByCountry) :
  let result := total (aggregateImports getMonth importsData) in
  it_yearMonth <$> result = distinctBy (periodKey getMonth) importsData
  /\ NoDup (it_yearMonth <$> result)
  /\ len result <= len importsData
  /\ forall t, t ∈ result ->
       exists e0 es,
         groupOf (periodKey getMonth) (it_yearMonth t) importsData = e0 :: es
         /\ it_date t = bc_date e0
         /\ totalQuantity_tons t = sum (quantity_tons <$> e0 :: es)
         /\ totalValue_eur t = sum (value_eur <$> e0 :: es)
         /\ countries t = distinctBy partnerCountry (e0 :: es)
         /\ unit_value t
            = if (0 <? totalQuantity_tons t)%float
              then (totalValue_eur t / totalQuantity_tons t)%float else 0%float.
Proof. apply aggregateImports_total. Qed.

(** X20: [aggregateImports] returns in [byCountry] one record per composite
    key [period_country] of the entries, in the order in which the keys first
    appear, never more records than entries.  A record carries the date, the
    period and the partner country of the first entry of its key, and the
    sums of the quantities and of the values of the entries of the key. *)
Theorem X20_imports_by_country (importsData : list ImportByCountry) :
  let result := byCountry (aggregateImports getMonth importsData) in
  recordKey <$> result
  = distinctBy (countryKey getMonth) importsData
  /\ NoDup (recordKey <$> result)
  /\ len result <= len importsData
  /\ forall b, b ∈ result ->
       exists e0 es,
         groupOf (countryKey getMonth) (recordKey b) importsData = e0 :: es
         /\ bc_date b = bc_date e0
         /\ bc_yearMonth b = periodKey getMonth e0
         /\ partnerCountry b = partnerCountry e0
         /\ quantity_tons b = sum (quantity_tons <$> e0 :: es)
         /\ value_eur b = sum (value_eur <$> e0 :: es).
Proof.
  cbv zeta. unfold aggregateImports. cbv zeta. cbn [byCountry].
  rewrite aggregateStep_maps. cbn [snd].
  destruct (group_fold (countryKey getMonth)
              (fun e => mkImportByCountry (bc_date e) (periodKey getMonth e)
                          (partnerCountry e) 0 0)
              (fun e country =>
                 mkImportByCountry (bc_date country) (bc_yearMonth country)
                   (partnerCountry country)
                   (quantity_tons country + quantity_tons e)
                   (value_eur country + value_eur e))
              importsData) as [Hkeys Hvals].
  cbv zeta in Hkeys, Hvals.
  set (m := fold_left _ importsData []) in *.
  assert (Hrecord : forall k v, (k, v) ∈ m ->
            exists e0 es,
              groupOf (countryKey getMonth) k importsData = e0 :: es
              /\ k = countryKey getMonth e0
              /\ v = mkImportByCountry (bc_date e0) (periodKey getMonth e0)
                       (partnerCountry e0)
                       (sum (quantity_tons <$> e0 :: es))
                       (sum (value_eur <$> e0 :: es))).
  { intros k v Hin. destruct (Hvals k v Hin) as (e0 & es & Hgroup & ->).
    exists e0, es. split; [exact Hgroup |]. split.
    - symmetry. apply (elem_of_groupOf (countryKey getMonth) k importsData e0).
      rewrite Hgroup. left.
    - rewrite fold_country_total. reflexivity. }
  change (map snd m) with (snd <$> m).
  assert (Hcks : recordKey <$> (snd <$> m)
                 = m.*1).
  { rewrite <- list_fmap_compose. apply list_fmap_ext. intros i [k v] Hi.
    apply list_elem_of_lookup_2 in Hi.
    destruct (Hrecord k v Hi) as (e0 & es & _ & -> & ->). reflexivity. }
  rewrite Hcks, Hkeys.
  split; [reflexivity |]. split; [apply NoDup_distinctBy |]. split.
  { unfold len. rewrite length_fmap.
    rewrite <- (length_fmap fst m), Hkeys.
    pose proof (distinctBy_length (countryKey getMonth) importsData). lia. }
  intros b Hb. apply list_elem_of_fmap in Hb as ([k v] & -> & Hin).
  destruct (Hrecord k v Hin) as (e0 & es & Hgroup & -> & ->).
  cbn [snd bc_date bc_yearMonth partnerCountry quantity_tons value_eur].
  exists e0, es. repeat split; try reflexivity. exact Hgroup.
Qed.

End ImportAggregationProperties.

(** ** The ranking of the partner countries *)

Lemma fold_country_totals (es : list ImportByCountry) (acc : CountryTotal) :
  fold_left
    (fun v e =>
       mkCountryTotal (ct_country v)
         (ct_totalQuantity_tons v + quantity_tons e)
         (ct_totalValue_eur v + value_eur e))
    es acc
  = mkCountryTotal (ct_country acc)
      (fold_left (fun a v => PrimFloat.add a v) (quantity_tons <$> es)
                 (ct_totalQuantity_tons acc))
      (fold_left (fun a v => PrimFloat.add a v) (value_eur <$> es)
                 (ct_totalValue_eur acc)).
Proof.
  revert acc. induction es as [| e es IH]; intros acc; [now destruct acc |].
  cbn [fold_left fmap list_fmap]. now rewrite IH.
Qed.

(** X21: [getTopCountries] returns [limit] records, or one per partner country
    when there are fewer countries (with a negative [limit], one per country
    but for [-limit] of them), each country at most once.  A returned record carries the sums of the quantities and
    of the values of the entries of its country, taken in their order; its
    average unit value is the value per ton, and 0 when the quantity is not
    greater than zero. *)
Theorem X21_top_countries (importsData : list ImportByCountry) (limit : Z) :
  let result := getTopCountries importsData limit in
  let distinct := len (distinctBy partnerCountry importsData) in
  len result
  = Z.max 0 (Z.min distinct (if limit <? 0 then distinct + limit else limit))
  /\ NoDup (country <$> result)
  /\ forall c, c ∈ result ->
       exists e0 es,
         groupOf partnerCountry (country c) importsData = e0 :: es
         /\ tc_totalQuantity_tons c = sum (quantity_tons <$> e0 :: es)
         /\ tc_totalValue_eur c = sum (value_eur <$> e0 :: es)
         /\ avgUnitValue c
            = if (0 <? tc_totalQuantity_tons c)%float
              then (tc_totalValue_eur c / tc_totalQuantity_tons c)%float else 0%float.
Proof.
  cbv zeta. unfold getTopCountries, topCountriesStep. cbv zeta.
  destruct (group_fold partnerCountry
              (fun e => mkCountryTotal (partnerCountry e) 0 0)
              (fun e country =>
                 mkCountryTotal (ct_country country)
                   (ct_totalQuantity_tons country + quantity_tons e)
                   (ct_totalValue_eur country + value_eur e))
              importsData) as [Hkeys Hvals].
  cbv zeta in Hkeys, Hvals.
  set (m := fold_left _ importsData []) in *.
  assert (Hrecord : forall k v, (k, v) ∈ m ->
            exists e0 es,
              groupOf partnerCountry k importsData = e0 :: es
              /\ v = mkCountryTotal k (sum (quantity_tons <$> e0 :: es))
                       (sum (value_eur <$> e0 :: es))).
  { intros k v Hin. destruct (Hvals k v Hin) as (e0 & es & Hgroup & ->).
    exists e0, es. split; [exact Hgroup |].
    rewrite fold_country_totals. cbn [ct_country ct_totalQuantity_tons ct_totalValue_eur].
    assert (He0 : partnerCountry e0 = k).
    { apply (elem_of_groupOf partnerCountry k importsData e0). rewrite Hgroup. left. }
    rewrite He0. reflexivity. }
  change (map snd m) with (snd <$> m).
  assert (Hcountries : ct_country <$> (snd <$> m) = m.*1).
  { rewrite <- list_fmap_compose. apply list_fmap_ext. intros i [k v] Hi.
    apply list_elem_of_lookup_2 in Hi.
    destruct (Hrecord k v Hi) as (e0 & es & _ & ->). reflexivity. }
  set (ranked := sortBy _ (snd <$> m)).
  assert (Hperm : ranked ≡ₚ snd <$> m) by apply sortBy_Permutation.
  assert (Hlen : len ranked = len (distinctBy partnerCountry importsData)).
  { unfold len. now rewrite Hperm, length_fmap, <- (length_fmap fst m), Hkeys. }
  match goal with
  | |- context [map ?f (sliceTo ranked limit)] =>
      change (map f (sliceTo ranked limit)) with (f <$> sliceTo ranked limit)
  end.
  split; [| split].
  - unfold len at 1. rewrite length_fmap. unfold sliceTo. rewrite length_take, Hlen.
    unfold len in *. destruct (Z.ltb_spec limit 0); lia.
  - rewrite <- list_fmap_compose.
    change (NoDup (ct_country <$> sliceTo ranked limit)).
    unfold sliceTo. rewrite fmap_take.
    apply (sublist_NoDup _ (ct_country <$> ranked)); [| apply sublist_take].
    rewrite Hperm, Hcountries, Hkeys. apply NoDup_distinctBy.
  - intros c Hc. apply list_elem_of_fmap in Hc as (v & -> & Hv).
    cbn [country tc_totalQuantity_tons tc_totalValue_eur avgUnitValue].
    assert (Hin : v ∈ snd <$> m).
    { rewrite <- Hperm. unfold sliceTo in Hv.
      eapply elem_of_sublist; [exact Hv | apply sublist_take]. }
    apply list_elem_of_fmap in Hin as ([k v'] & -> & Hin).
    destruct (Hrecord k v' Hin) as (e0 & es & Hgroup & ->).
    cbn [snd ct_country ct_totalQuantity_tons ct_totalValue_eur].
    exists e0, es. repeat split; try reflexivity. exact Hgroup.
Qed.

(** Three entries of two countries, and the first country of the ranking. *)
Lemma X21_top_countries_witness :
  let entry ym c q := mkImportByCountry (mkDate 1704067200000 2024) ym c q 10 in
  let importsData :=
    [entry "2024-01" "IN" 50%float; entry "2024-01" "CN" 100%float;
     entry "2024-02" "CN" 70%float] in
  len (getTopCountries importsData 1) = 1
  /\ country <$> getTopCountries importsData 1 = ["CN"]
  /\ tc_totalQuantity_tons <$> getTopCountries importsData 1 = [170%float].
Proof.
  cbv zeta. split; [| split; reflexivity].
  exact (proj1 (X21_top_countries _ 1)).
Defined.



(** ** From the import entries to the merged panel *)

Lemma groupOf_unique {A} (f : A -> string) (l : list A) (k : string) :
  NoDup (f <$> l) -> k ∈ f <$> l ->
  exists r, groupOf f k l = [r] /\ r ∈ l /\ f r = k.
Proof.
  induction l as [| x l IH]; cbn [fmap list_fmap].
  { intros _ Hk. now apply elem_of_nil in Hk. }
  intros Hnodup Hk. apply NoDup_cons in Hnodup as [Hx Hnodup].
  unfold groupOf. cbn [List.filter].
  destruct (String.eqb_spec (f x) k) as [Heq | Hne].
  - exists x. split; [| split; [left | exact Heq]].
    f_equal. apply (groupOf_nil f k l). now rewrite <- Heq.
  - apply elem_of_cons in Hk as [Hk | Hk]; [congruence |].
    destruct (IH Hnodup Hk) as (r & Hr & Hin & Hfr).
    exists r. split; [exact Hr | split; [now right | exact Hfr]].
Qed.

(** X22: every period of the import entries has exactly one record in the
    panel that [mergeDatasets] builds from [aggregateImports].  The record
    carries the date of the first entry of the period, and as import quantity
    and import value the sums over the entries of the period, or [null] when
    such a sum is zero or [NaN]. *)
Theorem X22_import_entries_reach_the_panel (getMonth : JsDate -> Z)
    (importsData : list ImportByCountry) (etsData : list EtsEntry)
    (industryData : list IndustryEntry) (k : string) :
  let panel :=
    mergeDatasets (aggregateImports getMonth importsData) etsData industryData in
  k ∈ periodKey getMonth <$> importsData ->
  exists r e0 es,
    groupOf m_yearMonth k panel = [r]
    /\ groupOf (periodKey getMonth) k importsData = e0 :: es
    /\ m_date r = bc_date e0
    /\ m_importQuantity_tons r = orNull (Some (sum (quantity_tons <$> e0 :: es)))
    /\ m_importValue_eur r = orNull (Some (sum (value_eur <$> e0 :: es))).
Proof.
  cbv zeta. intros Hk.
  set (agg := aggregateImports getMonth importsData).
  destruct (aggregateImports_total getMonth importsData) as (Hkeys & _ & _ & Hrecords).
  cbv zeta in Hkeys, Hrecords. fold agg in Hkeys, Hrecords.
  assert (Hperiod : k ∈ it_yearMonth <$> total agg).
  { rewrite Hkeys. now apply elem_of_distinctBy. }
  destruct (groupOf_unique m_yearMonth (mergeDatasets agg etsData industryData) k)
    as (r & Hr & Hin & <-).
  { apply mergeDatasets_NoDup_keys. }
  { rewrite mergeDatasets_keys. apply elem_of_allPeriods. now left. }
  apply elem_of_mergeDatasets in Hin. unfold mergePeriod in Hin.
  destruct (find _ (total agg)) as [t |] eqn:Ht.
  2:{ apply find_period_None in Ht. contradiction. }
  apply find_period_Some in Ht as [Ht Hym].
  cbn [firstDate] in Hin. injection Hin as Hin.
  destruct (Hrecords t Ht) as (e0 & es & Hgroup & Hdate & Hq & Hv & _).
  rewrite Hym in Hgroup.
  exists r, e0, es. split; [exact Hr |]. split; [exact Hgroup |].
  rewrite <- Hin. cbn [m_date m_importQuantity_tons m_importValue_eur fmap option_fmap
                       option_map].
  rewrite Hdate, Hq, Hv. repeat split.
Qed.

(** Two entries of January 2024 give one record with their sum. *)
Lemma X22_import_entries_reach_the_panel_witness :
  let entry c q := mkImportByCountry (mkDate 1704067200000 2024) "2024-01" c q 10 in
  let importsData := [entry "CN" 100%float; entry "IN" 50%float] in
  exists r,
    groupOf m_yearMonth "2024-01"
            (mergeDatasets (aggregateImports (fun _ => 0) importsData) [] []) = [r]
    /\ m_importQuantity_tons r = Some 150%float
    /\ m_importValue_eur r = Some 20%float.
Proof.
  cbv zeta.
  destruct (X22_import_entries_reach_the_panel (fun _ => 0)
              [mkImportByCountry (mkDate 1704067200000 2024) "2024-01" "CN" 100 10;
               mkImportByCountry (mkDate 1704067200000 2024) "2024-01" "IN" 50 10]
              [] [] "2024-01")
    as (r & e0 & es & Hr & Hgroup & _ & Hq & Hv).
  { cbn. left. }
  injection Hgroup as <- <-.
  exists r. split; [exact Hr |]. split; [exact Hq | exact Hv].
Defined.

(** ** Rolling correlations *)

Lemma validValues_length (l : list (option float)) :
  (length (validValues l) <= length l)%nat.
Proof.
  induction l as [| v l IH]; [reflexivity |]. cbn [validValues omap list_omap].
  fold (validValues l).
  destruct v as [a |]; [destruct (negb (isNaN a)) |]; cbn [length]; lia.
Qed.

Lemma validValues_full (l : list (option float)) :
  length (validValues l) = length l <-> Forall (fun v => validNumber v = true) l.
Proof.
  induction l as [| v l IH]; [split; [constructor | reflexivity] |].
  pose proof (validValues_length l) as Hle.
  cbn [validValues omap list_omap]. fold (validValues l).
  rewrite Forall_cons. unfold validNumber at 1.
  destruct v as [a |]; [destruct (negb (isNaN a)) |]; cbn [length].
  - rewrite <- IH. split; [intros [= ->]; now split | intros [_ ->]; reflexivity].
  - split; [lia | intros [Hc _]; discriminate Hc].
  - split; [lia | intros [Hc _]; discriminate Hc].
Qed.

Lemma validValues_all (l : list (option float)) :
  Forall (fun v => validNumber v = true) l -> Some <$> validValues l = l.
Proof.
  induction 1 as [| v l Hv _ IH]; [reflexivity |].
  cbn [validValues omap list_omap]. fold (validValues l).
  destruct v as [a |]; [| discriminate Hv]. cbn in Hv. rewrite Hv.
  cbn [fmap list_fmap]. now rewrite IH.
Qed.

(** A slice of at most [window] values that keeps [window] valid values
    keeps all its values. *)
Lemma slice_kept_whole (l : list (option float)) (i window : Z) :
  0 <= window ->
  len (validValues (Array_slice l (i - window + 1) (i + 1))) = window ->
  length (validValues (Array_slice l (i - window + 1) (i + 1)))
  = length (Array_slice l (i - window + 1) (i + 1)).
Proof.
  intros Hw Hlen.
  pose proof (validValues_length (Array_slice l (i - window + 1) (i + 1))) as Hle.
  assert (Hmax : (length (Array_slice l (i - window + 1) (i + 1)) <= Z.to_nat window)%nat).
  { unfold Array_slice. cbv zeta. rewrite length_take, length_drop. unfold len.
    destruct (Z.ltb_spec (i - window + 1) 0), (Z.ltb_spec (i + 1) 0); lia. }
  unfold len in Hlen. lia.
Qed.

(** A window that ends at [i] keeps all its [window] values exactly when
    every one of them is a number. *)
Lemma window_complete (l : list (option float)) (i window : Z) :
  1 <= window -> window - 1 <= i ->
  len (validValues (Array_slice l (i - window + 1) (i + 1))) = window
  <-> windowValid l i window.
Proof.
  intros Hw Hi. unfold Array_slice. cbv zeta.
  destruct (Z.ltb_spec (i - window + 1) 0) as [| _]; [lia |].
  destruct (Z.ltb_spec (i + 1) 0) as [| _]; [lia |].
  set (slice := take _ _).
  pose proof (validValues_length slice) as Hle.
  destruct (Z_le_gt_dec (i + 1) (len l)) as [Hin | Hout].
  - assert (Hslice : slice = take (Z.to_nat window) (drop (Z.to_nat (i - window + 1)) l)).
    { subst slice. do 2 f_equal; lia. }
    assert (Hlen : length slice = Z.to_nat window).
    { rewrite Hslice, length_take, length_drop. unfold len in Hin. lia. }
    assert (Hfull : len (validValues slice) = window
                    <-> Forall (fun v => validNumber v = true) slice).
    { rewrite <- validValues_full. unfold len. lia. }
    rewrite Hfull, Forall_lookup, Hslice. unfold windowValid. split.
    + intros Hall j Hj. unfold at_. destruct (Z.ltb_spec j 0); [lia |].
      destruct (lookup_lt_is_Some_2 l (Z.to_nat j)) as [v Hv];
        [unfold len in Hin; lia |].
      specialize (Hall (Z.to_nat (j - (i - window + 1))) v).
      rewrite lookup_take_lt, lookup_drop in Hall by lia.
      replace (Z.to_nat (i - window + 1) + Z.to_nat (j - (i - window + 1)))%nat
        with (Z.to_nat j) in Hall by lia.
      pose proof (Hall Hv) as Hvalid.
      apply validNumber_Some in Hvalid as (a & -> & Ha).
      exists a. split; [exact Hv | exact Ha].
    + intros Hall t v Hv.
      destruct (Nat.lt_ge_cases t (Z.to_nat window)) as [Ht | Ht];
        [| rewrite lookup_take_ge in Hv by lia; discriminate Hv].
      rewrite lookup_take_lt, lookup_drop in Hv by lia.
      destruct (Hall (i - window + 1 + Z.of_nat t) ltac:(lia)) as (a & Ha & Hnan).
      unfold at_ in Ha. destruct (Z.ltb_spec (i - window + 1 + Z.of_nat t) 0); [lia |].
      replace (Z.to_nat (i - window + 1 + Z.of_nat t))
        with (Z.to_nat (i - window + 1) + t)%nat in Ha by lia.
      rewrite Ha in Hv. injection Hv as <-. cbn. now rewrite Hnan.
  - split.
    + intros Hlen. exfalso.
      assert (Hshort : (length slice < Z.to_nat window)%nat).
      { subst slice. rewrite length_take, length_drop. unfold len in *. lia. }
      unfold len in Hlen. lia.
    + intros Hall. exfalso. destruct (Hall i ltac:(lia)) as (a & Ha & _).
      unfold at_ in Ha. destruct (Z.ltb_spec i 0); [lia |].
      apply lookup_lt_Some in Ha. unfold len in Hout. lia.
Qed.

Lemma omap_nil_all {A B} (f : A -> option B) (l : list A) :
  (forall x, f x = None) -> omap f l = [].
Proof.
  intros Hf. induction l as [| x l IH]; [reflexivity |].
  cbn [omap list_omap]. now rewrite Hf.
Qed.

Lemma elem_of_rollingIndices (n window i : Z) :
  i ∈ rollingIndices n window <-> window - 1 <= i < n.
Proof.
  unfold rollingIndices. rewrite list_elem_of_In, in_map_iff. split.
  - intros (j & <- & Hj). apply in_seq in Hj. lia.
  - intros Hi. exists (Z.to_nat (i - (window - 1))). split; [lia |].
    apply in_seq. lia.
Qed.

Lemma rollingIndices_sorted (n window : Z) :
  StronglySorted Z.lt (rollingIndices n window).
Proof.
  unfold rollingIndices. generalize (Z.to_nat (n - (window - 1))). intros m.
  generalize 0%nat. induction m as [| m IH]; intros s; cbn [seq map]; constructor.
  - apply IH.
  - apply Forall_forall. intros z Hz.
    apply list_elem_of_In, in_map_iff in Hz as (j & <- & Hj).
    apply in_seq in Hj. lia.
Qed.

Lemma omap_index_sorted {A} (f : Z -> option A) (g : A -> Z) (l : list Z) :
  (forall i a, f i = Some a -> g a = i) ->
  StronglySorted Z.lt l -> StronglySorted Z.lt (g <$> omap f l).
Proof.
  intros Hfg. induction 1 as [| i l Hsorted IH Hall]; [constructor |].
  cbn [omap list_omap]. destruct (f i) as [a |] eqn:Ha; [| exact IH].
  cbn [fmap list_fmap]. constructor; [exact IH |].
  rewrite (Hfg i a Ha). apply Forall_forall. intros z Hz.
  apply list_elem_of_fmap in Hz as (b & -> & Hb).
  apply list_elem_of_omap in Hb as (j & Hj & Hfj).
  rewrite (Hfg j b Hfj). rewrite Forall_forall in Hall. now apply Hall.
Qed.

(** X23: with a window of at least one value, [rollingCorrelation] reports
    an index [i] exactly when [i] is at least [window - 1], lies within [x],
    and the [window] values of [x] and of [y] that end at [i] are all numbers;
    the indices are reported in increasing order, and each correlation is
    computed from these [window] values of the two series.  With a negative
    window nothing is reported. *)
Theorem X23_rolling_windows (x y : list (option float)) (window : Z) :
  let results := rollingCorrelation x y window in
  (window < 0 -> results = [])
  /\ (1 <= window ->
      (forall i, i ∈ rc_index <$> results
                 <-> window - 1 <= i < len x
                     /\ windowValid x i window /\ windowValid y i window)
      /\ StronglySorted Z.lt (rc_index <$> results)
      /\ forall r, r ∈ results ->
           exists xs ys,
             correlation r = calculateCorrelation xs ys
             /\ len xs = window /\ len ys = window
             /\ Some <$> xs = Array_slice x (rc_index r - window + 1) (rc_index r + 1)
             /\ Some <$> ys = Array_slice y (rc_index r - window + 1) (rc_index r + 1)).
Proof.
  cbv zeta. unfold rollingCorrelation.
  set (step := fun i : Z => _).
  assert (Hstep : forall i r, step i = Some r ->
            rc_index r = i
            /\ len (validValues (Array_slice x (i - window + 1) (i + 1))) = window
            /\ len (validValues (Array_slice y (i - window + 1) (i + 1))) = window
            /\ correlation r
               = calculateCorrelation
                   (validValues (Array_slice x (i - window + 1) (i + 1)))
                   (validValues (Array_slice y (i - window + 1) (i + 1)))).
  { intros i r. unfold step.
    destruct (Z.eqb_spec (len (validValues (Array_slice x (i - window + 1) (i + 1))))
                         window) as [Hx |]; [| discriminate].
    destruct (Z.eqb_spec (len (validValues (Array_slice y (i - window + 1) (i + 1))))
                         window) as [Hy |]; [| discriminate].
    cbn [andb]. intros [= <-]. cbn [rc_index correlation]. now repeat split. }
  split.
  { intros Hneg. apply omap_nil_all. intros i. unfold step.
    destruct (Z.eqb_spec (len (validValues (Array_slice x (i - window + 1) (i + 1))))
                         window) as [Hx |]; [| reflexivity].
    unfold len in Hx. lia. }
  intros Hw. split; [| split].
  - intros i. rewrite list_elem_of_fmap. split.
    + intros (r & -> & Hr). apply list_elem_of_omap in Hr as (j & Hj & Hr).
      apply Hstep in Hr as (-> & Hx & Hy & _).
      apply elem_of_rollingIndices in Hj. split; [exact Hj |].
      split; apply window_complete; try assumption; lia.
    + intros (Hi & Hx & Hy).
      apply window_complete in Hx; [| lia | lia].
      apply window_complete in Hy; [| lia | lia].
      exists {| rc_index := i;
                correlation :=
                  calculateCorrelation
                    (validValues (Array_slice x (i - window + 1) (i + 1)))
                    (validValues (Array_slice y (i - window + 1) (i + 1))) |}.
      split; [reflexivity |]. apply list_elem_of_omap. exists i.
      split; [now apply elem_of_rollingIndices |].
      unfold step. rewrite Hx, Hy, Z.eqb_refl. reflexivity.
  - apply omap_index_sorted; [| apply rollingIndices_sorted].
    intros i r Hr. now apply Hstep in Hr.
  - intros r Hr. apply list_elem_of_omap in Hr as (i & Hi & Hr).
    apply elem_of_rollingIndices in Hi.
    apply Hstep in Hr as (-> & Hx & Hy & Hcorr).
    exists (validValues (Array_slice x (i - window + 1) (i + 1))),
           (validValues (Array_slice y (i - window + 1) (i + 1))).
    split; [exact Hcorr |]. split; [exact Hx |]. split; [exact Hy |].
    split; apply validValues_all, validValues_full.
    + apply slice_kept_whole; [lia | exact Hx].
    + apply slice_kept_whole; [lia | exact Hy].
Qed.

(** A window of two values over a series with one gap. *)
Lemma X23_rolling_windows_witness :
  let x := [Some 1%float; Some 2%float; None; Some 3%float; Some 4%float] in
  let y := [Some 5%float; Some 6%float; Some 7%float; Some 8%float; Some 9%float] in
  rc_index <$> rollingCorrelation x y 2 = [1; 4]
  /\ StronglySorted Z.lt (rc_index <$> rollingCorrelation x y 2)
  /\ rollingCorrelation x y (-1) = [].
Proof.
  cbv zeta. split; [reflexivity |]. split.
  - refine (proj1 (proj2 (proj2 (X23_rolling_windows _ _ 2) _))). lia.
  - refine (proj1 (X23_rolling_windows _ _ (-1)) _). lia.
Defined.

(** ** The approximate p-value *)

Lemma abs_opp (x : float) : abs (- x) = abs x.
Proof.
  rewrite <- (SF2Prim_Prim2SF (abs (- x))), <- (SF2Prim_Prim2SF (abs x)).
  rewrite !FloatAxioms.abs_spec, FloatAxioms.opp_spec.
  f_equal. destruct (Prim2SF x); reflexivity.
Qed.

Lemma isNaN_spec (x : float) : isNaN x = true -> Prim2SF x = S754_nan.
Proof.
  unfold isNaN, PrimFloat.is_nan. rewrite FloatAxioms.eqb_spec.
  destruct (Prim2SF x) as [s | s | | s m e]; cbn;
    try (destruct s; discriminate); try reflexivity.
  unfold SFeqb, SFcompare.
  destruct s; rewrite ?Z.compare_refl, ?Pos.compare_refl; cbn; try discriminate.
  all: rewrite ?Pos.compare_cont_refl; cbn; try discriminate.
Qed.

Lemma abs_NaN_ltb (x c : float) : isNaN x = true -> (abs x <? c)%float = false.
Proof.
  intros H. rewrite FloatAxioms.ltb_spec, FloatAxioms.abs_spec, (isNaN_spec x H).
  reflexivity.
Qed.

(** X24: [approximatePValue] depends on the statistic only through its
    absolute value.  With at most thirty degrees of freedom it answers one of
    seven fixed levels, and a statistic that is [NaN] is given the smallest
    of them, 0.001. *)
Theorem X24_pvalue_by_magnitude (Math : MathObject) (tStat : float) (df : Z) :
  approximatePValue Math (- tStat) df = approximatePValue Math tStat df
  /\ (df <= 30 ->
      approximatePValue Math tStat df
      ∈ [0.6%float; 0.3%float; 0.15%float; 0.05%float; 0.02%float; 0.01%float;
         0.001%float])
  /\ (df <= 30 -> isNaN tStat = true ->
      approximatePValue Math tStat df = 0.001%float).
Proof.
  split; [| split].
  - unfold approximatePValue. now rewrite abs_opp.
  - intros Hdf. unfold approximatePValue.
    destruct (Z.gtb_spec df 30) as [| _]; [lia |].
    repeat match goal with
    | |- context [(abs tStat <? ?c)%float] =>
        destruct (abs tStat <? c)%float; [apply list_elem_of_In; cbn; tauto |]
    end.
    apply list_elem_of_In; cbn; tauto.
  - intros Hdf Hnan. unfold approximatePValue.
    destruct (Z.gtb_spec df 30) as [| _]; [lia |].
    now rewrite !(abs_NaN_ltb tStat _ Hnan).
Qed.

Lemma X24_pvalue_by_magnitude_witness :
  (forall Math, approximatePValue Math nan 10 = 0.001%float)
  /\ (forall Math,
        approximatePValue Math (-2)%float 40 = approximatePValue Math 2%float 40).
Proof.
  split; intros Math.
  - apply (X24_pvalue_by_magnitude Math nan 10); [lia | reflexivity].
  - apply (X24_pvalue_by_magnitude Math 2%float 40).
Defined.

(** ** The intervention dummy *)

(** X25: in the derived panel the intervention dummy, where the panel carries
    one, is 1 exactly on the records of the years 2023 to 2025, those that
    [checkCBAMFeasibility] counts as post-intervention, and 0 on all others.  The dummy
    column that [alignDataWithCBAM] hands to the baseline model follows it
    on the aligned records, and is 0 throughout for a panel without the
    dummy. *)
Theorem X25_dummy_marks_gate_window (Math : MathObject) (withDummy : bool)
    (panel : list MergedRow) :
  let derived := calculateDerivedIndicators Math withDummy panel in
  (forall d, d ∈ derived ->
     cbamDummy d
     = if withDummy then Some (if isPostCBAM d then 1%float else 0%float) else None)
  /\ al_x3 (alignDataWithCBAM derived false)
     = (fun d => if withDummy && isPostCBAM d then 1%float else 0%float)
       <$> List.filter alignable derived.
Proof.
  cbv zeta.
  assert (Hdummy : forall d, d ∈ calculateDerivedIndicators Math withDummy panel ->
            cbamDummy d
            = if withDummy then Some (if isPostCBAM d then 1%float else 0%float)
              else None).
  { intros d Hd. unfold calculateDerivedIndicators in Hd.
    apply list_elem_of_lookup in Hd as [t Ht]. rewrite list_lookup_imap in Ht.
    destruct (panel !! t) as [entry |]; [| discriminate Ht].
    cbn [fmap option_fmap option_map] in Ht. injection Ht as <-.
    unfold isPostCBAM. cbn [deriveRow cbamDummy date]. reflexivity. }
  split; [exact Hdummy |].
  destruct (alignDataWithCBAM_arrays (calculateDerivedIndicators Math withDummy panel)
              false) as (_ & _ & _ & H3).
  cbv zeta in H3. rewrite H3. apply list_fmap_ext. intros i d Hi.
  apply list_elem_of_lookup_2, elem_of_filter in Hi as [Hd _].
  rewrite (Hdummy d Hd). destruct withDummy; reflexivity.
Qed.

(** A record of 2022 and a record of 2024. *)
Lemma X25_dummy_marks_gate_window_witness :
  let m y := mkMergedRow (mkDate 0 y) "" (Some 100%float) None None None None in
  (forall Math,
     cbamDummy <$> calculateDerivedIndicators Math true [m 2022; m 2024]
     = [Some 0%float; Some 1%float])
  /\ (forall Math d,
        d ∈ calculateDerivedIndicators Math true [m 2022; m 2024] ->
        cbamDummy d = Some (if isPostCBAM d then 1%float else 0%float)).
Proof.
  cbv zeta. split.
  - intros Math. reflexivity.
  - intros Math d Hd.
    exact (proj1 (X25_dummy_marks_gate_window Math true _) d Hd).
Defined.

(** ** The aggregation on three entries *)

(** The third entry has no period key of its own and takes the one of its
    date, a date of February. *)
Lemma X19_import_totals_by_period_witness :
  let entry ym c q := mkImportByCountry (mkDate 1704067200000 2024) ym c q 10 in
  let importsData :=
    [entry "2024-01" "IN" 50%float; entry "2024-01" "CN" 100%float;
     entry "" "CN" 70%float] in
  it_yearMonth <$> total (aggregateImports (fun _ => 1) importsData)
  = ["2024-01"; "2024-02"]
  /\ totalQuantity_tons <$> total (aggregateImports (fun _ => 1) importsData)
     = [150%float; 70%float].
Proof.
  cbv zeta. split; [| reflexivity].
  exact (proj1 (X19_import_totals_by_period (fun _ => 1) _)).
Defined.

(** Two entries of one country in one period. *)
Lemma X20_imports_by_country_witness :
  let entry ym c q := mkImportByCountry (mkDate 1704067200000 2024) ym c q 10 in
  let importsData :=
    [entry "2024-01" "IN" 50%float; entry "2024-01" "CN" 100%float;
     entry "2024-01" "IN" 70%float] in
  recordKey <$> byCountry (aggregateImports (fun _ => 0) importsData)
  = ["2024-01_IN"; "2024-01_CN"]
  /\ quantity_tons <$> byCountry (aggregateImports (fun _ => 0) importsData)
     = [120%float; 100%float].
Proof.
  cbv zeta. split; [| reflexivity].
  exact (proj1 (X20_imports_by_country (fun _ => 0) _)).
Defined.

(** ** The symmetry of the correlation *)

Lemma SFmul_comm (prec emax : Z) (a b : spec_float) :
  SFmul prec emax a b = SFmul prec emax b a.
Proof.
  destruct a as [sa | sa | | sa ma ea], b as [sb | sb | | sb mb eb]; cbn;
    try reflexivity; try (now rewrite xorb_comm).
  rewrite (xorb_comm sa sb), (Pos.mul_comm ma mb), (Z.add_comm ea eb). reflexivity.
Qed.

(** The product of two numbers does not depend on their order. *)
Lemma float_mul_comm (a b : float) : (a * b)%float = (b * a)%float.
Proof.
  rewrite <- (SF2Prim_Prim2SF (a * b)), <- (SF2Prim_Prim2SF (b * a)).
  rewrite !FloatAxioms.mul_spec. f_equal. apply SFmul_comm.
Qed.

Lemma calculateCorrelation_sym (x y : list float) :
  length x = length y -> calculateCorrelation x y = calculateCorrelation y x.
Proof.
  intros Hlen. unfold calculateCorrelation, len. cbv zeta. rewrite <- Hlen.
  set (meanX := (sum x / toNumber (Z.of_nat (length x)))%float).
  set (meanY := (sum y / toNumber (Z.of_nat (length x)))%float).
  assert (Hfold : forall l acc acc',
            acc' = (fst (fst acc), snd acc, snd (fst acc)) ->
            fold_left
              (fun acc i =>
                 (fst (fst acc) + (elem y i - meanY) * (elem x i - meanX),
                  snd (fst acc) + (elem y i - meanY) * (elem y i - meanY),
                  snd acc + (elem x i - meanX) * (elem x i - meanX))%float)
              l acc'
            = (fun s => (fst (fst s), snd s, snd (fst s)))
                (fold_left
                   (fun acc i =>
                      (fst (fst acc) + (elem x i - meanX) * (elem y i - meanY),
                       snd (fst acc) + (elem x i - meanX) * (elem x i - meanX),
                       snd acc + (elem y i - meanY) * (elem y i - meanY))%float)
                   l acc)).
  { induction l as [| i l IH]; intros acc acc' ->; [reflexivity |].
    cbn [fold_left]. apply IH. cbn [fst snd].
    now rewrite (float_mul_comm (elem y i - meanY) (elem x i - meanX)). }
  rewrite (Hfold (seq 0 (length x)) (0%float, 0%float, 0%float)
                 (0%float, 0%float, 0%float) eq_refl).
  cbn [fst snd].
  set (sums := fold_left _ (seq 0 (length x)) _).
  now rewrite (float_mul_comm (snd sums) (snd (fst sums))).
Qed.

(** X26: the correlation of two arrays of the same length does not depend on
    their order, to the last bit of the result; and [rollingCorrelation]
    reports the same indices and correlations when two series of the same
    length are exchanged. *)
Theorem X26_correlation_symmetric (x y : list (option float)) (window : Z) :
  length x = length y ->
  (forall xs ys : list float,
     length xs = length ys -> calculateCorrelation xs ys = calculateCorrelation ys xs)
  /\ rollingCorrelation x y window = rollingCorrelation y x window.
Proof.
  intros Hlen. split; [apply calculateCorrelation_sym |].
  unfold rollingCorrelation, len. rewrite <- Hlen.
  induction (rollingIndices (Z.of_nat (length x)) window) as [| i l IH];
    [reflexivity |].
  cbn [omap list_omap]. rewrite IH.
  destruct (Z.eqb_spec
              (Z.of_nat (length (validValues (Array_slice x (i - window + 1) (i + 1)))))
              window) as [Hx | Hx],
           (Z.eqb_spec
              (Z.of_nat (length (validValues (Array_slice y (i - window + 1) (i + 1)))))
              window) as [Hy | Hy]; cbn [andb]; try reflexivity.
  rewrite (calculateCorrelation_sym
             (validValues (Array_slice x (i - window + 1) (i + 1)))
             (validValues (Array_slice y (i - window + 1) (i + 1)))) by lia.
  reflexivity.
Qed.

(** Two series of five values. *)
Lemma X26_correlation_symmetric_witness :
  let x := [Some 1%float; Some 2.5%float; None; Some 3%float; Some 4.1%float] in
  let y := [Some 5%float; Some 6%float; Some 7.3%float; Some 8%float; Some 9%float] in
  rollingCorrelation x y 2 = rollingCorrelation y x 2
  /\ length (rollingCorrelation x y 2) = 2%nat.
Proof.
  cbv zeta. split; [| reflexivity].
  apply X26_correlation_symmetric. reflexivity.
Defined.
